(** * The search engine of the book editor (calibre/gui2/tweak_book/search.py)

    A shallow embedding of the search-execution functions of the module:
    [get_search_regex], [get_search_function], [initialize_search_request]
    and the replace-all / count paths of [run_search] (with its local
    function [do_all]), followed by the properties proved about them. *)

From stdpp Require Import base option list gmap strings fin_maps.
From Stdlib Require Import ZArith Lia.

Open Scope string_scope.
Open Scope list_scope.

(** ** Exceptions and results

    Python code that may raise is modelled as returning a [result]. *)

Inductive exn : Type :=
  | KeyError (key : string)
  | ValueError (what : string)
  | IndexError
  | AttributeError (attr : string)
  | InvalidRegex (raw : string) (message : string)
  | NoSuchFunction (name : string).

Inductive result (A : Type) : Type :=
  | Ok (a : A)
  | Raise (e : exn).
Arguments Ok {A} a.
Arguments Raise {A} e.

#[global] Instance result_ret : MRet result := fun _ a => Ok a.
#[global] Instance result_bind : MBind result := fun _ _ k r =>
  match r with
  | Ok a => k a
  | Raise e => Raise e
  end.

(** ** [collections.OrderedDict] with string keys and string values

    An insertion-ordered association: assigning to an existing key keeps the
    key's position and replaces its value, assigning to a new key appends. *)

Module OrderedDict.

Definition t : Type := list (string * string).

Definition keys (d : t) : list string := fmap fst d.

Fixpoint get (k : string) (d : t) : option string :=
  match d with
  | [] => None
  | (k', v) :: d' => if String.eqb k k' then Some v else get k d'
  end.

(** [k in d] *)
Definition contains (k : string) (d : t) : bool :=
  match get k d with Some _ => true | None => false end.

(** [d[k] = v] *)
Fixpoint set (k v : string) (d : t) : t :=
  match d with
  | [] => [(k, v)]
  | (k', v') :: d' =>
      if String.eqb k k' then (k', v) :: d' else (k', v') :: set k v d'
  end.

(** [OrderedDict(pairs)] *)
Definition of_pairs (l : list (string * string)) : t :=
  fold_left (fun d kv => set (fst kv) (snd kv) d) l [].

(** [d[k]], raising [KeyError] *)
Definition getitem (k : string) (d : t) : result string :=
  match get k d with
  | Some v => Ok v
  | None => Raise (KeyError k)
  end.

(** truth value of the dictionary: [bool(d)] *)
Definition nonempty (d : t) : bool :=
  match d with [] => false | _ => true end.

(** The invariant of the Python type: keys are unique. *)
Definition wf (d : t) : Prop := NoDup (keys d).

End OrderedDict.

(** ** Python list operations used by the scope resolver *)

(** [l.index(x)] *)
Fixpoint list_index (x : string) (l : list string) : result nat :=
  match l with
  | [] => Raise (ValueError "not in list")
  | y :: l' => if String.eqb x y then Ok 0 else i ← list_index x l'; Ok (S i)
  end.

(** [(m, files[m]) for m in lfiles] *)
Fixpoint pairs_of (files : OrderedDict.t) (lfiles : list string)
  : result (list (string * string)) :=
  match lfiles with
  | [] => Ok []
  | m :: rest =>
      v ← OrderedDict.getitem m files;
      ps ← pairs_of files rest;
      Ok ((m, v) :: ps)
  end.

(** ** Search requests (the [state] dictionaries) *)

Inductive mode_t : Type := mode_normal | mode_regex | mode_function.
Inductive direction_t : Type := dir_up | dir_down.
Inductive where_t : Type :=
  | where_current | where_text | where_styles | where_selected
  | where_selected_text.
Inductive action_t : Type :=
  | act_find | act_replace | act_replace_find | act_replace_all | act_count.

#[global] Instance mode_eq_dec : EqDecision mode_t.
Proof. solve_decision. Defined.
#[global] Instance direction_eq_dec : EqDecision direction_t.
Proof. solve_decision. Defined.
#[global] Instance where_eq_dec : EqDecision where_t.
Proof. solve_decision. Defined.
#[global] Instance action_eq_dec : EqDecision action_t.
Proof. solve_decision. Defined.

Record search_state : Type := {
  find : string;
  replace : string;
  mode : mode_t;
  case_sensitive : bool;
  dot_all : bool;
  direction : direction_t;
  wrap : bool;
  where_ : where_t
}.

(** An editor object is referred to by its address. *)
Definition editor_ref : Type := nat.

(** What [initialize_search_request] returns:
    [(editor, where, files, do_all, marked)]. *)
Record search_request : Type := {
  rq_editor : option editor_ref;
  rq_where : where_t;
  rq_files : OrderedDict.t;
  rq_do_all : bool;
  rq_marked : bool
}.

Definition initialize_search_request
    (state : search_state) (action : action_t)
    (current_editor : option editor_ref) (current_editor_name : string)
    (searchable_names : where_t -> OrderedDict.t) : result search_request :=
  let where' := where_ state in
  let do_all :=
    wrap state
    || bool_decide (action = act_replace_all \/ action = act_count) in
  match where' with
  | where_current =>
      Ok {| rq_editor := current_editor; rq_where := where'; rq_files := [];
            rq_do_all := do_all; rq_marked := false |}
  | where_styles | where_text | where_selected =>
      let files := searchable_names where' in
      if OrderedDict.contains current_editor_name files then
        let lfiles := OrderedDict.keys files in
        idx ← list_index current_editor_name lfiles;
        let before := take idx lfiles in
        let after := drop (idx + 1) lfiles in
        let lfiles :=
          match direction state with
          | dir_up =>
              let lfiles := reverse before in
              if do_all then lfiles ++ (reverse after ++ [current_editor_name])
              else lfiles
          | dir_down =>
              let lfiles := after in
              if do_all then lfiles ++ (before ++ [current_editor_name])
              else lfiles
          end in
        ps ← pairs_of files lfiles;
        Ok {| rq_editor := current_editor; rq_where := where';
              rq_files := OrderedDict.of_pairs ps;
              rq_do_all := do_all; rq_marked := false |}
      else
        Ok {| rq_editor := None; rq_where := where'; rq_files := files;
              rq_do_all := do_all; rq_marked := false |}
  | where_selected_text =>
      Ok {| rq_editor := current_editor; rq_where := where'; rq_files := [];
            rq_do_all := do_all; rq_marked := true |}
  end.

(** The order of the candidates that the resolver computes from the members
    before and after the current file. *)
Definition resolved_order (d : direction_t) (do_all : bool)
    (before : list string) (name : string) (after : list string)
  : list string :=
  match d with
  | dir_up =>
      if do_all then reverse before ++ (reverse after ++ [name])
      else reverse before
  | dir_down =>
      if do_all then after ++ (before ++ [name]) else after
  end.

(** The first two statements of [run_search]: the scope of the whole run
    and the [wrap] setting that the no-match message reports. *)
Definition run_search_scope (searches : list search_state) (action : action_t)
    (current_editor : option editor_ref) (current_editor_name : string)
    (searchable_names : where_t -> OrderedDict.t)
  : result (search_request * bool) :=
  match searches with
  | [] => Raise IndexError
  | search0 :: _ =>
      rq ← initialize_search_request search0 action current_editor
             current_editor_name searchable_names;
      Ok (rq, wrap search0)
  end.

(** ** The [regex] module

    The third-party [regex] package is not part of this repository. What the
    search code uses of it is gathered in a record: the flag constants, and
    the functions [regex.escape(raw, special_only=True)], [regex.compile]
    (through the message of the [regex.error] it raises, if any), [p.subn]
    and [p.findall]. *)

(** A compiled pattern object. [pat_id] is the identity of the object: two
    pattern objects are the same object when their [pat_id] agree. *)
Record compiled : Type := {
  pat_id : nat;
  pat_flags : Z;
  pat_text : string
}.

(** The second component of a compiled search: the replacement template, or
    the replace function registered under a name. *)
Inductive replacement : Type :=
  | Template (s : string)
  | Callable (name : string).

Record regex_module : Type := {
  VERSION1 : Z;
  WORD : Z;
  FULLCASE : Z;
  MULTILINE : Z;
  UNICODE : Z;
  IGNORECASE : Z;
  DOTALL : Z;
  REVERSE : Z;
  escape : string -> string;
  compile_error : string -> Z -> option string;
  (** [p.subn(repl, raw)], with [repl.context_name = n] when [repl] is
      callable: the new text and the number of substitutions made. *)
  subn : compiled -> replacement -> string -> string -> string * nat;
  findall : compiled -> string -> list string
}.

(** ** Editors, the container and the host callbacks *)

Record editor_obj : Type := {
  syntax : string;
  get_raw_data : string
}.

#[global] Instance editor_obj_inhabited : Inhabited editor_obj :=
  populate {| syntax := ""; get_raw_data := "" |}.

(** [editor.replace_data(raw)] *)
Definition replace_data (raw : string) (ed : editor_obj) : editor_obj :=
  {| syntax := syntax ed; get_raw_data := raw |}.

(** Calls made to the callbacks handed to [run_search] and to the dialogs,
    in the order they are made. *)
Inductive event : Type :=
  | add_savepoint (label : string)
  | rewind_savepoint
  | set_modified
  | error_dialog (title : string) (detail : string)
  | count_message (action : string) (count : nat) (query : string)
      (show_diff : bool).

(** The mutable state the search code works on: the module-level
    [regex_cache], the number of pattern objects [regex.compile] has built
    (the identity of the next one), the [editors] registry with the editor
    objects it refers to, the files of [current_container()], and the calls
    made so far. *)
Record world : Type := {
  regex_cache : gmap (Z * string) compiled;
  compile_calls : nat;
  heap : gmap editor_ref editor_obj;
  editors : gmap string editor_ref;
  container : gmap string string;
  events : list event
}.

Definition with_cache (c : gmap (Z * string) compiled) (n : nat) (w : world)
  : world :=
  {| regex_cache := c; compile_calls := n; heap := heap w;
     editors := editors w; container := container w; events := events w |}.

Definition with_heap (h : gmap editor_ref editor_obj) (w : world) : world :=
  {| regex_cache := regex_cache w; compile_calls := compile_calls w; heap := h;
     editors := editors w; container := container w; events := events w |}.

Definition with_container (c : gmap string string) (w : world) : world :=
  {| regex_cache := regex_cache w; compile_calls := compile_calls w;
     heap := heap w; editors := editors w; container := c; events := events w |}.

Definition emit (e : event) (w : world) : world :=
  {| regex_cache := regex_cache w; compile_calls := compile_calls w;
     heap := heap w; editors := editors w; container := container w;
     events := events w ++ [e] |}.

(** [current_container().raw_data(n)] *)
Definition raw_data_of (n : string) (w : world) : result string :=
  match container w !! n with
  | Some raw => Ok raw
  | None => Raise (KeyError n)
  end.

(** What [run_search] returns. *)
Inductive retval : Type :=
  | RNone
  | RBool (b : bool)
  | RInt (n : nat)
  | RDialog.

(** A flag is set in a flag word. *)
Definition has_flag (f flags : Z) : bool := Z.eqb (Z.land flags f) f.

(** The flags of the module are distinct single bits. *)
Definition flag_list (R : regex_module) : list Z :=
  [VERSION1 R; WORD R; FULLCASE R; MULTILINE R; UNICODE R;
   IGNORECASE R; DOTALL R; REVERSE R].

Definition flags_independent (R : regex_module) : Prop :=
  exists bits : list Z,
    NoDup bits /\ Forall (Z.le 0) bits /\ flag_list R = Z.pow 2 <$> bits.

(** Every entry of [regex_cache] was compiled from its key. *)
Definition cache_wf (w : world) : Prop :=
  forall flags raw p,
    regex_cache w !! (flags, raw) = Some p ->
    pat_flags p = flags /\ pat_text p = raw.

(** The text of a document as the search code reads it: the buffer of its
    editor when it is open, the file of the container otherwise. *)
Definition doc_text (w : world) (n : string) : option string :=
  match editors w !! n with
  | Some ed => Some (get_raw_data (heap w !!! ed))
  | None => container w !! n
  end.

Definition readable (w : world) (n : string) : Prop := is_Some (doc_text w n).

(** No editor object is registered under two names. *)
Definition registry_injective (w : world) : Prop :=
  forall n1 n2 ed,
    editors w !! n1 = Some ed -> editors w !! n2 = Some ed -> n1 = n2.

(** The files that [do_all] works on for a resolved request. *)
Definition candidates (rq : search_request) (current_editor_name : string)
  : list string :=
  if OrderedDict.nonempty (rq_files rq) then OrderedDict.keys (rq_files rq)
  else match rq_editor rq with
       | Some _ => [current_editor_name]
       | None => []
       end.

(** The condition under which [do_all] returns at once: no files and no
    editor. *)
Definition early_return (rq : search_request) : bool :=
  negb (OrderedDict.nonempty (rq_files rq))
  && bool_decide (rq_editor rq = None).

(** Calls that create, discard or commit a checkpoint. *)
Definition checkpoint_event (e : event) : bool :=
  match e with
  | add_savepoint _ | rewind_savepoint | set_modified => true
  | error_dialog _ _ | count_message _ _ _ _ => false
  end.

Section Search.

Variable regex : regex_module.

(** [replace_functions()]: the names of the registered replace functions. *)
Variable replace_functions : gset string.

(** [editor.all_in_marked(p, template)]: the editor after the call and the
    number of occurrences in the marked text. *)
Variable all_in_marked :
  compiled -> option replacement -> editor_obj -> editor_obj * nat.

Definition REGEX_FLAGS : Z :=
  Z.lor (Z.lor (Z.lor (Z.lor (VERSION1 regex) (WORD regex)) (FULLCASE regex))
           (MULTILINE regex)) (UNICODE regex).

(** The pattern text and the flags [get_search_regex] looks up and
    compiles: its lines up to the cache access. *)
Definition search_key (state : search_state) : Z * string :=
  let raw := find state in
  let is_regex := negb (bool_decide (mode state = mode_normal)) in
  let raw := if negb is_regex then escape regex raw else raw in
  let flags := REGEX_FLAGS in
  let flags :=
    if negb (case_sensitive state) then Z.lor flags (IGNORECASE regex)
    else flags in
  let flags :=
    if is_regex && dot_all state then Z.lor flags (DOTALL regex) else flags in
  let flags :=
    if bool_decide (direction state = dir_up) then Z.lor flags (REVERSE regex)
    else flags in
  (flags, raw).

(** [regex.compile(raw, flags=flags)]: a new pattern object, or
    [regex.error]. *)
Definition regex_compile (raw : string) (flags : Z) (w : world)
  : result compiled * world :=
  match compile_error regex raw flags with
  | Some msg => (Raise (InvalidRegex raw msg), w)
  | None =>
      let p := {| pat_id := compile_calls w; pat_flags := flags;
                  pat_text := raw |} in
      (Ok p, with_cache (regex_cache w) (S (compile_calls w)) w)
  end.

Definition get_search_regex (state : search_state) (w : world)
  : result compiled * world :=
  let '(flags, raw) := search_key state in
  match regex_cache w !! (flags, raw) with
  | Some ans => (Ok ans, w)
  | None =>
      match regex_compile raw flags w with
      | (Ok ans, w') =>
          (Ok ans,
           with_cache (<[(flags, raw) := ans]> (regex_cache w'))
             (compile_calls w') w')
      | (Raise e, w') => (Raise e, w')
      end
  end.

Definition get_search_function (search : search_state) : result replacement :=
  let ans := replace search in
  if bool_decide (mode search = mode_function) then
    if bool_decide (ans ∈ replace_functions) then Ok (Callable ans)
    else Raise (NoSuchFunction ans)
  else Ok (Template ans).

(** [[(get_search_regex(search), get_search_function(search))
      for search in searches]] *)
Fixpoint compile_searches (searches : list search_state) (w : world)
  : result (list (compiled * replacement)) * world :=
  match searches with
  | [] => (Ok [], w)
  | search :: rest =>
      match get_search_regex search w with
      | (Raise e, w1) => (Raise e, w1)
      | (Ok p, w1) =>
          match get_search_function search with
          | Raise e => (Raise e, w1)
          | Ok repl =>
              match compile_searches rest w1 with
              | (Raise e, w2) => (Raise e, w2)
              | (Ok ps, w2) => (Ok ((p, repl) :: ps), w2)
              end
          end
      end
  end.

(** *** The replace-all and count paths of [run_search] *)

(** The local variables of [do_all] that its loops update. [visited] is a
    ghost variable: the (pattern, document) pairs in the order the main
    loop reaches them. *)
Record loop_state : Type := {
  count : nat;
  updates : gset string;
  raw_data : gmap string string;
  visited : list (compiled * string)
}.

(** [lfiles = files or {current_editor_name: editor.syntax}] *)
Definition do_all_lfiles (rq : search_request) (current_editor_name : string)
    (w : world) : result OrderedDict.t :=
  if OrderedDict.nonempty (rq_files rq) then Ok (rq_files rq)
  else
    match rq_editor rq with
    | Some ed => Ok [(current_editor_name, syntax (heap w !!! ed))]
    | None => Raise (AttributeError "syntax")
    end.

(** The first loop of [do_all]: the raw text of every candidate, from its
    editor when it is open and from the container otherwise. *)
Fixpoint read_raw_data (names : list string) (raw_data : gmap string string)
    (w : world) : result (gmap string string) :=
  match names with
  | [] => Ok raw_data
  | n :: rest =>
      raw ← match editors w !! n with
            | Some ed => Ok (get_raw_data (heap w !!! ed))
            | None => raw_data_of n w
            end;
      read_raw_data rest (<[n := raw]> raw_data) w
  end.

(** The body of the inner loop of [do_all], for pattern [p] and file [n]. *)
Definition do_all_file (replace : bool) (p : compiled) (repl : replacement)
    (n : string) (st : loop_state) : result loop_state :=
  match raw_data st !! n with
  | None => Raise (KeyError n)
  | Some raw =>
      if replace then
        let '(raw', num) := subn regex p repl n raw in
        let st :=
          if bool_decide (0 < num) then
            {| count := count st; updates := {[n]} ∪ updates st;
               raw_data := <[n := raw']> (raw_data st);
               visited := visited st |}
          else st in
        Ok {| count := count st + num; updates := updates st;
              raw_data := raw_data st; visited := visited st ++ [(p, n)] |}
      else
        let num := length (findall regex p raw) in
        Ok {| count := count st + num; updates := updates st;
              raw_data := raw_data st; visited := visited st ++ [(p, n)] |}
  end.

(** [for n, syntax in lfiles.iteritems(): ...] *)
Fixpoint do_all_files (replace : bool) (p : compiled) (repl : replacement)
    (names : list string) (st : loop_state) : result loop_state :=
  match names with
  | [] => Ok st
  | n :: rest =>
      st' ← do_all_file replace p repl n st;
      do_all_files replace p repl rest st'
  end.

(** [for p, repl in searches: ...]. The call [repl.init_env()] resets the
    private state of a replace function; replace functions are taken to be
    pure in the match and the context name, which [subn] receives. *)
Fixpoint do_all_searches (replace : bool)
    (searches : list (compiled * replacement)) (names : list string)
    (st : loop_state) : result loop_state :=
  match searches with
  | [] => Ok st
  | (p, repl) :: rest =>
      st' ← do_all_files replace p repl names st;
      do_all_searches replace rest names st'
  end.

(** The body of the last loop of [do_all]: write the text of [n] back, to
    its editor when it is open and to the container otherwise. *)
Definition write_update (raw_data : gmap string string) (n : string)
    (w : world) : result unit * world :=
  match raw_data !! n with
  | None => (Raise (KeyError n), w)
  | Some raw =>
      match editors w !! n with
      | Some ed =>
          (Ok (), with_heap (<[ed := replace_data raw (heap w !!! ed)]> (heap w)) w)
      | None => (Ok (), with_container (<[n := raw]> (container w)) w)
      end
  end.

(** [for n in updates: ...] *)
Fixpoint write_updates (raw_data : gmap string string) (names : list string)
    (w : world) : result unit * world :=
  match names with
  | [] => (Ok (), w)
  | n :: rest =>
      match write_update raw_data n w with
      | (Ok _, w') => write_updates raw_data rest w'
      | (Raise e, w') => (Raise e, w')
      end
  end.

Definition action_label (replace : bool) : string :=
  if replace then "Replaced" else "Found".

(** The result of [do_all], together with the final values of its local
    variables. *)
Definition do_all_full (rq : search_request) (current_editor_name errfind : string)
    (searches : list (compiled * replacement)) (replace : bool) (w : world)
  : result (nat * loop_state) * world :=
  let st0 := {| count := 0; updates := ∅; raw_data := ∅; visited := [] |} in
  if early_return rq then (Ok (0, st0), w)
  else
    match do_all_lfiles rq current_editor_name w with
    | Raise e => (Raise e, w)
    | Ok lfiles =>
        let names := OrderedDict.keys lfiles in
        match read_raw_data names ∅ w with
        | Raise e => (Raise e, w)
        | Ok raw0 =>
            match do_all_searches replace searches names
                    {| count := 0; updates := ∅; raw_data := raw0;
                       visited := [] |} with
            | Raise e => (Raise e, w)
            | Ok st =>
                match write_updates (raw_data st) (elements (updates st)) w with
                | (Raise e, w') => (Raise e, w')
                | (Ok _, w') =>
                    (Ok (count st, st),
                     emit (count_message (action_label replace) (count st)
                             errfind replace) w')
                end
            end
        end
    end.

Definition do_all (rq : search_request) (current_editor_name errfind : string)
    (searches : list (compiled * replacement)) (replace : bool) (w : world)
  : result nat * world :=
  match do_all_full rq current_editor_name errfind searches replace w with
  | (Ok (n, _), w') => (Ok n, w')
  | (Raise e, w') => (Raise e, w')
  end.

(** [sum(editor.all_in_marked(p, repl) for p, repl in searches)], and the
    same without [repl] when counting. *)
Fixpoint sum_all_in_marked (with_repl : bool) (editor : option editor_ref)
    (searches : list (compiled * replacement)) (w : world)
  : result nat * world :=
  match searches with
  | [] => (Ok 0, w)
  | (p, repl) :: rest =>
      match editor with
      | None => (Raise (AttributeError "all_in_marked"), w)
      | Some ed =>
          let '(obj, num) :=
            all_in_marked p (if with_repl then Some repl else None)
              (heap w !!! ed) in
          match sum_all_in_marked with_repl editor rest
                  (with_heap (<[ed := obj]> (heap w)) w) with
          | (Ok total, w') => (Ok (num + total), w')
          | (Raise e, w') => (Raise e, w')
          end
      end
  end.

(** The local functions [do_find] and [do_replace] drive the cursor of the
    editor widgets; they are taken as given. *)
Variable do_find :
  search_request -> bool -> string -> list (compiled * replacement) ->
  world -> result retval * world.
Variable do_replace :
  search_request -> string -> list (compiled * replacement) ->
  world -> result bool * world.

Definition run_search (searches : list search_state) (action : action_t)
    (current_editor : option editor_ref) (current_editor_name : string)
    (searchable_names : where_t -> OrderedDict.t) (w : world)
  : result retval * world :=
  match run_search_scope searches action current_editor current_editor_name
          searchable_names with
  | Raise e => (Raise e, w)
  | Ok (rq, wrap) =>
          let errfind :=
            if bool_decide (1 < length searches) then "the selected searches"
            else match searches with search0 :: _ => find search0 | [] => "" end in
          match compile_searches searches w with
          | (Raise (InvalidRegex raw msg), w1) =>
              (Ok RDialog, emit (error_dialog "Invalid regex" raw) w1)
          | (Raise (NoSuchFunction name), w1) =>
              (Ok RDialog, emit (error_dialog "No such function" name) w1)
          | (Raise e, w1) => (Raise e, w1)
          | (Ok searches, w1) =>
              match action with
              | act_find => do_find rq wrap errfind searches w1
              | act_replace =>
                  match do_replace rq current_editor_name searches w1 with
                  | (Ok b, w2) => (Ok (RBool b), w2)
                  | (Raise e, w2) => (Raise e, w2)
                  end
              | act_replace_find =>
                  match do_replace rq current_editor_name searches w1 with
                  | (Ok true, w2) => do_find rq wrap errfind searches w2
                  | (Ok false, w2) => (Ok RNone, w2)
                  | (Raise e, w2) => (Raise e, w2)
                  end
              | act_replace_all =>
                  if rq_marked rq then
                    match sum_all_in_marked true (rq_editor rq) searches w1 with
                    | (Ok total, w2) =>
                        (Ok RNone,
                         emit (count_message "Replaced" total errfind false) w2)
                    | (Raise e, w2) => (Raise e, w2)
                    end
                  else
                    let w2 := emit (add_savepoint "Before: Replace all") w1 in
                    match do_all rq current_editor_name errfind searches true w2 with
                    | (Ok count, w3) =>
                        if bool_decide (count = 0) then
                          (Ok RNone, emit rewind_savepoint w3)
                        else (Ok RNone, emit set_modified w3)
                    | (Raise e, w3) => (Raise e, w3)
                    end
              | act_count =>
                  if rq_marked rq then
                    match sum_all_in_marked false (rq_editor rq) searches w1 with
                    | (Ok total, w2) =>
                        (Ok RNone,
                         emit (count_message "Found" total errfind false) w2)
                    | (Raise e, w2) => (Raise e, w2)
                    end
                  else
                    match do_all rq current_editor_name errfind searches false w1 with
                    | (Ok count, w2) => (Ok (RInt count), w2)
                    | (Raise e, w2) => (Raise e, w2)
                    end
              end
          end
  end.

(** Any number of further requests to the compiler. *)
Fixpoint lookups (states : list search_state) (w : world) : world :=
  match states with
  | [] => w
  | state :: rest => lookups rest (snd (get_search_regex state w))
  end.

(** The text that one substitution pass leaves for a document in the
    working set, and the passes of a list of searches over one document:
    the final text and the number of occurrences. *)
Definition pass_text (p : compiled) (repl : replacement) (n raw : string)
  : string :=
  let '(raw', num) := subn regex p repl n raw in
  if bool_decide (0 < num) then raw' else raw.

Fixpoint doc_passes (searches : list (compiled * replacement))
    (n raw : string) : string * nat :=
  match searches with
  | [] => (raw, 0)
  | (p, repl) :: rest =>
      let '(final, total) := doc_passes rest n (pass_text p repl n raw) in
      (final, snd (subn regex p repl n raw) + total)
  end.

(** The matches of a list of searches in one text. *)
Fixpoint doc_matches (searches : list (compiled * replacement))
    (raw : string) : nat :=
  match searches with
  | [] => 0
  | (p, _) :: rest => length (findall regex p raw) + doc_matches rest raw
  end.

(** The calls of [all_in_marked] for a list of searches on one editor
    object: the total and the object afterwards. *)
Fixpoint marked_passes (with_repl : bool)
    (searches : list (compiled * replacement)) (obj : editor_obj)
  : nat * editor_obj :=
  match searches with
  | [] => (0, obj)
  | (p, repl) :: rest =>
      let '(obj', num) :=
        all_in_marked p (if with_repl then Some repl else None) obj in
      let '(total, final) := marked_passes with_repl rest obj' in
      (num + total, final)
  end.

End Search.

(** ** A small instance to run the model on

    The flag values are those of the [regex] package. The engine is a literal
    one: a pattern matches its own text, [escape] has nothing to escape, and
    the only text that fails to compile is a lone opening parenthesis. *)

Module Demo.

(** [raw] with every non-overlapping occurrence of [pat] replaced by
    [repl], and their number; [skip] characters of a match are still to be
    dropped. *)
Fixpoint subn_from (pat repl : string) (skip : nat) (raw : string)
  : string * nat :=
  match raw with
  | EmptyString => (EmptyString, 0)
  | String c rest =>
      match skip with
      | S k => subn_from pat repl k rest
      | O =>
          if String.prefix pat raw then
            let '(out, n) := subn_from pat repl (String.length pat - 1) rest in
            (String.append repl out, S n)
          else
            let '(out, n) := subn_from pat repl 0 rest in
            (String c out, n)
      end
  end.

Definition repl_text (repl : replacement) (context_name : string) : string :=
  match repl with
  | Template s => s
  | Callable name => String.append name context_name
  end.

Definition engine : regex_module :=
  {| VERSION1 := 0x100; WORD := 0x800; FULLCASE := 0x4000;
     MULTILINE := 0x8; UNICODE := 0x20;
     IGNORECASE := 0x2; DOTALL := 0x10; REVERSE := 0x400;
     escape := fun raw => raw;
     compile_error := fun raw _ =>
       if String.eqb raw "(" then Some "missing )" else None;
     subn := fun p repl n raw =>
       subn_from (pat_text p) (repl_text repl n) 0 raw;
     findall := fun p raw =>
       replicate (snd (subn_from (pat_text p) "" 0 raw)) (pat_text p) |}.

Definition functions : gset string := {[ "upper" ]}.

(** In marked text: the whole buffer counts as marked. *)
Definition all_in_marked (p : compiled) (template : option replacement)
    (ed : editor_obj) : editor_obj * nat :=
  match template with
  | None => (ed, snd (subn_from (pat_text p) "" 0 (get_raw_data ed)))
  | Some repl =>
      let '(raw, n) := subn_from (pat_text p) (repl_text repl "") 0
                         (get_raw_data ed) in
      (replace_data raw ed, n)
  end.

Definition no_find (_ : search_request) (_ : bool) (_ : string)
    (_ : list (compiled * replacement)) (w : world) : result retval * world :=
  (Ok RDialog, w).

Definition no_replace (_ : search_request) (_ : string)
    (_ : list (compiled * replacement)) (w : world) : result bool * world :=
  (Ok false, w).

Definition group : OrderedDict.t :=
  [("a.html", "html"); ("b.html", "html"); ("c.html", "html");
   ("d.html", "html")].

Definition names (_ : where_t) : OrderedDict.t := group.

Definition state (d : direction_t) (w : bool) : search_state :=
  {| find := "foo"; replace := "baz"; mode := mode_normal;
     case_sensitive := true; dot_all := false; direction := d; wrap := w;
     where_ := where_text |}.

(** [a.html] is open in an editor; the other files are in the container. *)
Definition w0 : world :=
  {| regex_cache := ∅; compile_calls := 0;
     heap := {[ 7 := {| syntax := "html"; get_raw_data := "foo bar" |} ]};
     editors := {[ "a.html" := 7 ]};
     container := {[ "a.html" := "stale"; "b.html" := "bar foo";
                     "c.html" := "bar"; "d.html" := "foofoo" ]};
     events := [] |}.

Definition run (searches : list search_state) (action : action_t) (w : world)
  : result retval * world :=
  run_search engine functions all_in_marked no_find no_replace
    searches action (Some 7) "a.html" names w.

End Demo.

(** ** Further functions of the module *)

(** The identities of the cached pattern objects: each was handed out by an
    earlier compilation, and no two keys hold the same object. *)
Definition cache_ids_wf (w : world) : Prop :=
  (forall k p, regex_cache w !! k = Some p -> pat_id p < compile_calls w) /\
  (forall k1 k2 p1 p2,
     regex_cache w !! k1 = Some p1 -> regex_cache w !! k2 = Some p2 ->
     pat_id p1 = pat_id p2 -> k1 = k2).

(** [validate_search_request(name, searchable_names, has_marked_text, state,
    gui_parent)]: the message it settles on, if any. The message about
    marked text is cut to its first sentence. *)
Definition validation_error (name : option string)
    (searchable_names : where_t -> OrderedDict.t) (has_marked_text : bool)
    (state : search_state) : option string :=
  let where' := where_ state in
  let err :=
    if bool_decide (name = None)
       && bool_decide (where' = where_current \/ where' = where_selected_text)
    then Some "No file is being edited."
    else if bool_decide (where' = where_selected)
            && negb (OrderedDict.nonempty (searchable_names where_selected))
    then Some "No files are selected in the Files Browser"
    else if bool_decide (where' = where_selected_text) && negb has_marked_text
    then Some "No text is marked."
    else None in
  match err with
  | Some e => Some e
  | None =>
      if bool_decide (find state = "") then Some "No search query specified"
      else None
  end.

Definition validate_search_request (name : option string)
    (searchable_names : where_t -> OrderedDict.t) (has_marked_text : bool)
    (state : search_state) (w : world) : bool * world :=
  match validation_error name searchable_names has_marked_text state with
  | Some err => (false, emit (error_dialog "Cannot search" err) w)
  | None => (true, w)
  end.

(** ** Find and replace in the editors *)

(** [do_find] and [do_replace] drive the editor widgets and two callbacks of
    the host. The calls they make, in order; [found] and [replaced] are what
    the call returned. A ghost record. *)
Inductive gui_call : Type :=
  | call_find (ed : editor_ref) (p : compiled) (wrap marked complete : bool)
      (found : bool)
  | call_init_env (repl : replacement) (name : string)
  | call_replace (ed : editor_ref) (p : compiled) (repl : replacement)
      (replaced : bool)
  | call_show_editor (name : string)
  | call_edit_file (name syntax : string).

Definition find_succeeded (c : gui_call) : bool :=
  match c with
  | call_find _ _ _ _ _ found => found
  | _ => false
  end.

Module Gui.

(** What is outside this module: the state of the widgets (cursors,
    selections, the match saved under ['gui'], the open tabs), what an editor
    does in [find] and [replace], [p.search(raw) is not None], and the
    callbacks [show_editor] and [edit_file]. [editor_find] reads the editor
    and moves in it; [editor_replace] also gives the editor its new content,
    and is given the name [repl.init_env] was called with. *)
Record host (widgets : Type) : Type := {
  editor_find :
    compiled -> bool -> bool -> bool -> editor_ref -> editor_obj -> widgets ->
    widgets * bool;
  editor_replace :
    compiled -> replacement -> string -> editor_ref -> editor_obj -> widgets ->
    editor_obj * widgets * bool;
  pattern_search : compiled -> string -> bool;
  show_editor : string -> widgets -> widgets;
  edit_file : string -> string -> world -> widgets -> world * widgets
}.

Arguments editor_find {widgets}.
Arguments editor_replace {widgets}.
Arguments pattern_search {widgets}.
Arguments show_editor {widgets}.
Arguments edit_file {widgets}.

Record gui (widgets : Type) : Type := {
  g_world : world;
  g_widgets : widgets;
  g_calls : list gui_call
}.

Arguments g_world {widgets}.
Arguments g_widgets {widgets}.
Arguments g_calls {widgets}.

Section Closures.

Context {widgets : Type}.
Variable h : host widgets.

Definition with_world (w : world) (g : gui widgets) : gui widgets :=
  {| g_world := w; g_widgets := g_widgets g; g_calls := g_calls g |}.

Definition called (c : gui_call) (ws : widgets) (g : gui widgets)
  : gui widgets :=
  {| g_world := g_world g; g_widgets := ws; g_calls := g_calls g ++ [c] |}.

(** [ed.find(p, wrap=wrap, marked=marked, complete=complete,
    save_match='gui')] *)
Definition find_in (ed : editor_ref) (p : compiled)
    (wrap marked complete : bool) (g : gui widgets) : bool * gui widgets :=
  let '(ws, found) :=
    editor_find h p wrap marked complete ed (heap (g_world g) !!! ed)
      (g_widgets g) in
  (found, called (call_find ed p wrap marked complete found) ws g).

(** [no_match()]; the hint about wrapping is cut to its first sentence. *)
Definition no_match (errfind : string) (wrap : bool) (g : gui widgets)
  : gui widgets :=
  let msg := String.append "No matches were found for " errfind in
  let msg :=
    if negb wrap then
      String.append msg
        " You have turned off search wrapping, so all text might not have been searched."
    else msg in
  with_world (emit (error_dialog "Not found" msg) (g_world g)) g.

(** [for fname, syntax in files.iteritems(): ...] in [do_find]; [Ok true]
    stands for [return True], [Ok false] for the end of the loop. *)
Fixpoint find_in_files (editor : option editor_ref) (wrap : bool)
    (p : compiled) (files : list (string * string)) (g : gui widgets)
  : result bool * gui widgets :=
  match files with
  | [] => (Ok false, g)
  | (fname, syntax) :: rest =>
      match editors (g_world g) !! fname with
      | Some ed =>
          if negb wrap && bool_decide (Some ed = editor) then
            find_in_files editor wrap p rest g
          else
            let '(found, g1) := find_in ed p false false true g in
            if found then
              (Ok true,
               called (call_show_editor fname)
                 (show_editor h fname (g_widgets g1)) g1)
            else find_in_files editor wrap p rest g1
      | None =>
          match raw_data_of fname (g_world g) with
          | Raise e => (Raise e, g)
          | Ok raw =>
              if pattern_search h p raw then
                let '(w1, ws1) :=
                  edit_file h fname syntax (g_world g) (g_widgets g) in
                let g1 := with_world w1 (called (call_edit_file fname syntax) ws1 g) in
                match editors w1 !! fname with
                | None => (Raise (KeyError fname), g1)
                | Some ed =>
                    let '(found, g2) := find_in ed p false false true g1 in
                    if found then (Ok true, g2)
                    else find_in_files editor wrap p rest g2
                end
              else find_in_files editor wrap p rest g
          end
      end
  end.

(** [for p, __ in searches: ...] in [do_find] *)
Fixpoint find_searches (rq : search_request) (wrap : bool)
    (searches : list (compiled * replacement)) (g : gui widgets)
  : result bool * gui widgets :=
  match searches with
  | [] => (Ok false, g)
  | (p, _) :: rest =>
      let '(found, g1) :=
        match rq_editor rq with
        | None => (false, g)
        | Some ed =>
            let '(found, g1) := find_in ed p false (rq_marked rq) false g in
            if found then (true, g1)
            else if wrap && negb (OrderedDict.nonempty (rq_files rq)) then
              find_in ed p true (rq_marked rq) false g1
            else (false, g1)
        end in
      if found then (Ok true, g1)
      else
        match find_in_files (rq_editor rq) wrap p (rq_files rq) g1 with
        | (Ok true, g2) => (Ok true, g2)
        | (Ok false, g2) => find_searches rq wrap rest g2
        | (Raise e, g2) => (Raise e, g2)
        end
  end.

Definition do_find (rq : search_request) (wrap : bool) (errfind : string)
    (searches : list (compiled * replacement)) (g : gui widgets)
  : result retval * gui widgets :=
  match find_searches rq wrap searches g with
  | (Ok true, g') => (Ok (RBool true), g')
  | (Ok false, g') => (Ok RDialog, no_match errfind wrap g')
  | (Raise e, g') => (Raise e, g')
  end.

(** [no_replace(prefix)] *)
Definition no_replace (prefix : string) (g : gui widgets) : gui widgets :=
  let prefix :=
    if bool_decide (prefix = "") then prefix else String.append prefix " " in
  with_world
    (emit (error_dialog "Cannot replace"
             (String.append prefix
                "You must first click Find, before trying to replace"))
       (g_world g)) g.

(** [for p, repl in searches: ...] in [do_replace] *)
Fixpoint replace_searches (ed : editor_ref) (current_editor_name : string)
    (searches : list (compiled * replacement)) (g : gui widgets)
  : bool * gui widgets :=
  match searches with
  | [] => (false, g)
  | (p, repl) :: rest =>
      let g :=
        match repl with
        | Callable _ =>
            called (call_init_env repl current_editor_name) (g_widgets g) g
        | Template _ => g
        end in
      let '(obj, ws, replaced) :=
        editor_replace h p repl current_editor_name ed
          (heap (g_world g) !!! ed) (g_widgets g) in
      let g :=
        with_world (with_heap (<[ed := obj]> (heap (g_world g))) (g_world g))
          (called (call_replace ed p repl replaced) ws g) in
      if replaced then (true, g)
      else replace_searches ed current_editor_name rest g
  end.

Definition do_replace (rq : search_request) (current_editor_name : string)
    (searches : list (compiled * replacement)) (g : gui widgets)
  : bool * gui widgets :=
  match rq_editor rq with
  | None => (false, no_replace "" g)
  | Some ed =>
      match replace_searches ed current_editor_name searches g with
      | (true, g') => (true, g')
      | (false, g') =>
          (false,
           no_replace "Currently selected text does not match the search query."
             g')
      end
  end.

(** [if action == 'replace-find' and do_replace(): return do_find()]; when
    [do_replace()] is false no later test of the action holds and
    [run_search] returns [None]. *)
Definition replace_find (rq : search_request) (wrap : bool)
    (errfind current_editor_name : string)
    (searches : list (compiled * replacement)) (g : gui widgets)
  : result retval * gui widgets :=
  let '(replaced, g1) := do_replace rq current_editor_name searches g in
  if replaced then do_find rq wrap errfind searches g1 else (Ok RNone, g1).

End Closures.

End Gui.

(** The calls of one turn of the loop of [do_replace] on editor [ed]. *)
Definition replace_attempt (ed : editor_ref) (current_editor_name : string)
    (replaced : bool) (s : compiled * replacement) : list gui_call :=
  match s.2 with
  | Callable _ => [call_init_env s.2 current_editor_name]
  | Template _ => []
  end ++ [call_replace ed s.1 s.2 replaced].

(** A call after which [do_find] goes on: not a find that matched, not
    [show_editor]. *)
Definition quiet (c : gui_call) : bool :=
  match c with
  | call_find _ _ _ _ _ found => negb found
  | call_show_editor _ => false
  | _ => true
  end.

(** The shape of the calls of [do_find]: calls after which it goes on and,
    when it returns [True], the find that matched, with [show_editor] after
    it when the match is in another editor that was open. *)
Definition find_trace (found : bool) (tried : list gui_call) : Prop :=
  exists failed last,
    tried = failed ++ last /\ Forall (fun c => quiet c = true) failed /\
    if found then
      (exists ed p w m c, last = [call_find ed p w m c true]) \/
      (exists ed p n,
         last = [call_find ed p false false true true; call_show_editor n])
    else last = [].

(** What [do_find] may call, for the request [rq], [wrap] and the compiled
    patterns: the editor of the request without [complete], with the
    request's [marked], and with [wrap] only when wrapping is on and the
    request has no files; the editors of the files with [complete] alone;
    the two callbacks on files of the request. *)
Definition find_call_ok (rq : search_request) (wrap : bool)
    (patterns : list compiled) (c : gui_call) : Prop :=
  match c with
  | call_find ed p w m complete _ =>
      p ∈ patterns /\
      if complete then w = false /\ m = false /\ rq_files rq <> []
      else
        rq_editor rq = Some ed /\ m = rq_marked rq /\
        (w = true -> wrap = true /\ rq_files rq = [])
  | call_edit_file n s => (n, s) ∈ rq_files rq
  | call_show_editor n => n ∈ OrderedDict.keys (rq_files rq)
  | call_init_env _ _ | call_replace _ _ _ _ => False
  end.

(** The files [edit_file] was called for. *)
Definition opened_files (calls : list gui_call) : list string :=
  flat_map (fun c => match c with call_edit_file n _ => [n] | _ => [] end)
    calls.

(** A host for the examples: [find] matches when the literal text of the
    pattern occurs in the editor, wherever the cursor is; [replace] replaces
    every occurrence; [edit_file] opens a file of the container that is not
    open yet in a new editor holding the file's text. The widgets' state is
    the list of the tabs brought to the front, latest first. *)
Module GuiDemo.

Definition widgets : Type := list string.

Definition occurs (p : compiled) (raw : string) : bool :=
  bool_decide (0 < snd (Demo.subn_from (pat_text p) "" 0 raw)).

Definition edit_file (n syn : string) (w : world) (ws : widgets)
  : world * widgets :=
  match editors w !! n, container w !! n with
  | None, Some raw =>
      let ed : editor_ref :=
        fresh (dom (heap w) ∪ (map_img (editors w) : gset editor_ref)) in
      ({| regex_cache := regex_cache w; compile_calls := compile_calls w;
          heap := <[ed := {| syntax := syn; get_raw_data := raw |}]> (heap w);
          editors := <[n := ed]> (editors w); container := container w;
          events := events w |},
       n :: ws)
  | _, _ => (w, ws)
  end.

Definition host : Gui.host widgets :=
  {| Gui.editor_find := fun p _ _ _ _ obj ws =>
       (ws, occurs p (get_raw_data obj));
     Gui.editor_replace := fun p repl name _ obj ws =>
       let '(raw, n) :=
         Demo.subn_from (pat_text p) (Demo.repl_text repl name) 0
           (get_raw_data obj) in
       (replace_data raw obj, ws, bool_decide (0 < n));
     Gui.pattern_search := occurs;
     Gui.show_editor := fun n ws => n :: ws;
     Gui.edit_file := edit_file |}.

Definition g0 : Gui.gui widgets :=
  {| Gui.g_world := Demo.w0; Gui.g_widgets := []; Gui.g_calls := [] |}.

Definition pat (text : string) : compiled :=
  {| pat_id := 0; pat_flags := 18728; pat_text := text |}.

(** A search down from [a.html] through the other files of the group. *)
Definition rq : search_request :=
  {| rq_editor := Some 7; rq_where := where_text;
     rq_files := [("b.html", "html"); ("c.html", "html"); ("d.html", "html")];
     rq_do_all := false; rq_marked := false |}.

End GuiDemo.

(** ** The model of the saved searches *)

From Stdlib Require Import Sorted.
From stdpp Require sorting.

Module SearchesModel.

(** [l[i]] on a Python list: an index below zero counts from the end. *)
Definition position {A : Type} (l : list A) (i : Z) : result nat :=
  let n := Z.of_nat (length l) in
  if bool_decide (0 <= i < n)%Z then Ok (Z.to_nat i)
  else if bool_decide (- n <= i < 0)%Z then Ok (Z.to_nat (n + i))
  else Raise IndexError.

Definition getitem {A : Type} (l : list A) (i : Z) : result A :=
  k ← position l i;
  match l !! k with
  | Some x => Ok x
  | None => Raise IndexError
  end.

Definition setitem {A : Type} (l : list A) (i : Z) (x : A) : result (list A) :=
  k ← position l i; Ok (<[k := x]> l).

Definition delitem {A : Type} (l : list A) (i : Z) : result (list A) :=
  k ← position l i; Ok (delete k l).

(** [xrange(start, stop, -1)] *)
Definition xrange_down (start stop : Z) : list Z :=
  (fun k => (start - Z.of_nat k)%Z) <$> seq 0 (Z.to_nat (start - stop)).

(** [sorted(l, reverse=True)] and [sorted(set(l), reverse=True)] *)
Definition sorted_reverse (l : list Z) : list Z :=
  reverse (sorting.merge_sort Z.le l).

Definition sorted_set_reverse (l : list Z) : list Z :=
  sorted_reverse (remove_dups l).

(** [[l[i] for i in rows]] *)
Fixpoint getitems {A : Type} (l : list A) (rows : list Z) : result (list A) :=
  match rows with
  | [] => Ok []
  | i :: rest => x ← getitem l i; xs ← getitems l rest; Ok (x :: xs)
  end.

(** [for i in rows: del l[i]] *)
Fixpoint delitems {A : Type} (rows : list Z) (l : list A) : result (list A) :=
  match rows with
  | [] => Ok l
  | i :: rest => l ← delitem l i; delitems rest l
  end.

Section Model.

(** A saved search is a dict that has a name; [primary_contains] is
    calibre's ICU substring test. *)
Variable search : Type.
Variable name : search -> string.
Variable primary_contains : string -> string -> bool.

(** The two lists of a [SearchesModel]: the saved searches, and for each row
    shown the index of its search. The signals of the Qt model and the write
    to [tprefs] are left out; when a method raises, the lists it leaves
    behind are not given. *)
Record t : Type := {
  searches : list search;
  filtered_searches : list Z
}.

(** [__init__], with [saved] for [tprefs['saved_searches']] *)
Definition init (saved : list search) : t :=
  {| searches := saved;
     filtered_searches := Z.of_nat <$> seq 0 (length saved) |}.

Definition rowCount (m : t) : nat := length (filtered_searches m).

(** [data(index, Qt.UserRole)] for [index.row() = row]; [IndexError] is
    caught and gives [None]. *)
Definition data (row : Z) (m : t) : option (Z * search) :=
  match
    i ← getitem (filtered_searches m) row;
    s ← getitem (searches m) i;
    Ok (i, s)
  with
  | Ok x => Some x
  | Raise _ => None
  end.

(** [for i, search in enumerate(self.searches): ...] from index [i] on *)
Fixpoint do_filter_from (text : string) (i : nat) (l : list search)
    (filtered : list Z) : list Z :=
  match l with
  | [] => filtered
  | s :: rest =>
      do_filter_from text (S i) rest
        (if primary_contains text (name s) then filtered ++ [Z.of_nat i]
         else filtered)
  end.

Definition do_filter (text : string) (m : t) : t :=
  {| searches := searches m;
     filtered_searches := do_filter_from text 0 (searches m) [] |}.

Definition move_entry (row delta : Z) (m : t) : result t :=
  let a := row in
  let b := (row + delta)%Z in
  if bool_decide (0 <= b < Z.of_nat (length (filtered_searches m)))%Z then
    ai ← getitem (filtered_searches m) a;
    bi ← getitem (filtered_searches m) b;
    x ← getitem (searches m) bi;
    y ← getitem (searches m) ai;
    l ← setitem (searches m) ai x;
    l ← setitem l bi y;
    Ok {| searches := l; filtered_searches := filtered_searches m |}
  else Ok m.

(** [add_searches(count)], with [saved] for [tprefs['saved_searches']] *)
Definition add_searches (saved : list search) (count : Z) (m : t) : t :=
  let n := Z.of_nat (length saved) in
  {| searches := saved;
     filtered_searches :=
       filtered_searches m ++ xrange_down (n - 1) (n - 1 - count) |}.

Definition remove_searches (rows : list Z) (m : t) : result t :=
  let rows := sorted_set_reverse rows in
  indices ← getitems (filtered_searches m) rows;
  filtered ← delitems rows (filtered_searches m);
  l ← delitems (sorted_reverse indices) (searches m);
  Ok {| searches := l; filtered_searches := filtered |}.

(** Every row refers to a saved search, and no two rows to the same one. *)
Definition wf (m : t) : Prop :=
  Forall (fun i => (0 <= i < Z.of_nat (length (searches m)))%Z)
    (filtered_searches m) /\
  NoDup (filtered_searches m).

End Model.

Arguments searches {search}.
Arguments filtered_searches {search}.
Arguments init {search}.
Arguments rowCount {search}.
Arguments data {search}.
Arguments do_filter_from {search}.
Arguments do_filter {search}.
Arguments move_entry {search}.
Arguments add_searches {search}.
Arguments remove_searches {search}.
Arguments wf {search}.

End SearchesModel.

(** ** The search panel *)

(** The values kept in a state dict: strings and booleans. *)
Inductive pyval : Type :=
  | PStr (s : string)
  | PBool (b : bool).

#[global] Instance pyval_eq_dec : EqDecision pyval.
Proof. solve_decision. Defined.

(** [bool(val)] *)
Definition truth (val : pyval) : bool :=
  match val with
  | PStr s => negb (bool_decide (s = ""))
  | PBool b => b
  end.

(** The key a failed dict lookup reports. *)
Definition key_repr (val : pyval) : string :=
  match val with
  | PStr s => s
  | PBool true => "True"
  | PBool false => "False"
  end.

(** [ModeBox.mode], on the current index of the box: what reading it gives,
    and the index that setting it selects. *)
Definition ModeBox_mode (idx : nat) : result string :=
  match ["normal"; "regex"; "function"] !! idx with
  | Some s => Ok s
  | None => Raise IndexError
  end.

Definition ModeBox_set_mode (val : pyval) : nat :=
  if bool_decide (val = PStr "regex") then 1
  else if bool_decide (val = PStr "function") then 2
  else 0.

Module SearchWidget.

(** What a [SearchWidget] holds: the current index of its three combo
    boxes, its three check boxes, and the text of the find box, the replace
    box and the function box. Which of the widgets are visible is left
    out. *)
Record t : Type := {
  mode_box : nat;
  where_box : nat;
  direction_box : nat;
  cs : bool;
  wr : bool;
  da : bool;
  find_text : string;
  replace_text : string;
  functions : string
}.

Definition DEFAULT_STATE : gmap string pyval :=
  {[ "mode" := PStr "normal"; "where" := PStr "current";
     "case_sensitive" := PBool false; "direction" := PStr "down";
     "wrap" := PBool true; "dot_all" := PBool false ]}.

(** [mode]; the setter also shows or hides [da], which is left out. *)
Definition get_mode (w : t) : result string := ModeBox_mode (mode_box w).

Definition set_mode (val : pyval) (w : t) : t :=
  {| mode_box := ModeBox_set_mode val; where_box := where_box w;
     direction_box := direction_box w; cs := cs w; wr := wr w; da := da w;
     find_text := find_text w; replace_text := replace_text w;
     functions := functions w |}.

(** [WhereBox.where] *)
Definition wm : list string :=
  ["current"; "text"; "styles"; "selected"; "selected-text"].

(** A current index that is not a key of [wm] is reported under the name
    of the method that gave it. *)
Definition get_where (w : t) : result string :=
  match wm !! where_box w with
  | Some s => Ok s
  | None => Raise (KeyError "currentIndex")
  end.

Definition set_where (val : pyval) (w : t) : result t :=
  match val with
  | PStr s =>
      match list_find (fun v => v = s) wm with
      | Some (k, _) =>
          Ok {| mode_box := mode_box w; where_box := k;
                direction_box := direction_box w; cs := cs w; wr := wr w;
                da := da w; find_text := find_text w;
                replace_text := replace_text w; functions := functions w |}
      | None => Raise (KeyError s)
      end
  | PBool _ => Raise (KeyError (key_repr val))
  end.

(** [DirectionBox.direction] *)
Definition get_direction (w : t) : string :=
  if bool_decide (direction_box w = 0) then "down" else "up".

Definition set_direction (val : pyval) (w : t) : t :=
  {| mode_box := mode_box w; where_box := where_box w;
     direction_box := if bool_decide (val = PStr "up") then 1 else 0;
     cs := cs w; wr := wr w; da := da w; find_text := find_text w;
     replace_text := replace_text w; functions := functions w |}.

(** [case_sensitive], [wrap] and [dot_all] *)
Definition set_case_sensitive (val : pyval) (w : t) : t :=
  {| mode_box := mode_box w; where_box := where_box w;
     direction_box := direction_box w; cs := truth val; wr := wr w;
     da := da w; find_text := find_text w; replace_text := replace_text w;
     functions := functions w |}.

Definition set_wrap (val : pyval) (w : t) : t :=
  {| mode_box := mode_box w; where_box := where_box w;
     direction_box := direction_box w; cs := cs w; wr := truth val;
     da := da w; find_text := find_text w; replace_text := replace_text w;
     functions := functions w |}.

Definition set_dot_all (val : pyval) (w : t) : t :=
  {| mode_box := mode_box w; where_box := where_box w;
     direction_box := direction_box w; cs := cs w; wr := wr w;
     da := truth val; find_text := find_text w;
     replace_text := replace_text w; functions := functions w |}.

(** [find] and [replace] *)
Definition get_find (w : t) : string := find_text w.

Definition set_find (val : string) (w : t) : t :=
  {| mode_box := mode_box w; where_box := where_box w;
     direction_box := direction_box w; cs := cs w; wr := wr w; da := da w;
     find_text := val; replace_text := replace_text w;
     functions := functions w |}.

Definition get_replace (w : t) : result string :=
  m ← get_mode w;
  if bool_decide (m = "function") then Ok (functions w)
  else Ok (replace_text w).

Definition set_replace (val : string) (w : t) : t :=
  {| mode_box := mode_box w; where_box := where_box w;
     direction_box := direction_box w; cs := cs w; wr := wr w; da := da w;
     find_text := find_text w; replace_text := val;
     functions := functions w |}.

(** The current index of each combo box is the index of one of its items. *)
Definition wf (w : t) : Prop :=
  mode_box w < 3 /\ where_box w < 5 /\ direction_box w < 2.

(** [state]: [{x: getattr(self, x) for x in self.DEFAULT_STATE}] *)
Definition get_state (w : t) : result (gmap string pyval) :=
  m ← get_mode w;
  wh ← get_where w;
  Ok ({[ "mode" := PStr m; "where" := PStr wh;
         "case_sensitive" := PBool (cs w);
         "direction" := PStr (get_direction w);
         "wrap" := PBool (wr w); "dot_all" := PBool (da w) ]}
      : gmap string pyval).

(** [for x in self.DEFAULT_STATE: if x in val: setattr(self, x, val[x])].
    Only the setter of [where] can raise, and the setters touch different
    widgets, so the order in which the dict gives its keys does not matter
    for the result; what has been set when [where] raises is not given. *)
Definition set_state (val : gmap string pyval) (w : t) : result t :=
  let w := match val !! "mode" with Some v => set_mode v w | None => w end in
  let w :=
    match val !! "case_sensitive" with
    | Some v => set_case_sensitive v w
    | None => w
    end in
  let w :=
    match val !! "direction" with
    | Some v => set_direction v w
    | None => w
    end in
  let w := match val !! "wrap" with Some v => set_wrap v w | None => w end in
  let w :=
    match val !! "dot_all" with Some v => set_dot_all v w | None => w end in
  match val !! "where" with
  | Some v => set_where v w
  | None => Ok w
  end.

(** [restore_state], with [stored] for what [tprefs] has under
    ['find-widget-state'] *)
Definition restore_state (stored : option (gmap string pyval)) (w : t)
  : result t :=
  w ← set_state (default DEFAULT_STATE stored) w;
  wh ← get_where w;
  if bool_decide (wh = "selected-text") then set_where (PStr "current") w
  else Ok w.

(** [pre_fill(text)]; the selection it makes in the find box is left out. *)
Definition pre_fill (regex : regex_module) (text : string) (w : t)
  : result t :=
  m ← get_mode w;
  let text :=
    if bool_decide (m = "regex" \/ m = "function") then escape regex text
    else text in
  Ok (set_find text w).

(** [SearchPanel.state]: the state of the widget with [find] and
    [replace]. *)
Definition panel_state (w : t) : result (gmap string pyval) :=
  ans ← get_state w;
  r ← get_replace w;
  Ok (<["replace" := PStr r]> (<["find" := PStr (get_find w)]> ans)).

End SearchWidget.

(** A state dict as [run_search] reads it: the values under its eight
    keys. *)
Definition mode_of (val : pyval) : option mode_t :=
  match val with
  | PStr "normal" => Some mode_normal
  | PStr "regex" => Some mode_regex
  | PStr "function" => Some mode_function
  | _ => None
  end.

Definition direction_of (val : pyval) : option direction_t :=
  match val with
  | PStr "up" => Some dir_up
  | PStr "down" => Some dir_down
  | _ => None
  end.

Definition where_of (val : pyval) : option where_t :=
  match val with
  | PStr "current" => Some where_current
  | PStr "text" => Some where_text
  | PStr "styles" => Some where_styles
  | PStr "selected" => Some where_selected
  | PStr "selected-text" => Some where_selected_text
  | _ => None
  end.

Definition str_of (val : pyval) : option string :=
  match val with
  | PStr s => Some s
  | PBool _ => None
  end.

Definition state_of_dict (d : gmap string pyval) : option search_state :=
  f ← d !! "find" ≫= str_of;
  r ← d !! "replace" ≫= str_of;
  m ← d !! "mode" ≫= mode_of;
  c ← d !! "case_sensitive";
  a ← d !! "dot_all";
  dir ← d !! "direction" ≫= direction_of;
  wr ← d !! "wrap";
  wh ← d !! "where" ≫= where_of;
  Some {| find := f; replace := r; mode := m; case_sensitive := truth c;
          dot_all := truth a; direction := dir; wrap := truth wr;
          where_ := wh |}.

(** A panel in regex mode, on marked text, searching down. *)
Definition demo_widget : SearchWidget.t :=
  {| SearchWidget.mode_box := 1; SearchWidget.where_box := 4;
     SearchWidget.direction_box := 0; SearchWidget.cs := false;
     SearchWidget.wr := true; SearchWidget.da := false;
     SearchWidget.find_text := "foo"; SearchWidget.replace_text := "baz";
     SearchWidget.functions := "upper" |}.

(** ** Editing a saved search *)

(** A saved search: a dict that may have these six keys, with values of the
    types the code gives them. Other keys are not followed. *)
Record saved_search : Type := {
  s_name : option string;
  s_find : option string;
  s_replace : option string;
  s_case_sensitive : option bool;
  s_dot_all : option bool;
  s_mode : option string
}.

Definition mode_name (m : mode_t) : string :=
  match m with
  | mode_normal => "normal"
  | mode_regex => "regex"
  | mode_function => "function"
  end.

(** [x['name']] *)
Definition name_of (x : saved_search) : result string :=
  match s_name x with
  | Some n => Ok n
  | None => Raise (KeyError "name")
  end.

(** [[x['name'] for x in searches]] *)
Fixpoint names_of (searches : list saved_search) : result (list string) :=
  match searches with
  | [] => Ok []
  | x :: rest => n ← name_of x; ns ← names_of rest; Ok (n :: ns)
  end.

Module EditSearch.

(** The search being edited with its place in the saved list, and the
    content of the widgets as it is read from them: the name, find and
    replace texts, the two check boxes and the current index of the mode
    box. *)
Record t : Type := {
  search : saved_search;
  original_name : option string;
  search_index : Z;
  search_name : string;
  find_edit : string;
  replace_edit : string;
  case_sensitive_box : bool;
  dot_all_box : bool;
  mode_box : nat
}.

(** [show_search(search, search_index, state)]; the title is left out.
    The widgets belong to Qt: [line_text s] is what [text()] gives after
    [setText(s)] on the name box, and [plain_text s] what [toPlainText()]
    gives after [setPlainText(s)] on the find and replace boxes, which turn
    every kind of line break into a line feed. *)
Definition show_search (line_text plain_text : string -> string)
    (search : option saved_search) (search_index : Z)
    (state : option search_state) : t :=
  let search :=
    default {| s_name := None; s_find := None; s_replace := None;
               s_case_sensitive := None; s_dot_all := None;
               s_mode := None |} search in
  let e :=
    {| search := search; original_name := s_name search;
       search_index := search_index;
       search_name := line_text (default "" (s_name search));
       find_edit := plain_text (default "" (s_find search));
       replace_edit := plain_text (default "" (s_replace search));
       case_sensitive_box := default false (s_case_sensitive search);
       dot_all_box := default false (s_dot_all search);
       mode_box :=
         ModeBox_set_mode (PStr (default "regex" (s_mode search))) |} in
  match state with
  | None => e
  | Some state =>
      {| search := search; original_name := s_name search;
         search_index := search_index; search_name := search_name e;
         find_edit := plain_text (find state);
         replace_edit := plain_text (replace state);
         case_sensitive_box := case_sensitive state;
         dot_all_box := dot_all state;
         mode_box := ModeBox_set_mode (PStr (mode_name (mode state))) |}
  end.

(** [current_search] *)
Definition current_search (e : t) : result saved_search :=
  m ← ModeBox_mode (mode_box e);
  Ok {| s_name := s_name (search e); s_find := Some (find_edit e);
        s_replace := Some (replace_edit e);
        s_case_sensitive := Some (case_sensitive_box e);
        s_dot_all := Some (dot_all_box e); s_mode := Some m |}.

Definition with_search (s : saved_search) (e : t) : t :=
  {| search := s; original_name := original_name e;
     search_index := search_index e; search_name := search_name e;
     find_edit := find_edit e; replace_edit := replace_edit e;
     case_sensitive_box := case_sensitive_box e; dot_all_box := dot_all_box e;
     mode_box := mode_box e |}.

(** What [save_changes] gives: what it returns, the list it hands to
    [tprefs.set] if it does, the editor (whose [search] it updates in
    place), and the dialogs it shows. *)
Record outcome : Type := {
  returned : bool;
  saved : option (list saved_search);
  editor : t;
  dialogs : list event
}.

(** [save_changes()], with [searches] for [tprefs['saved_searches']] and
    [strip] for the method of that name of the text of the name box. Whether
    the dict edited is the one in the list is not known here: when the
    method returns [False] after it has set the name, the list is not
    given. *)
Definition save_changes (strip : string -> string)
    (searches : list saved_search) (e : t) : result outcome :=
  names ← names_of searches;
  let all_names :=
    filter (fun n => Some n <> original_name e) names in
  let n := strip (search_name e) in
  if bool_decide (n = "") then
    Ok {| returned := false; saved := None; editor := e;
          dialogs := [error_dialog "Must specify name"
                        "You must specify a search name"] |}
  else if bool_decide (n ∈ all_names) then
    Ok {| returned := false; saved := None; editor := e;
          dialogs := [error_dialog "Name exists" n] |}
  else
    let search := search e in
    let search :=
      {| s_name := Some n; s_find := s_find search;
         s_replace := s_replace search;
         s_case_sensitive := s_case_sensitive search;
         s_dot_all := s_dot_all search; s_mode := s_mode search |} in
    let f := find_edit e in
    if bool_decide (f = "") then
      Ok {| returned := false; saved := None; editor := with_search search e;
            dialogs := [error_dialog "Must specify find"
                          "You must specify a find expression"] |}
    else
      m ← ModeBox_mode (mode_box e);
      let search :=
        {| s_name := Some n; s_find := Some f;
           s_replace := Some (replace_edit e);
           s_case_sensitive := Some (case_sensitive_box e);
           s_dot_all := Some (dot_all_box e); s_mode := Some m |} in
      searches ←
        (if bool_decide (search_index e = (-1)%Z) then Ok (searches ++ [search])
         else SearchesModel.setitem searches (search_index e) search);
      Ok {| returned := true; saved := Some searches;
            editor := with_search search e; dialogs := [] |}.

End EditSearch.

(** ** Replace-all when a substitution raises *)

Section SubstitutionErrors.

Variable regex : regex_module.
Variable replace_functions : gset string.
Variable all_in_marked :
  compiled -> option replacement -> editor_obj -> editor_obj * nat.
Variable do_find :
  search_request -> bool -> string -> list (compiled * replacement) ->
  world -> result retval * world.
Variable do_replace :
  search_request -> string -> list (compiled * replacement) ->
  world -> result bool * world.

(** [p.subn(repl, raw)] can raise: a replace function may raise anything,
    and a template may refer to a group the pattern does not have.
    [subn_error p repl n raw] is the exception of the call that [subn]
    describes, if it raises one. *)
Variable subn_error :
  compiled -> replacement -> string -> string -> option exn.

(** The body of the inner loop of [do_all], with the errors of [p.subn]. *)
Definition do_all_file_x (replace : bool) (p : compiled) (repl : replacement)
    (n : string) (st : loop_state) : result loop_state :=
  match raw_data st !! n with
  | None => Raise (KeyError n)
  | Some raw =>
      if replace then
        match subn_error p repl n raw with
        | Some e => Raise e
        | None =>
            let '(raw', num) := subn regex p repl n raw in
            let st :=
              if bool_decide (0 < num) then
                {| count := count st; updates := {[n]} ∪ updates st;
                   raw_data := <[n := raw']> (raw_data st);
                   visited := visited st |}
              else st in
            Ok {| count := count st + num; updates := updates st;
                  raw_data := raw_data st; visited := visited st ++ [(p, n)] |}
        end
      else
        let num := length (findall regex p raw) in
        Ok {| count := count st + num; updates := updates st;
              raw_data := raw_data st; visited := visited st ++ [(p, n)] |}
  end.

Fixpoint do_all_files_x (replace : bool) (p : compiled) (repl : replacement)
    (names : list string) (st : loop_state) : result loop_state :=
  match names with
  | [] => Ok st
  | n :: rest =>
      st' ← do_all_file_x replace p repl n st;
      do_all_files_x replace p repl rest st'
  end.

Fixpoint do_all_searches_x (replace : bool)
    (searches : list (compiled * replacement)) (names : list string)
    (st : loop_state) : result loop_state :=
  match searches with
  | [] => Ok st
  | (p, repl) :: rest =>
      st' ← do_all_files_x replace p repl names st;
      do_all_searches_x replace rest names st'
  end.

(** [do_all]: the three loops one after the other, so that an exception in
    the second leaves the third, the only one that writes, not started. *)
Definition do_all_full_x (rq : search_request)
    (current_editor_name errfind : string)
    (searches : list (compiled * replacement)) (replace : bool) (w : world)
  : result (nat * loop_state) * world :=
  let st0 := {| count := 0; updates := ∅; raw_data := ∅; visited := [] |} in
  if early_return rq then (Ok (0, st0), w)
  else
    match do_all_lfiles rq current_editor_name w with
    | Raise e => (Raise e, w)
    | Ok lfiles =>
        let names := OrderedDict.keys lfiles in
        match read_raw_data names ∅ w with
        | Raise e => (Raise e, w)
        | Ok raw0 =>
            match do_all_searches_x replace searches names
                    {| count := 0; updates := ∅; raw_data := raw0;
                       visited := [] |} with
            | Raise e => (Raise e, w)
            | Ok st =>
                match write_updates (raw_data st) (elements (updates st)) w with
                | (Raise e, w') => (Raise e, w')
                | (Ok _, w') =>
                    (Ok (count st, st),
                     emit (count_message (action_label replace) (count st)
                             errfind replace) w')
                end
            end
        end
    end.

Definition do_all_x (rq : search_request)
    (current_editor_name errfind : string)
    (searches : list (compiled * replacement)) (replace : bool) (w : world)
  : result nat * world :=
  match do_all_full_x rq current_editor_name errfind searches replace w with
  | (Ok (n, _), w') => (Ok n, w')
  | (Raise e, w') => (Raise e, w')
  end.

(** [run_search], with the errors of [p.subn]: nothing catches them, so
    they leave [run_search] from inside [do_all], after [add_savepoint] and
    before [rewind_savepoint] or [set_modified]. *)
Definition run_search_x (searches : list search_state) (action : action_t)
    (current_editor : option editor_ref) (current_editor_name : string)
    (searchable_names : where_t -> OrderedDict.t) (w : world)
  : result retval * world :=
  match run_search_scope searches action current_editor current_editor_name
          searchable_names with
  | Raise e => (Raise e, w)
  | Ok (rq, wrap) =>
      let errfind :=
        if bool_decide (1 < length searches) then "the selected searches"
        else match searches with search0 :: _ => find search0 | [] => "" end in
      match compile_searches regex replace_functions searches w with
      | (Raise (InvalidRegex raw msg), w1) =>
          (Ok RDialog, emit (error_dialog "Invalid regex" raw) w1)
      | (Raise (NoSuchFunction name), w1) =>
          (Ok RDialog, emit (error_dialog "No such function" name) w1)
      | (Raise e, w1) => (Raise e, w1)
      | (Ok searches, w1) =>
          match action with
          | act_find => do_find rq wrap errfind searches w1
          | act_replace =>
              match do_replace rq current_editor_name searches w1 with
              | (Ok b, w2) => (Ok (RBool b), w2)
              | (Raise e, w2) => (Raise e, w2)
              end
          | act_replace_find =>
              match do_replace rq current_editor_name searches w1 with
              | (Ok true, w2) => do_find rq wrap errfind searches w2
              | (Ok false, w2) => (Ok RNone, w2)
              | (Raise e, w2) => (Raise e, w2)
              end
          | act_replace_all =>
              if rq_marked rq then
                match sum_all_in_marked all_in_marked true (rq_editor rq)
                        searches w1 with
                | (Ok total, w2) =>
                    (Ok RNone,
                     emit (count_message "Replaced" total errfind false) w2)
                | (Raise e, w2) => (Raise e, w2)
                end
              else
                let w2 := emit (add_savepoint "Before: Replace all") w1 in
                match do_all_x rq current_editor_name errfind searches true w2
                with
                | (Ok count, w3) =>
                    if bool_decide (count = 0) then
                      (Ok RNone, emit rewind_savepoint w3)
                    else (Ok RNone, emit set_modified w3)
                | (Raise e, w3) => (Raise e, w3)
                end
          | act_count =>
              if rq_marked rq then
                match sum_all_in_marked all_in_marked false (rq_editor rq)
                        searches w1 with
                | (Ok total, w2) =>
                    (Ok RNone,
                     emit (count_message "Found" total errfind false) w2)
                | (Raise e, w2) => (Raise e, w2)
                end
              else
                match do_all_x rq current_editor_name errfind searches false w1
                with
                | (Ok count, w2) => (Ok (RInt count), w2)
                | (Raise e, w2) => (Raise e, w2)
                end
          end
      end
  end.

End SubstitutionErrors.

Module FaultDemo.

(** The replace function [upper] raises on [c.html]. *)
Definition subn_error (p : compiled) (repl : replacement) (n raw : string)
  : option exn :=
  match repl with
  | Callable _ =>
      if String.eqb n "c.html" then Some (ValueError "upper") else None
  | Template _ => None
  end.

Definition state : search_state :=
  {| find := "foo"; replace := "upper"; mode := mode_function;
     case_sensitive := true; dot_all := false; direction := dir_down;
     wrap := true; where_ := where_text |}.

Definition run (searches : list search_state) (w : world)
  : result retval * world :=
  run_search_x Demo.engine Demo.functions Demo.all_in_marked Demo.no_find
    Demo.no_replace subn_error searches act_replace_all (Some 7) "a.html"
    Demo.names w.

End FaultDemo.
(** * Properties *)

(** ** Ordered dictionaries and list operations *)

Lemma result_bind_Ok {A B} (r : result A) (k : A -> result B) (b : B) :
  (r ≫= k) = Ok b -> exists a, r = Ok a /\ k a = Ok b.
Proof. destruct r as [a|e]; simpl; [eauto | discriminate]. Qed.

Lemma od_get_None k d : OrderedDict.get k d = None <-> k ∉ OrderedDict.keys d.
Proof.
  induction d as [|[k' v] d IH]; simpl.
  - split; [intros _; apply not_elem_of_nil | done].
  - destruct (String.eqb_spec k k') as [->|Hne].
    + split; [discriminate | intros H; exfalso; apply H; left].
    + rewrite IH, not_elem_of_cons. tauto.
Qed.

Lemma od_contains_true k d :
  OrderedDict.contains k d = true <-> k ∈ OrderedDict.keys d.
Proof.
  unfold OrderedDict.contains.
  destruct (OrderedDict.get k d) eqn:E.
  - split; [intros _ | done].
    destruct (decide (k ∈ OrderedDict.keys d)) as [|Hn]; [done|].
    apply od_get_None in Hn. congruence.
  - apply od_get_None in E. split; [discriminate | done].
Qed.

Lemma od_contains_false k d :
  OrderedDict.contains k d = false <-> k ∉ OrderedDict.keys d.
Proof.
  rewrite <- od_contains_true. destruct (OrderedDict.contains k d); split; congruence.
Qed.

Lemma od_set_fresh k v d :
  k ∉ OrderedDict.keys d -> OrderedDict.set k v d = d ++ [(k, v)].
Proof.
  induction d as [|[k' v'] d IH]; simpl; intros Hk; [done|].
  apply not_elem_of_cons in Hk as [Hne Hk].
  destruct (String.eqb_spec k k'); [done|]. by rewrite IH.
Qed.

Lemma od_fold_set_fresh ps acc :
  NoDup (OrderedDict.keys acc ++ fmap fst ps) ->
  fold_left (fun d kv => OrderedDict.set (fst kv) (snd kv) d) ps acc = acc ++ ps.
Proof.
  revert acc. induction ps as [|[k v] ps IH]; intros acc Hnd; simpl.
  - by rewrite app_nil_r.
  - simpl in Hnd. rewrite od_set_fresh.
    + rewrite IH.
      * by rewrite <- app_assoc.
      * unfold OrderedDict.keys in *. rewrite fmap_app. simpl.
        by rewrite <- app_assoc.
    + apply NoDup_app in Hnd as (_ & Hd & _). intros Hin.
      apply (Hd k Hin). left.
Qed.

Lemma od_of_pairs_nodup ps : NoDup (fmap fst ps) -> OrderedDict.of_pairs ps = ps.
Proof. intros H. unfold OrderedDict.of_pairs. by rewrite od_fold_set_fresh. Qed.

Lemma list_index_split k l :
  k ∈ l ->
  exists idx, list_index k l = Ok idx /\
    l = take idx l ++ k :: drop (idx + 1) l /\ (k ∉ take idx l).
Proof.
  induction l as [|y l IH]; intros Hin; [by apply elem_of_nil in Hin|].
  simpl. destruct (String.eqb_spec k y) as [->|Hne].
  - exists 0. simpl. rewrite drop_0. split_and!; [done..|apply not_elem_of_nil].
  - apply elem_of_cons in Hin as [?|Hin]; [done|].
    destruct (IH Hin) as (idx & -> & Hsplit & Hnot).
    exists (S idx). simpl. split_and!; [done| |].
    + by rewrite <- Hsplit.
    + apply not_elem_of_cons. done.
Qed.

Lemma pairs_of_ok files l :
  (forall m, m ∈ l -> m ∈ OrderedDict.keys files) ->
  exists ps, pairs_of files l = Ok ps /\ fmap fst ps = l /\
    forall m v, (m, v) ∈ ps -> OrderedDict.get m files = Some v.
Proof.
  induction l as [|m l IH]; intros Hsub.
  - exists []. split_and!; [done..|]. intros ?? H. by apply elem_of_nil in H.
  - destruct IH as (ps & Hps & Hfst & Hval).
    { intros m' Hm'. apply Hsub. by right. }
    assert (Hm : m ∈ OrderedDict.keys files) by (apply Hsub; left).
    destruct (OrderedDict.get m files) as [v|] eqn:E.
    + exists ((m, v) :: ps). simpl. unfold OrderedDict.getitem. rewrite E. simpl.
      rewrite Hps. simpl. split_and!; [done|f_equal; exact Hfst|].
      intros m' v' [Heq|Hin]%elem_of_cons; [by inversion Heq; subst | eauto].
    + apply od_get_None in E. done.
Qed.

(** The keys of a group that contains [name], split around its first
    occurrence, and what the resolver makes of them. *)
Lemma initialize_member state action current_editor name sn :
  where_ state ∈ [where_text; where_styles; where_selected] ->
  name ∈ OrderedDict.keys (sn (where_ state)) ->
  exists idx ps,
    let members := OrderedDict.keys (sn (where_ state)) in
    let before := take idx members in
    let after := drop (idx + 1) members in
    let do_all :=
      wrap state || bool_decide (action = act_replace_all \/ action = act_count) in
    members = before ++ name :: after /\ (name ∉ before) /\
    fmap fst ps =
      match direction state with
      | dir_up => if do_all then reverse before ++ (reverse after ++ [name]) else reverse before
      | dir_down => if do_all then after ++ (before ++ [name]) else after
      end /\
    (forall m v, (m, v) ∈ ps -> OrderedDict.get m (sn (where_ state)) = Some v) /\
    initialize_search_request state action current_editor name sn
    = Ok {| rq_editor := current_editor; rq_where := where_ state;
            rq_files := OrderedDict.of_pairs ps;
            rq_do_all := do_all; rq_marked := false |}.
Proof.
  intros Hwhere Hin. unfold initialize_search_request.
  generalize dependent (where_ state). intros wh Hwhere Hin.
  destruct (list_index_split _ _ Hin) as (idx & Hidx & Hsplit & Hnot).
  remember (OrderedDict.keys (sn wh)) as members eqn:Hmem.
  remember (wrap state || bool_decide (action = act_replace_all \/ action = act_count))
    as do_all eqn:Hdo.
  remember (match direction state with
      | dir_up => if do_all
                  then reverse (take idx members) ++ (reverse (drop (idx + 1) members) ++ [name])
                  else reverse (take idx members)
      | dir_down => if do_all
                  then drop (idx + 1) members ++ (take idx members ++ [name])
                  else drop (idx + 1) members
      end) as lf eqn:Hlf.
  destruct (pairs_of_ok (sn wh) lf) as (ps & Hps & Hfst & Hval).
  { intros m Hm. rewrite <- Hmem.
    pose proof (subseteq_take idx members) as Hb.
    pose proof (subseteq_drop (idx + 1) members) as Ha.
    assert (Hsub : forall l, l ⊆ members -> m ∈ l -> m ∈ members) by auto.
    subst lf. destruct (direction state), do_all;
      rewrite ?elem_of_app, ?elem_of_reverse, ?list_elem_of_singleton in Hm;
      repeat match goal with H : _ \/ _ |- _ => destruct H end;
      try match goal with H : m = name |- _ => rewrite H end; eauto. }
  exists idx, ps. cbv zeta. split_and!; [done|done|congruence|done|].
  assert (Hc : OrderedDict.contains name (sn wh) = true)
    by (apply od_contains_true; by rewrite <- Hmem).
  assert (Hgroup : wh = where_text \/ wh = where_styles \/ wh = where_selected).
  { repeat (apply elem_of_cons in Hwhere as [Hwhere|Hwhere]; [tauto|]).
    by apply elem_of_nil in Hwhere. }
  destruct Hgroup as [->|[->| ->]];
    cbv beta iota zeta; rewrite Hc, Hidx; simpl; rewrite <- Hlf, Hps; done.
Qed.

Lemma initialize_search_request_total state action current_editor name sn :
  exists rq, initialize_search_request state action current_editor name sn = Ok rq.
Proof.
  destruct (decide (where_ state ∈ [where_text; where_styles; where_selected]))
    as [Hg|Hg].
  - destruct (decide (name ∈ OrderedDict.keys (sn (where_ state)))) as [Hin|Hnin].
    + destruct (initialize_member state action current_editor name sn Hg Hin)
        as (idx & ps & H).
      cbv zeta in H. destruct H as (_ & _ & _ & _ & ->). eauto.
    + apply od_contains_false in Hnin. unfold initialize_search_request.
      destruct (where_ state); rewrite ?Hnin; eauto.
  - unfold initialize_search_request.
    destruct (where_ state); eauto; exfalso; apply Hg; repeat constructor.
Qed.

Lemma od_get_elem m v d :
  NoDup (OrderedDict.keys d) -> (m, v) ∈ d -> OrderedDict.get m d = Some v.
Proof.
  induction d as [|[k' v'] d IH]; simpl; intros Hnd Hin.
  - by apply elem_of_nil in Hin.
  - apply NoDup_cons in Hnd as [Hk' Hnd].
    apply elem_of_cons in Hin as [Heq|Hin].
    + inversion Heq; subst. by rewrite String.eqb_refl.
    + destruct (String.eqb_spec m k') as [->|_]; [|by apply IH].
      exfalso. apply Hk'. unfold OrderedDict.keys.
      apply list_elem_of_fmap. by exists (k', v).
Qed.

Lemma resolved_order_NoDup d do_all before name after :
  NoDup (before ++ name :: after) ->
  NoDup (resolved_order d do_all before name after).
Proof.
  intros Hnd. apply NoDup_app in Hnd as (Hb & Hba & Hna).
  apply NoDup_cons in Hna as (Hn & Ha).
  assert (Hnb : name ∉ before).
  { intros Hin. apply (Hba _ Hin). left. }
  assert (Hdisj : forall x, x ∈ before -> x ∉ after).
  { intros x Hx Hxa. apply (Hba _ Hx). by right. }
  destruct d, do_all; simpl; try (by rewrite reverse_Permutation);
    repeat (apply NoDup_app; split_and!);
    rewrite ?reverse_Permutation; try done; try apply NoDup_singleton;
    intros x Hx Hx';
    rewrite ?elem_of_app, ?elem_of_reverse, ?list_elem_of_singleton in Hx;
    rewrite ?elem_of_app, ?elem_of_reverse, ?list_elem_of_singleton in Hx';
    repeat match goal with H : _ \/ _ |- _ => destruct H end;
    repeat match goal with H : _ = name |- _ => rewrite H in * end;
    eauto; by eapply Hdisj.
Qed.

Lemma initialize_member_keys state action current_editor name sn before after :
  where_ state ∈ [where_text; where_styles; where_selected] ->
  OrderedDict.wf (sn (where_ state)) ->
  OrderedDict.keys (sn (where_ state)) = before ++ name :: after ->
  exists files,
    initialize_search_request state action current_editor name sn
    = Ok {| rq_editor := current_editor; rq_where := where_ state;
            rq_files := files;
            rq_do_all := wrap state
              || bool_decide (action = act_replace_all \/ action = act_count);
            rq_marked := false |} /\
    OrderedDict.keys files
    = resolved_order (direction state)
        (wrap state || bool_decide (action = act_replace_all \/ action = act_count))
        before name after /\
    (forall m v, (m, v) ∈ files ->
       OrderedDict.get m (sn (where_ state)) = Some v).
Proof.
  intros Hwhere Hwf Hsplit.
  assert (Hin : name ∈ OrderedDict.keys (sn (where_ state))).
  { rewrite Hsplit. apply elem_of_app. right. left. }
  destruct (initialize_member state action current_editor name sn Hwhere Hin)
    as (idx & ps & H).
  cbv zeta in H. destruct H as (Hsplit' & Hnot & Hfst & Hval & Hres).
  unfold OrderedDict.wf in Hwf.
  assert (Hnb : name ∉ before).
  { rewrite Hsplit in Hwf. apply NoDup_app in Hwf as (_ & Hd & _).
    intros Hb. apply (Hd _ Hb). left. }
  rewrite Hsplit in Hsplit' at 1.
  destruct (not_elem_of_app_cons_inv_l _ _ _ _ _ _ Hnot Hnb Hsplit')
    as (Hb & _ & Ha).
  rewrite <- Hb, <- Ha in Hfst.
  change (fmap fst ps = resolved_order (direction state)
      (wrap state || bool_decide (action = act_replace_all \/ action = act_count))
      before name after) in Hfst.
  assert (Hnd : NoDup (fmap fst ps)).
  { rewrite Hfst. apply resolved_order_NoDup. by rewrite <- Hsplit. }
  rewrite (od_of_pairs_nodup ps Hnd) in Hres.
  exists ps. split_and!; done.
Qed.

(** ** The scope resolver *)

Lemma od_get_same files group :
  NoDup (OrderedDict.keys files) ->
  (forall m v, (m, v) ∈ files -> OrderedDict.get m group = Some v) ->
  forall m, m ∈ OrderedDict.keys files ->
    OrderedDict.get m files = OrderedDict.get m group.
Proof.
  intros Hnd Hval m Hm.
  apply list_elem_of_fmap in Hm as ([m' v] & -> & Hin). simpl.
  rewrite (od_get_elem _ _ _ Hnd Hin). symmetry. by apply Hval.
Qed.

(** C2. In a group scope that contains the current file, searched forward
    and exhaustively (wrap enabled, or replace-all, or count), the resolver
    starts in the current editor, and the files it lists are the members
    that follow the current file, then the members that precede it, then the
    current file: every member once, the current file last. *)
Theorem forward_exhaustive_order state action current_editor name sn :
  where_ state ∈ [where_text; where_styles; where_selected] ->
  direction state = dir_down ->
  wrap state = true \/ action = act_replace_all \/ action = act_count ->
  OrderedDict.wf (sn (where_ state)) ->
  name ∈ OrderedDict.keys (sn (where_ state)) ->
  exists rq before after,
    initialize_search_request state action current_editor name sn = Ok rq /\
    rq_editor rq = current_editor /\
    rq_marked rq = false /\
    OrderedDict.keys (sn (where_ state)) = before ++ name :: after /\
    OrderedDict.keys (rq_files rq) = after ++ before ++ [name] /\
    OrderedDict.keys (rq_files rq) ≡ₚ OrderedDict.keys (sn (where_ state)) /\
    NoDup (OrderedDict.keys (rq_files rq)) /\
    last (OrderedDict.keys (rq_files rq)) = Some name /\
    (forall m, m ∈ OrderedDict.keys (rq_files rq) ->
       OrderedDict.get m (rq_files rq) = OrderedDict.get m (sn (where_ state))).
Proof.
  intros Hwhere Hdir Hex Hwf Hin.
  destruct (list_elem_of_split _ _ Hin) as (before & after & Hsplit).
  destruct (initialize_member_keys state action current_editor name sn
              before after Hwhere Hwf Hsplit) as (files & Hres & Hkeys & Hval).
  assert (Hdo : wrap state
            || bool_decide (action = act_replace_all \/ action = act_count) = true).
  { destruct Hex as [->|Hact]; [done|].
    rewrite bool_decide_eq_true_2 by done. apply orb_true_r. }
  rewrite Hdir, Hdo in Hkeys. simpl in Hkeys.
  assert (Hperm : OrderedDict.keys files ≡ₚ OrderedDict.keys (sn (where_ state))).
  { rewrite Hkeys, Hsplit. rewrite (Permutation_app_comm after).
    by rewrite <- app_assoc. }
  eexists _, before, after. split; [exact Hres|]. simpl.
  split_and!; try done.
  - by rewrite Hperm.
  - rewrite Hkeys, !app_assoc. apply last_snoc.
  - apply od_get_same; [by rewrite Hperm | done].
Qed.

Lemma forward_exhaustive_order_witness :
  exists rq,
    initialize_search_request (Demo.state dir_down true) act_find (Some 7)
      "b.html" Demo.names = Ok rq /\
    OrderedDict.keys (rq_files rq) = ["c.html"; "d.html"; "a.html"; "b.html"].
Proof.
  destruct (forward_exhaustive_order (Demo.state dir_down true) act_find (Some 7)
              "b.html" Demo.names) as (rq & before & after & Hres & H).
  - simpl. repeat constructor.
  - reflexivity.
  - left. reflexivity.
  - unfold OrderedDict.wf. simpl. apply (bool_decide_unpack _). vm_compute. exact I.
  - simpl. unfold Demo.group. simpl. repeat constructor.
  - exists rq. split; [exact Hres|].
    vm_compute in Hres. inversion Hres. reflexivity.
Defined.

(** C5 (as stated) fails: with members a, b, c, d and b current, the
    exhaustive order is c, d, a, b forward and a, d, c, b backward, which is
    not the reverse of the forward order. *)
Lemma backward_order_counterexample :
  ~ (forall rq_up rq_down,
       initialize_search_request (Demo.state dir_up true) act_find (Some 7)
         "b.html" Demo.names = Ok rq_up ->
       initialize_search_request (Demo.state dir_down true) act_find (Some 7)
         "b.html" Demo.names = Ok rq_down ->
       OrderedDict.keys (rq_files rq_up)
       = reverse (OrderedDict.keys (rq_files rq_down))).
Proof.
  intros H. specialize (H _ _ eq_refl eq_refl). vm_compute in H. discriminate.
Qed.

(** C5 (amended). In a group scope that contains the current file, the order
    resolved backward is the order resolved forward over the reversed group;
    in the exhaustive case the files other than the current one come in the
    reverse of their forward order, and the current file is last in both
    directions. *)
Theorem backward_order_mirrors_forward s_up s_down action current_editor name sn :
  where_ s_up ∈ [where_text; where_styles; where_selected] ->
  where_ s_down = where_ s_up ->
  wrap s_down = wrap s_up ->
  direction s_up = dir_up ->
  direction s_down = dir_down ->
  OrderedDict.wf (sn (where_ s_up)) ->
  name ∈ OrderedDict.keys (sn (where_ s_up)) ->
  exists rq_up rq_down rq_rev,
    initialize_search_request s_up action current_editor name sn = Ok rq_up /\
    initialize_search_request s_down action current_editor name sn = Ok rq_down /\
    initialize_search_request s_down action current_editor name
      (fun w => reverse (sn w)) = Ok rq_rev /\
    OrderedDict.keys (rq_files rq_up) = OrderedDict.keys (rq_files rq_rev) /\
    (rq_do_all rq_up = true ->
     exists others,
       OrderedDict.keys (rq_files rq_down) = others ++ [name] /\
       OrderedDict.keys (rq_files rq_up) = reverse others ++ [name]).
Proof.
  intros Hwhere Hw Hwrap Hup Hdown Hwf Hin.
  destruct (list_elem_of_split _ _ Hin) as (before & after & Hsplit).
  destruct (initialize_member_keys s_up action current_editor name sn
              before after Hwhere Hwf Hsplit) as (f_up & Hr_up & Hk_up & _).
  destruct (initialize_member_keys s_down action current_editor name sn
              before after) as (f_down & Hr_down & Hk_down & _);
    [by rewrite Hw..|].
  destruct (initialize_member_keys s_down action current_editor name
              (fun w => reverse (sn w)) (reverse after) (reverse before))
    as (f_rev & Hr_rev & Hk_rev & _).
  { by rewrite Hw. }
  { unfold OrderedDict.wf, OrderedDict.keys. rewrite Hw, fmap_reverse.
    rewrite reverse_Permutation. exact Hwf. }
  { unfold OrderedDict.keys in *. rewrite Hw, fmap_reverse, Hsplit.
    by rewrite reverse_app, reverse_cons, <- app_assoc. }
  rewrite Hup in Hk_up. rewrite Hdown, Hwrap in Hk_down, Hk_rev.
  eexists _, _, _. split_and!; [exact Hr_up | exact Hr_down | exact Hr_rev | |];
    simpl.
  - rewrite Hk_up, Hk_rev. reflexivity.
  - intros Hdo. rewrite Hdo in *. simpl in *.
    exists (after ++ before). split.
    + by rewrite Hk_down, app_assoc.
    + by rewrite Hk_up, reverse_app, app_assoc.
Qed.

Lemma backward_order_mirrors_forward_witness :
  exists rq_up rq_rev,
    initialize_search_request (Demo.state dir_up true) act_find (Some 7)
      "b.html" Demo.names = Ok rq_up /\
    initialize_search_request (Demo.state dir_down true) act_find (Some 7)
      "b.html" (fun w => reverse (Demo.names w)) = Ok rq_rev /\
    OrderedDict.keys (rq_files rq_up) = OrderedDict.keys (rq_files rq_rev).
Proof.
  destruct (backward_order_mirrors_forward (Demo.state dir_up true)
              (Demo.state dir_down true) act_find (Some 7) "b.html" Demo.names)
    as (rq_up & rq_down & rq_rev & H1 & _ & H3 & H4 & _).
  - simpl. repeat constructor.
  - reflexivity.
  - reflexivity.
  - reflexivity.
  - reflexivity.
  - unfold OrderedDict.wf. simpl. apply (bool_decide_unpack _). vm_compute. exact I.
  - simpl. unfold Demo.group. simpl. repeat constructor.
  - exists rq_up, rq_rev. split_and!; assumption.
Defined.

(** C6 (as stated) fails for the backward direction: when the current file
    is not in the group, the group is returned in its given order, not
    reversed. *)
Lemma outsider_backward_counterexample :
  ~ (forall rq,
       initialize_search_request (Demo.state dir_up true) act_find (Some 7)
         "z.css" Demo.names = Ok rq ->
       rq_editor rq = None /\
       rq_files rq = reverse (Demo.names where_text)).
Proof.
  intros H. destruct (H _ eq_refl) as [_ Hfiles]. vm_compute in Hfiles.
  discriminate.
Qed.

(** C6 (amended). In a group scope that does not contain the current file,
    the resolver returns no starting editor and the whole group in its given
    order, whatever the direction. *)
Theorem outsider_keeps_group_order state action current_editor name sn :
  where_ state ∈ [where_text; where_styles; where_selected] ->
  name ∉ OrderedDict.keys (sn (where_ state)) ->
  initialize_search_request state action current_editor name sn
  = Ok {| rq_editor := None; rq_where := where_ state;
          rq_files := sn (where_ state);
          rq_do_all := wrap state
            || bool_decide (action = act_replace_all \/ action = act_count);
          rq_marked := false |}.
Proof.
  intros Hwhere Hnot. apply od_contains_false in Hnot.
  unfold initialize_search_request.
  destruct (where_ state); rewrite ?Hnot; try reflexivity;
    exfalso; repeat (apply elem_of_cons in Hwhere as [Hwhere|Hwhere];
                     [discriminate|]); by apply elem_of_nil in Hwhere.
Qed.

Lemma outsider_keeps_group_order_witness :
  initialize_search_request (Demo.state dir_up false) act_find (Some 7)
    "z.css" Demo.names
  = Ok {| rq_editor := None; rq_where := where_text; rq_files := Demo.group;
          rq_do_all := false; rq_marked := false |}.
Proof.
  apply (outsider_keeps_group_order (Demo.state dir_up false) act_find (Some 7)
           "z.css" Demo.names).
  - simpl. repeat constructor.
  - simpl. apply (bool_decide_unpack _). vm_compute. exact I.
Defined.

(** ** The pattern compiler and its cache *)

Lemma has_flag_pow2 (k x : Z) :
  (0 <= k)%Z -> has_flag (2 ^ k) x = Z.testbit x k.
Proof.
  intros Hk. unfold has_flag.
  assert (Hland : Z.land x (2 ^ k) = if Z.testbit x k then (2 ^ k)%Z else 0%Z).
  { apply Z.bits_inj'. intros n Hn. rewrite Z.land_spec, Z.pow2_bits_eqb by done.
    destruct (Z.eqb_spec k n) as [->|Hne].
    - rewrite andb_true_r. destruct (Z.testbit x n) eqn:E.
      + by rewrite Z.pow2_bits_eqb, Z.eqb_refl.
      + by rewrite Z.bits_0.
    - rewrite andb_false_r. destruct (Z.testbit x k).
      + rewrite Z.pow2_bits_eqb by done. symmetry. by apply Z.eqb_neq.
      + by rewrite Z.bits_0. }
  rewrite Hland. destruct (Z.testbit x k).
  - apply Z.eqb_refl.
  - apply Z.eqb_neq. assert (0 < 2 ^ k)%Z by (by apply Z.pow_pos_nonneg). lia.
Qed.

Section CompilerProperties.

Variable regex : regex_module.

Lemma get_search_regex_key state w :
  get_search_regex regex state w
  = let '(flags, raw) := search_key regex state in
    match regex_cache w !! (flags, raw) with
    | Some ans => (Ok ans, w)
    | None =>
        match compile_error regex raw flags with
        | Some msg => (Raise (InvalidRegex raw msg), w)
        | None =>
            let p := {| pat_id := compile_calls w; pat_flags := flags;
                        pat_text := raw |} in
            (Ok p, with_cache (<[(flags, raw) := p]> (regex_cache w))
                     (S (compile_calls w)) w)
        end
    end.
Proof.
  unfold get_search_regex, regex_compile.
  destruct (search_key regex state) as [flags raw].
  destruct (regex_cache w !! (flags, raw)); [done|].
  destruct (compile_error regex raw flags); done.
Qed.

Lemma get_search_regex_result state w r w' :
  cache_wf w ->
  get_search_regex regex state w = (Ok r, w') ->
  (pat_flags r, pat_text r) = search_key regex state /\
  regex_cache w' !! search_key regex state = Some r.
Proof.
  intros Hwf. rewrite get_search_regex_key.
  destruct (search_key regex state) as [flags raw].
  destruct (regex_cache w !! (flags, raw)) as [ans|] eqn:E.
  - intros [= <- <-]. destruct (Hwf _ _ _ E) as [-> ->]. done.
  - destruct (compile_error regex raw flags); [discriminate|].
    intros [= <- <-]. simpl. by rewrite lookup_insert_eq.
Qed.

Lemma get_search_regex_frame state w r w' :
  get_search_regex regex state w = (r, w') ->
  heap w' = heap w /\ editors w' = editors w /\ container w' = container w /\
  events w' = events w /\ regex_cache w ⊆ regex_cache w' /\
  (cache_wf w -> cache_wf w').
Proof.
  rewrite get_search_regex_key.
  destruct (search_key regex state) as [flags raw].
  destruct (regex_cache w !! (flags, raw)) as [ans|] eqn:E.
  - intros [= <- <-]. done.
  - destruct (compile_error regex raw flags).
    + intros [= <- <-]. done.
    + intros [= <- <-]. simpl. split_and!; try done.
      * by apply insert_subseteq.
      * intros Hwf flags' raw' p'. simpl.
        destruct (decide ((flags, raw) = (flags', raw'))) as [[= <- <-]|Hne].
        -- rewrite lookup_insert_eq. by intros [= <-].
        -- rewrite lookup_insert_ne by done. apply Hwf.
Qed.

Lemma lookups_grow states w :
  regex_cache w ⊆ regex_cache (lookups regex states w).
Proof.
  revert w. induction states as [|s states IH]; intros w; simpl; [done|].
  destruct (get_search_regex regex s w) as [r w1] eqn:E. simpl.
  apply get_search_regex_frame in E as (_ & _ & _ & _ & Hsub & _).
  etrans; [exact Hsub | apply IH].
Qed.

Lemma get_search_regex_hit state w p :
  regex_cache w !! search_key regex state = Some p ->
  get_search_regex regex state w = (Ok p, w).
Proof.
  intros Hhit. rewrite get_search_regex_key.
  destruct (search_key regex state) as [flags raw]. by rewrite Hhit.
Qed.

(** C3. The flags a pattern is compiled with contain the fixed defaults;
    IGNORECASE is set exactly when the search is not case sensitive, DOTALL
    exactly when dot_all is set in regex or function mode, REVERSE exactly
    when the direction is up; and in normal mode the text compiled is the
    escaped search text. *)
Theorem compiled_flags_and_text state w p w' :
  flags_independent regex ->
  cache_wf w ->
  get_search_regex regex state w = (Ok p, w') ->
  has_flag (UNICODE regex) (pat_flags p) = true /\
  has_flag (WORD regex) (pat_flags p) = true /\
  has_flag (FULLCASE regex) (pat_flags p) = true /\
  has_flag (MULTILINE regex) (pat_flags p) = true /\
  has_flag (VERSION1 regex) (pat_flags p) = true /\
  has_flag (IGNORECASE regex) (pat_flags p) = negb (case_sensitive state) /\
  has_flag (DOTALL regex) (pat_flags p)
  = dot_all state
    && bool_decide (mode state = mode_regex \/ mode state = mode_function) /\
  has_flag (REVERSE regex) (pat_flags p)
  = bool_decide (direction state = dir_up) /\
  pat_text p
  = (if bool_decide (mode state = mode_normal) then escape regex (find state)
     else find state).
Proof.
  intros (bits & Hnd & Hpos & Hbits) Hwf Hget.
  apply (get_search_regex_result _ _ _ _ Hwf) in Hget as [Hkey _].
  unfold search_key in Hkey. injection Hkey as Hflags Htext.
  rewrite Hflags, Htext. clear Hflags Htext Hwf p w w'.
  unfold flag_list in Hbits. unfold REGEX_FLAGS.
  do 8 (destruct bits as [|? bits]; [discriminate|]).
  destruct bits; [|discriminate].
  injection Hbits as -> -> -> -> -> -> -> ->.
  repeat match goal with
         | H : NoDup (_ :: _) |- _ => apply NoDup_cons in H as [? H]
         | H : _ ∉ _ :: _ |- _ => apply not_elem_of_cons in H as [? H]
         | H : Forall _ (_ :: _) |- _ => apply Forall_cons in H as [? H]
         end.
  assert (Hmode : bool_decide (mode state = mode_regex \/ mode state = mode_function)
                  = negb (bool_decide (mode state = mode_normal))).
  { by destruct (mode state). }
  rewrite Hmode.
  destruct (bool_decide (mode state = mode_normal)),
    (bool_decide (direction state = dir_up)),
    (case_sensitive state), (dot_all state); cbn [negb andb];
    rewrite !has_flag_pow2 by assumption;
    rewrite ?Z.lor_spec, ?Z.pow2_bits_eqb by assumption;
    repeat match goal with
           | |- context [Z.eqb ?a ?a] => rewrite (Z.eqb_refl a)
           | |- context [Z.eqb ?a ?b] =>
               rewrite (proj2 (Z.eqb_neq a b)) by congruence
           end;
    cbn [orb]; rewrite ?orb_true_r; repeat split; reflexivity.
Qed.

(** C4. Two requests with the same cache key: once the first has
    compiled, the second one returns the very same pattern object from the
    cache, whatever was compiled in between, and compiles nothing. *)
Theorem same_key_hits_cache state1 state2 between w p1 w1 :
  search_key regex state1 = search_key regex state2 ->
  get_search_regex regex state1 w = (Ok p1, w1) ->
  let w2 := lookups regex between w1 in
  get_search_regex regex state2 w2 = (Ok p1, w2) /\
  get_search_regex regex state1 w2 = (Ok p1, w2) /\
  (forall p w3, get_search_regex regex state2 w2 = (Ok p, w3) ->
     pat_id p = pat_id p1 /\ compile_calls w3 = compile_calls w2).
Proof.
  intros Hkey Hget w2.
  assert (Hin : regex_cache w1 !! search_key regex state1 = Some p1).
  { rewrite get_search_regex_key in Hget.
    destruct (search_key regex state1) as [flags raw].
    destruct (regex_cache w !! (flags, raw)) as [ans|] eqn:E.
    - by injection Hget as <- <-.
    - destruct (compile_error regex raw flags); [discriminate|].
      injection Hget as <- <-. simpl. by rewrite lookup_insert_eq. }
  assert (Hin2 : regex_cache w2 !! search_key regex state1 = Some p1).
  { eapply lookup_weaken; [exact Hin | apply lookups_grow]. }
  assert (H2 : get_search_regex regex state2 w2 = (Ok p1, w2)).
  { apply get_search_regex_hit. by rewrite <- Hkey. }
  split_and!; [done | by apply get_search_regex_hit |].
  intros p w3. rewrite H2. by intros [= <- <-].
Qed.

End CompilerProperties.

(** ** Replace-all and count *)

Lemma sum_list_with_add {A} (f g : A -> nat) (l : list A) :
  sum_list_with (fun x => f x + g x) l = sum_list_with f l + sum_list_with g l.
Proof. induction l as [|x l IH]; simpl; [done|]. rewrite IH. lia. Qed.

Lemma sum_list_with_ext {A} (f g : A -> nat) (l : list A) :
  (forall x, x ∈ l -> f x = g x) -> sum_list_with f l = sum_list_with g l.
Proof.
  induction l as [|x l IH]; simpl; intros H; [done|].
  rewrite (H x) by left. rewrite IH; [done|]. intros y Hy. apply H. by right.
Qed.

Lemma sum_list_with_zero {A} (f : A -> nat) (l : list A) :
  sum_list_with f l = 0 <-> forall x, x ∈ l -> f x = 0.
Proof.
  induction l as [|x l IH]; simpl.
  - split; [|done]. intros _ x Hx. by apply elem_of_nil in Hx.
  - split.
    + intros Hsum y [->|Hy]%elem_of_cons; [lia|]. apply IH; [lia|done].
    + intros H. rewrite (H x) by left. simpl. apply IH. intros y Hy. apply H.
      by right.
Qed.

Section AllProperties.

Variable regex : regex_module.
Variable replace_functions : gset string.
Variable all_in_marked :
  compiled -> option replacement -> editor_obj -> editor_obj * nat.
Variable do_find :
  search_request -> bool -> string -> list (compiled * replacement) ->
  world -> result retval * world.
Variable do_replace :
  search_request -> string -> list (compiled * replacement) ->
  world -> result bool * world.

(** *** Compiling the searches of a run *)

Lemma get_search_regex_cached state w p w' :
  get_search_regex regex state w = (Ok p, w') ->
  regex_cache w' !! search_key regex state = Some p.
Proof.
  rewrite get_search_regex_key.
  destruct (search_key regex state) as [flags raw].
  destruct (regex_cache w !! (flags, raw)) as [ans|] eqn:E.
  - by intros [= <- <-].
  - destruct (compile_error regex raw flags); [discriminate|].
    intros [= <- <-]. simpl. by rewrite lookup_insert_eq.
Qed.

Lemma compile_searches_frame searches w r w' :
  compile_searches regex replace_functions searches w = (r, w') ->
  heap w' = heap w /\ editors w' = editors w /\ container w' = container w /\
  events w' = events w /\ regex_cache w ⊆ regex_cache w'.
Proof.
  revert w r w'. induction searches as [|s rest IH]; intros w r w'; simpl.
  - by intros [= <- <-].
  - destruct (get_search_regex regex s w) as [[p|e] w1] eqn:E1.
    + apply get_search_regex_frame in E1 as (Hh & He & Hc & Hev & Hsub & _).
      destruct (get_search_function replace_functions s) as [repl|e].
      * destruct (compile_searches regex replace_functions rest w1)
          as [[ps|e] w2] eqn:E2;
          apply IH in E2 as (Hh2 & He2 & Hc2 & Hev2 & Hsub2);
          intros [= <- <-]; split_and!; try congruence; by etrans.
      * intros [= <- <-]. done.
    + apply get_search_regex_frame in E1 as (Hh & He & Hc & Hev & Hsub & _).
      intros [= <- <-]. done.
Qed.

(** Searches that compiled once compile to the same pattern objects from
    then on, without touching the cache. *)
Lemma compile_searches_again searches w cs w1 w2 :
  compile_searches regex replace_functions searches w = (Ok cs, w1) ->
  regex_cache w1 ⊆ regex_cache w2 ->
  compile_searches regex replace_functions searches w2 = (Ok cs, w2).
Proof.
  revert w cs. induction searches as [|s rest IH]; intros w cs; simpl.
  - by intros [= <-] _.
  - destruct (get_search_regex regex s w) as [[p|e] wa] eqn:E1; [|discriminate].
    destruct (get_search_function replace_functions s) as [repl|e];
      [|discriminate].
    destruct (compile_searches regex replace_functions rest wa)
      as [[ps|e] wb] eqn:E2; [|discriminate].
    intros [= <- <-] Hsub.
    pose proof (get_search_regex_cached _ _ _ _ E1) as Hin.
    pose proof (compile_searches_frame _ _ _ _ E2) as (_ & _ & _ & _ & Hsub2).
    assert (Hhit : regex_cache w2 !! search_key regex s = Some p).
    { eapply lookup_weaken; [exact Hin|]. by etrans. }
    rewrite (get_search_regex_hit regex s w2 p Hhit).
    by rewrite (IH _ _ E2 Hsub).
Qed.

Lemma compile_searches_length searches w cs w1 :
  compile_searches regex replace_functions searches w = (Ok cs, w1) ->
  length cs = length searches.
Proof.
  revert w cs. induction searches as [|s rest IH]; intros w cs; simpl.
  - by intros [= <-].
  - destruct (get_search_regex regex s w) as [[p|e] wa]; [|discriminate].
    destruct (get_search_function replace_functions s); [|discriminate].
    destruct (compile_searches regex replace_functions rest wa)
      as [[ps|e] wb] eqn:E2; [|discriminate].
    intros [= <- <-]. simpl. f_equal. by eapply IH.
Qed.

(** *** The working set *)

Lemma read_raw_data_ok names acc w :
  Forall (readable w) names ->
  exists raw0,
    read_raw_data names acc w = Ok raw0 /\
    forall n, raw0 !! n = if decide (n ∈ names) then doc_text w n else acc !! n.
Proof.
  revert acc. induction names as [|m names IH]; intros acc Hread.
  - exists acc. split; [done|]. intros n.
    destruct (decide (n ∈ [])) as [H|]; [by apply elem_of_nil in H|done].
  - apply Forall_cons in Hread as [[raw Hm] Hread]. simpl.
    assert (Hstep : match editors w !! m with
                    | Some ed => Ok (get_raw_data (heap w !!! ed))
                    | None => raw_data_of m w
                    end = Ok raw).
    { unfold doc_text in Hm. unfold raw_data_of.
      destruct (editors w !! m); [by injection Hm as ->|]. by rewrite Hm. }
    rewrite Hstep. simpl.
    destruct (IH (<[m := raw]> acc) Hread) as (raw0 & Hok & Hlook).
    exists raw0. split; [done|]. intros n. rewrite Hlook.
    destruct (decide (n ∈ names)) as [Hin|Hnin].
    + rewrite decide_True by (by right). done.
    + destruct (decide (n = m)) as [->|Hne].
      * rewrite decide_True by left. by rewrite lookup_insert_eq.
      * rewrite decide_False by (by intros [?|?]%elem_of_cons).
        by rewrite lookup_insert_ne.
Qed.

Lemma read_raw_data_inv names acc w raw0 :
  read_raw_data names acc w = Ok raw0 -> Forall (readable w) names.
Proof.
  revert acc. induction names as [|m names IH]; intros acc; simpl; [done|].
  intros Hread. apply result_bind_Ok in Hread as (raw & Hraw & Hrest).
  apply Forall_cons. split; [|by eapply IH].
  unfold readable, doc_text. unfold raw_data_of in Hraw.
  destruct (editors w !! m); [done|].
  destruct (container w !! m); [done|discriminate].
Qed.

Lemma read_raw_data_ext names acc w w' :
  heap w' = heap w -> editors w' = editors w -> container w' = container w ->
  read_raw_data names acc w' = read_raw_data names acc w.
Proof.
  intros Hh He Hc. revert acc.
  induction names as [|m names IH]; intros acc; simpl; [done|].
  unfold raw_data_of. rewrite Hh, He, Hc.
  destruct (match editors w !! m with
            | Some ed => Ok (get_raw_data (heap w !!! ed))
            | None => match container w !! m with
                      | Some raw => Ok raw
                      | None => Raise (KeyError m)
                      end
            end); simpl; [apply IH | done].
Qed.

(** *** The substitution loops *)

Lemma do_all_file_replace p repl m st raw :
  raw_data st !! m = Some raw ->
  exists st',
    do_all_file regex true p repl m st = Ok st' /\
    count st' = count st + snd (subn regex p repl m raw) /\
    raw_data st' = <[m := pass_text regex p repl m raw]> (raw_data st) /\
    (forall n, n ∈ updates st' <->
       n ∈ updates st \/ (n = m /\ 0 < snd (subn regex p repl m raw))) /\
    visited st' = visited st ++ [(p, m)].
Proof.
  intros Hraw. unfold do_all_file, pass_text. rewrite Hraw.
  destruct (subn regex p repl m raw) as [raw' num]. simpl.
  destruct (bool_decide (0 < num)) eqn:Hnum.
  - apply bool_decide_eq_true in Hnum. eexists. split; [done|]. simpl.
    split_and!; try done. intros n. rewrite elem_of_union, elem_of_singleton.
    split; [intros [->|?]; auto | intros [?|[-> _]]; auto].
  - apply bool_decide_eq_false in Hnum. eexists. split; [done|]. simpl.
    split_and!; try done.
    + by rewrite insert_id.
    + intros n. split; [by left|]. intros [?|[_ ?]]; [done|lia].
Qed.

Lemma do_all_files_replace p repl names st text :
  NoDup names ->
  (forall n, n ∈ names -> raw_data st !! n = Some (text n)) ->
  exists st',
    do_all_files regex true p repl names st = Ok st' /\
    count st'
    = count st
      + sum_list_with (fun n => snd (subn regex p repl n (text n))) names /\
    (forall n, raw_data st' !! n
               = if decide (n ∈ names)
                 then Some (pass_text regex p repl n (text n))
                 else raw_data st !! n) /\
    (forall n, n ∈ updates st' <->
       n ∈ updates st \/
       (n ∈ names /\ 0 < snd (subn regex p repl n (text n)))) /\
    visited st' = visited st ++ (pair p <$> names).
Proof.
  revert st. induction names as [|m names IH]; intros st Hnd Htext.
  - exists st. simpl. split_and!.
    + done.
    + lia.
    + intros n. destruct (decide (n ∈ [])) as [H|]; [|done].
      by apply elem_of_nil in H.
    + intros n. split; [by left|]. intros [?|[H _]]; [done|].
      by apply elem_of_nil in H.
    + by rewrite app_nil_r.
  - apply NoDup_cons in Hnd as [Hm Hnd].
    destruct (do_all_file_replace p repl m st (text m))
      as (st1 & Hstep & Hc1 & Hr1 & Hu1 & Hv1).
    { apply Htext. left. }
    destruct (IH st1 Hnd) as (st' & Hrest & Hc & Hr & Hu & Hv).
    { intros n Hn. rewrite Hr1, lookup_insert_ne.
      - apply Htext. by right.
      - intros ->. done. }
    exists st'. simpl. rewrite Hstep. simpl. split_and!.
    + done.
    + rewrite Hc, Hc1. lia.
    + intros n. rewrite Hr. destruct (decide (n ∈ names)) as [Hin|Hnin].
      * by rewrite decide_True by (by right).
      * rewrite Hr1. destruct (decide (n = m)) as [->|Hne].
        -- rewrite decide_True by left. by rewrite lookup_insert_eq.
        -- rewrite decide_False by (by intros [?|?]%elem_of_cons).
           by rewrite lookup_insert_ne.
    + intros n. rewrite Hu, Hu1, elem_of_cons. split.
      * intros [[?|[-> ?]]|[? ?]]; auto.
      * intros [?|[[->|?] ?]]; auto.
    + rewrite Hv, Hv1, <- app_assoc. done.
Qed.

Lemma doc_passes_cons p repl rest n raw :
  doc_passes regex ((p, repl) :: rest) n raw
  = (fst (doc_passes regex rest n (pass_text regex p repl n raw)),
     snd (subn regex p repl n raw)
     + snd (doc_passes regex rest n (pass_text regex p repl n raw))).
Proof.
  simpl. by destruct (doc_passes regex rest n (pass_text regex p repl n raw)).
Qed.

Lemma do_all_searches_replace searches names st text :
  NoDup names ->
  (forall n, n ∈ names -> raw_data st !! n = Some (text n)) ->
  exists st',
    do_all_searches regex true searches names st = Ok st' /\
    count st'
    = count st
      + sum_list_with (fun n => snd (doc_passes regex searches n (text n)))
          names /\
    (forall n, raw_data st' !! n
               = if decide (n ∈ names)
                 then Some (fst (doc_passes regex searches n (text n)))
                 else raw_data st !! n) /\
    (forall n, n ∈ updates st' <->
       n ∈ updates st \/
       (n ∈ names /\ 0 < snd (doc_passes regex searches n (text n)))) /\
    visited st'
    = visited st ++ flat_map (fun pr => pair (fst pr) <$> names) searches.
Proof.
  intros Hnd. revert st text.
  induction searches as [|[p repl] rest IH]; intros st text Htext.
  - exists st. simpl. split_and!; try done.
    + rewrite (proj2 (sum_list_with_zero _ names)); [lia|done].
    + intros n. destruct (decide (n ∈ names)); [by apply Htext|done].
    + intros n. split; [by left|]. intros [?|[_ ?]]; [done|lia].
    + by rewrite app_nil_r.
  - destruct (do_all_files_replace p repl names st text Hnd Htext)
      as (st1 & Hpass & Hc1 & Hr1 & Hu1 & Hv1).
    destruct (IH st1 (fun n => pass_text regex p repl n (text n)))
      as (st' & Hrest & Hc & Hr & Hu & Hv).
    { intros n Hn. rewrite Hr1. by rewrite decide_True. }
    exists st'. split_and!.
    + simpl. by rewrite Hpass.
    + rewrite Hc, Hc1, <- Nat.add_assoc. f_equal.
      rewrite <- sum_list_with_add. apply sum_list_with_ext. intros n _.
      rewrite (doc_passes_cons p repl rest n (text n)). done.
    + intros n. rewrite Hr. destruct (decide (n ∈ names)) as [Hin|Hnin].
      * by rewrite (doc_passes_cons p repl rest n (text n)).
      * rewrite Hr1. by rewrite decide_False.
    + intros n. rewrite Hu, Hu1.
      rewrite (doc_passes_cons p repl rest n (text n)). simpl. split.
      * intros [[?|[? ?]]|[? ?]]; [auto|right; split; [done|lia]..].
      * intros [?|[Hin Hpos]]; [auto|].
        destruct (decide (0 < snd (subn regex p repl n (text n)))); [auto|].
        right. split; [done|lia].
    + rewrite Hv, Hv1, <- app_assoc. done.
Qed.

Lemma do_all_file_count p repl m st raw :
  raw_data st !! m = Some raw ->
  do_all_file regex false p repl m st
  = Ok {| count := count st + length (findall regex p raw);
          updates := updates st; raw_data := raw_data st;
          visited := visited st ++ [(p, m)] |}.
Proof. intros Hraw. unfold do_all_file. by rewrite Hraw. Qed.

Lemma do_all_files_count p repl names st text :
  (forall n, n ∈ names -> raw_data st !! n = Some (text n)) ->
  do_all_files regex false p repl names st
  = Ok {| count := count st
            + sum_list_with (fun n => length (findall regex p (text n))) names;
          updates := updates st; raw_data := raw_data st;
          visited := visited st ++ (pair p <$> names) |}.
Proof.
  revert st. induction names as [|m names IH]; intros st Htext; simpl.
  - rewrite Nat.add_0_r, app_nil_r. by destruct st.
  - rewrite (do_all_file_count p repl m st (text m)) by (apply Htext; left).
    simpl. rewrite IH by (intros n Hn; apply Htext; by right). simpl.
    do 2 f_equal; [lia | by rewrite <- app_assoc].
Qed.

Lemma do_all_searches_count searches names st text :
  (forall n, n ∈ names -> raw_data st !! n = Some (text n)) ->
  do_all_searches regex false searches names st
  = Ok {| count := count st
            + sum_list_with (fun n => doc_matches regex searches (text n)) names;
          updates := updates st; raw_data := raw_data st;
          visited := visited st
            ++ flat_map (fun pr => pair (fst pr) <$> names) searches |}.
Proof.
  revert st. induction searches as [|[p repl] rest IH]; intros st Htext; simpl.
  - rewrite (proj2 (sum_list_with_zero _ names)) by done.
    rewrite Nat.add_0_r, app_nil_r. by destruct st.
  - rewrite (do_all_files_count p repl names st text Htext). simpl.
    rewrite IH by done. simpl.
    do 2 f_equal; [|by rewrite <- app_assoc].
    rewrite <- Nat.add_assoc. f_equal. by rewrite <- sum_list_with_add.
Qed.

Lemma do_all_file_visited replace p repl m st st' :
  do_all_file regex replace p repl m st = Ok st' ->
  visited st' = visited st ++ [(p, m)].
Proof.
  unfold do_all_file. destruct (raw_data st !! m); [|discriminate].
  destruct replace.
  - destruct (subn regex p repl m s) as [raw' num].
    destruct (bool_decide (0 < num)); by intros [= <-].
  - by intros [= <-].
Qed.

Lemma do_all_files_visited replace p repl names st st' :
  do_all_files regex replace p repl names st = Ok st' ->
  visited st' = visited st ++ (pair p <$> names).
Proof.
  revert st. induction names as [|m names IH]; intros st; simpl.
  - intros [= <-]. by rewrite app_nil_r.
  - intros (st1 & H1 & Hrest)%result_bind_Ok.
    rewrite (IH _ Hrest), (do_all_file_visited _ _ _ _ _ _ H1).
    by rewrite <- app_assoc.
Qed.

Lemma do_all_searches_visited replace searches names st st' :
  do_all_searches regex replace searches names st = Ok st' ->
  visited st'
  = visited st ++ flat_map (fun pr => pair (fst pr) <$> names) searches.
Proof.
  revert st. induction searches as [|[p repl] rest IH]; intros st; simpl.
  - intros [= <-]. by rewrite app_nil_r.
  - intros (st1 & H1 & Hrest)%result_bind_Ok.
    rewrite (IH _ Hrest), (do_all_files_visited _ _ _ _ _ _ H1).
    by rewrite <- app_assoc.
Qed.

(** *** Writing the working set back *)

Lemma write_update_ok rd n w raw :
  registry_injective w ->
  rd !! n = Some raw ->
  exists w',
    write_update rd n w = (Ok (), w') /\
    editors w' = editors w /\ events w' = events w /\
    regex_cache w' = regex_cache w /\ compile_calls w' = compile_calls w /\
    doc_text w' n = Some raw /\
    (forall m, m <> n -> doc_text w' m = doc_text w m).
Proof.
  intros Hinj Hraw. unfold write_update. rewrite Hraw.
  destruct (editors w !! n) as [ed|] eqn:E.
  - eexists. split; [done|]. unfold doc_text. simpl.
    split_and!; try done.
    + rewrite E. by rewrite lookup_total_insert_eq.
    + intros m Hne. destruct (editors w !! m) as [ed'|] eqn:E'; [|done].
      rewrite lookup_total_insert_ne; [done|].
      intros <-. apply Hne. by apply (Hinj m n ed).
  - eexists. split; [done|]. unfold doc_text. simpl.
    split_and!; try done.
    + rewrite E. by rewrite lookup_insert_eq.
    + intros m Hne. destruct (editors w !! m); [done|].
      by rewrite lookup_insert_ne.
Qed.

Lemma write_updates_ok rd names w :
  registry_injective w ->
  NoDup names ->
  (forall n, n ∈ names -> is_Some (rd !! n)) ->
  exists w',
    write_updates rd names w = (Ok (), w') /\
    editors w' = editors w /\ events w' = events w /\
    regex_cache w' = regex_cache w /\ compile_calls w' = compile_calls w /\
    (forall m, doc_text w' m
               = if decide (m ∈ names) then rd !! m else doc_text w m).
Proof.
  revert w. induction names as [|n names IH]; intros w Hinj Hnd Hdom.
  - exists w. simpl. split_and!; done.
  - apply NoDup_cons in Hnd as [Hn Hnd].
    destruct (Hdom n) as [raw Hraw]; [left|].
    destruct (write_update_ok rd n w raw Hinj Hraw)
      as (w1 & Hstep & He1 & Hev1 & Hc1 & Hcc1 & Hn1 & Hother1).
    destruct (IH w1) as (w' & Hrest & He & Hev & Hc & Hcc & Htext).
    { unfold registry_injective. rewrite He1. exact Hinj. }
    { done. }
    { intros m Hm. apply Hdom. by right. }
    exists w'. simpl. rewrite Hstep. split_and!; try congruence.
    intros m. rewrite Htext. destruct (decide (m ∈ names)) as [Hin|Hnin].
    + by rewrite decide_True by (by right).
    + destruct (decide (m = n)) as [->|Hne].
      * rewrite decide_True by left. congruence.
      * rewrite decide_False by (by intros [?|?]%elem_of_cons).
        by apply Hother1.
Qed.

(** *** [do_all] as a whole *)

Lemma do_all_lfiles_keys rq cen w :
  early_return rq = false ->
  exists lfiles,
    do_all_lfiles rq cen w = Ok lfiles /\
    OrderedDict.keys lfiles = candidates rq cen.
Proof.
  unfold early_return, do_all_lfiles, candidates.
  destruct (OrderedDict.nonempty (rq_files rq)); simpl; [eauto|].
  destruct (rq_editor rq); [eauto|]. by rewrite bool_decide_eq_true_2.
Qed.

Lemma candidates_early rq cen : early_return rq = true -> candidates rq cen = [].
Proof.
  unfold early_return, candidates.
  destruct (OrderedDict.nonempty (rq_files rq)); simpl; [discriminate|].
  destruct (rq_editor rq); [|done]. by rewrite bool_decide_eq_false_2.
Qed.

Lemma candidates_NoDup rq cen :
  OrderedDict.wf (rq_files rq) -> NoDup (candidates rq cen).
Proof.
  intros Hwf. unfold candidates.
  destruct (OrderedDict.nonempty (rq_files rq)); [exact Hwf|].
  destruct (rq_editor rq); [apply NoDup_singleton | apply NoDup_nil_2].
Qed.

Lemma flat_map_no_names (cs : list (compiled * replacement)) :
  flat_map (fun pr => pair (fst pr) <$> ([] : list string)) cs = [].
Proof. induction cs as [|c cs IH]; simpl; [done|exact IH]. Qed.

Lemma readable_text w n :
  readable w n -> doc_text w n = Some (default "" (doc_text w n)).
Proof. intros [x Hx]. by rewrite Hx. Qed.

Lemma doc_text_emit e w n : doc_text (emit e w) n = doc_text w n.
Proof. done. Qed.

Lemma do_all_full_replace rq cen errfind cs w :
  registry_injective w ->
  OrderedDict.wf (rq_files rq) ->
  Forall (readable w) (candidates rq cen) ->
  exists st w',
    do_all_full regex rq cen errfind cs true w = (Ok (count st, st), w') /\
    count st
    = sum_list_with
        (fun n => snd (doc_passes regex cs n (default "" (doc_text w n))))
        (candidates rq cen) /\
    (forall n, n ∈ updates st <->
       n ∈ candidates rq cen /\
       0 < snd (doc_passes regex cs n (default "" (doc_text w n)))) /\
    (forall n, n ∈ candidates rq cen ->
       raw_data st !! n
       = Some (fst (doc_passes regex cs n (default "" (doc_text w n))))) /\
    visited st
    = flat_map (fun pr => pair (fst pr) <$> candidates rq cen) cs /\
    editors w' = editors w /\ regex_cache w' = regex_cache w /\
    compile_calls w' = compile_calls w /\
    events w'
    = events w ++ (if early_return rq then []
                   else [count_message "Replaced" (count st) errfind true]) /\
    (forall m, doc_text w' m
               = if decide (m ∈ updates st) then raw_data st !! m
                 else doc_text w m) /\
    (count st = 0 -> heap w' = heap w /\ container w' = container w).
Proof.
  intros Hinj Hwf Hread. unfold do_all_full.
  destruct (early_return rq) eqn:Hearly.
  - rewrite (candidates_early rq cen Hearly).
    eexists {| count := 0; updates := ∅; raw_data := ∅; visited := [] |}, w.
    simpl. split_and!; try done.
    + intros n. split; [intros H; by apply not_elem_of_empty in H|].
      intros [H _]. by apply elem_of_nil in H.
    + intros n H. by apply elem_of_nil in H.
    + by rewrite flat_map_no_names.
    + by rewrite app_nil_r.
  - destruct (do_all_lfiles_keys rq cen w Hearly) as (lfiles & -> & ->).
    destruct (read_raw_data_ok (candidates rq cen) ∅ w Hread)
      as (raw0 & -> & Hraw0).
    destruct (do_all_searches_replace cs (candidates rq cen)
                {| count := 0; updates := ∅; raw_data := raw0; visited := [] |}
                (fun n => default "" (doc_text w n)))
      as (st & -> & Hc & Hr & Hu & Hv).
    { by apply candidates_NoDup. }
    { intros n Hn. simpl. rewrite Hraw0, decide_True by done.
      apply readable_text. by eapply Forall_forall in Hread. }
    simpl in Hc, Hr, Hu, Hv.
    assert (Hu' : forall n, n ∈ updates st <->
               n ∈ candidates rq cen /\
               0 < snd (doc_passes regex cs n (default "" (doc_text w n)))).
    { intros n. rewrite Hu. split; [|auto].
      intros [H|H]; [by apply not_elem_of_empty in H|done]. }
    assert (Hr' : forall n, n ∈ candidates rq cen ->
               raw_data st !! n
               = Some (fst (doc_passes regex cs n (default "" (doc_text w n))))).
    { intros n Hn. by rewrite Hr, decide_True. }
    destruct (write_updates_ok (raw_data st) (elements (updates st)) w Hinj)
      as (w1 & Hwrite & He & Hev & Hca & Hcc & Htext).
    { apply NoDup_elements. }
    { intros n Hn%elem_of_elements. apply Hu' in Hn as [Hn _].
      rewrite (Hr' n Hn). eauto. }
    rewrite Hwrite. exists st. eexists. split; [done|]. simpl.
    split_and!; try done.
    + by rewrite Hev.
    + intros m. rewrite doc_text_emit, Htext.
      destruct (decide (m ∈ updates st)) as [Hin|Hnin].
      * by rewrite decide_True by (by apply elem_of_elements).
      * by rewrite decide_False by (by rewrite elem_of_elements).
    + intros Hzero.
      assert (Hempty : updates st = ∅).
      { apply set_eq. intros n. split; [|intros H; by apply not_elem_of_empty in H].
        intros [Hn Hpos]%Hu'. rewrite Hc in Hzero.
        pose proof (proj1 (sum_list_with_zero _ _) Hzero n Hn). lia. }
      rewrite Hempty, elements_empty in Hwrite. simpl in Hwrite.
      by injection Hwrite as <-.
Qed.

Lemma do_all_full_count rq cen errfind cs w :
  Forall (readable w) (candidates rq cen) ->
  exists st,
    do_all_full regex rq cen errfind cs false w
    = (Ok (count st, st),
       if early_return rq then w
       else emit (count_message "Found" (count st) errfind false) w) /\
    count st
    = sum_list_with
        (fun n => doc_matches regex cs (default "" (doc_text w n)))
        (candidates rq cen) /\
    visited st
    = flat_map (fun pr => pair (fst pr) <$> candidates rq cen) cs.
Proof.
  intros Hread. unfold do_all_full.
  destruct (early_return rq) eqn:Hearly.
  - rewrite (candidates_early rq cen Hearly).
    exists {| count := 0; updates := ∅; raw_data := ∅; visited := [] |}.
    simpl. split_and!; try done. by rewrite flat_map_no_names.
  - destruct (do_all_lfiles_keys rq cen w Hearly) as (lfiles & -> & ->).
    destruct (read_raw_data_ok (candidates rq cen) ∅ w Hread)
      as (raw0 & -> & Hraw0).
    rewrite (do_all_searches_count cs (candidates rq cen) _
               (fun n => default "" (doc_text w n))).
    + simpl. rewrite elements_empty. simpl.
      eexists {| count := _; updates := _; raw_data := _; visited := _ |}.
      simpl. split; [reflexivity|]. done.
    + intros n Hn. simpl. rewrite Hraw0, decide_True by done.
      apply readable_text. by eapply Forall_forall in Hread.
Qed.

Lemma do_all_count_cases rq cen errfind cs w :
  (Forall (readable w) (candidates rq cen) /\
   do_all regex rq cen errfind cs false w
   = (Ok (sum_list_with
            (fun n => doc_matches regex cs (default "" (doc_text w n)))
            (candidates rq cen)),
      if early_return rq then w
      else emit (count_message "Found"
                   (sum_list_with
                      (fun n => doc_matches regex cs (default "" (doc_text w n)))
                      (candidates rq cen)) errfind false) w)) \/
  (exists e, do_all regex rq cen errfind cs false w = (Raise e, w)).
Proof.
  destruct (read_raw_data (candidates rq cen) ∅ w) as [raw0|e] eqn:E.
  - left. apply read_raw_data_inv in E as Hread. split; [done|].
    destruct (do_all_full_count rq cen errfind cs w Hread)
      as (st & Heq & Hc & _).
    unfold do_all. rewrite Heq, Hc. done.
  - right. exists e. unfold do_all, do_all_full.
    destruct (early_return rq) eqn:Hearly.
    + rewrite (candidates_early rq cen Hearly) in E. discriminate.
    + destruct (do_all_lfiles_keys rq cen w Hearly) as (lfiles & -> & ->).
      by rewrite E.
Qed.

(** *** Marked text *)

Lemma sum_all_in_marked_ok with_repl ed cs w :
  exists w',
    sum_all_in_marked all_in_marked with_repl (Some ed) cs w
    = (Ok (fst (marked_passes all_in_marked with_repl cs (heap w !!! ed))), w') /\
    editors w' = editors w /\ container w' = container w /\
    events w' = events w /\ regex_cache w' = regex_cache w /\
    compile_calls w' = compile_calls w /\
    heap w' !!! ed
    = snd (marked_passes all_in_marked with_repl cs (heap w !!! ed)) /\
    (forall ed', ed' <> ed -> heap w' !! ed' = heap w !! ed').
Proof.
  revert w. induction cs as [|[p repl] rest IH]; intros w.
  - exists w. simpl. split_and!; done.
  - simpl.
    destruct (all_in_marked p (if with_repl then Some repl else None)
                (heap w !!! ed)) as [obj num] eqn:E.
    destruct (IH (with_heap (<[ed := obj]> (heap w)) w))
      as (w' & Hrest & He & Hc & Hev & Hca & Hcc & Hobj & Hother).
    simpl in Hrest, Hobj, Hother. rewrite lookup_total_insert_eq in Hrest, Hobj.
    exists w'. rewrite Hrest.
    destruct (marked_passes all_in_marked with_repl rest obj) as [total final].
    simpl. split_and!; try done.
    intros ed' Hne. rewrite Hother by done. by rewrite lookup_insert_ne.
Qed.

(** *** Well-formed scopes *)

Lemma od_set_keys k v d :
  OrderedDict.keys (OrderedDict.set k v d)
  = if decide (k ∈ OrderedDict.keys d) then OrderedDict.keys d
    else OrderedDict.keys d ++ [k].
Proof.
  induction d as [|[k' v'] d IH].
  - by destruct (decide (k ∈ OrderedDict.keys [])) as [H%elem_of_nil|].
  - unfold OrderedDict.keys in *. cbn [OrderedDict.set].
    destruct (String.eqb_spec k k') as [->|Hne]; rewrite !fmap_cons; cbn [fst].
    + by rewrite decide_True by left.
    + rewrite IH. destruct (decide (k ∈ fst <$> d)) as [Hin|Hnin].
      * by rewrite decide_True by (by right).
      * by rewrite decide_False by (by intros [?|?]%elem_of_cons).
Qed.

Lemma od_of_pairs_wf ps : OrderedDict.wf (OrderedDict.of_pairs ps).
Proof.
  unfold OrderedDict.of_pairs, OrderedDict.wf.
  assert (H : forall acc, NoDup (OrderedDict.keys acc) ->
            NoDup (OrderedDict.keys
                     (fold_left (fun d kv => OrderedDict.set (fst kv) (snd kv) d)
                        ps acc))).
  { induction ps as [|[k v] ps IH]; intros acc Hacc; simpl; [done|].
    apply IH. rewrite od_set_keys.
    destruct (decide (k ∈ OrderedDict.keys acc)); [done|].
    apply NoDup_app. split_and!; [done| |apply NoDup_singleton].
    intros x Hx ->%list_elem_of_singleton. done. }
  apply H. apply NoDup_nil_2.
Qed.

Lemma initialize_search_request_wf state action ce cen sn rq :
  (forall wh, OrderedDict.wf (sn wh)) ->
  initialize_search_request state action ce cen sn = Ok rq ->
  OrderedDict.wf (rq_files rq).
Proof.
  intros Hsn. unfold initialize_search_request.
  destruct (where_ state); try (intros [= <-]; apply NoDup_nil_2);
    (destruct (OrderedDict.contains cen _);
     [intros (idx & _ & (ps & _ & [= <-])%result_bind_Ok)%result_bind_Ok;
      apply od_of_pairs_wf
     |intros [= <-]; apply Hsn]).
Qed.

Lemma initialize_marked state action ce cen sn rq :
  initialize_search_request state action ce cen sn = Ok rq ->
  rq_marked rq = bool_decide (where_ state = where_selected_text).
Proof.
  unfold initialize_search_request.
  destruct (where_ state); try (by intros [= <-]);
    (destruct (OrderedDict.contains cen _);
     [by intros (idx & _ & (ps & _ & [= <-])%result_bind_Ok)%result_bind_Ok
     |by intros [= <-]]).
Qed.

Lemma doc_text_ext w w' :
  heap w' = heap w -> editors w' = editors w -> container w' = container w ->
  doc_text w' = doc_text w.
Proof. intros Hh He Hc. unfold doc_text. by rewrite Hh, He, Hc. Qed.

Lemma do_all_full_visited rq cen errfind cs replace w n st w' :
  do_all_full regex rq cen errfind cs replace w = (Ok (n, st), w') ->
  visited st = flat_map (fun pr => pair (fst pr) <$> candidates rq cen) cs.
Proof.
  unfold do_all_full. destruct (early_return rq) eqn:Hearly.
  - intros [= <- <- <-]. rewrite (candidates_early rq cen Hearly).
    by rewrite flat_map_no_names.
  - destruct (do_all_lfiles_keys rq cen w Hearly) as (lfiles & -> & ->).
    destruct (read_raw_data (candidates rq cen) ∅ w); [|discriminate].
    destruct (do_all_searches regex replace cs (candidates rq cen) _)
      as [st1|] eqn:E; [|discriminate].
    destruct (write_updates (raw_data st1) (elements (updates st1)) w)
      as [[[]|] w1]; [|discriminate].
    intros [= <- <- <-]. by rewrite (do_all_searches_visited _ _ _ _ _ E).
Qed.

(** Replace-all outside marked text, once the searches compile and the
    candidate files can be read: when no occurrence is substituted, no
    document changes and the savepoint taken before is rewound; when some
    are, the savepoint stays, every document with a substitution holds its
    new text, every other document is unchanged, and the book is marked as
    modified. *)
Lemma replace_all_when_readable search0 rest ce cen sn w rq cs w1 :
  where_ search0 <> where_selected_text ->
  (forall wh, OrderedDict.wf (sn wh)) ->
  registry_injective w ->
  initialize_search_request search0 act_replace_all ce cen sn = Ok rq ->
  compile_searches regex replace_functions (search0 :: rest) w = (Ok cs, w1) ->
  Forall (readable w) (candidates rq cen) ->
  let text n := default "" (doc_text w n) in
  let total :=
    sum_list_with (fun n => snd (doc_passes regex cs n (text n)))
      (candidates rq cen) in
  let changed n :=
    n ∈ candidates rq cen /\ 0 < snd (doc_passes regex cs n (text n)) in
  exists w' msgs,
    run_search regex replace_functions all_in_marked do_find do_replace
      (search0 :: rest) act_replace_all ce cen sn w
    = (Ok RNone, w') /\
    Forall (fun e => checkpoint_event e = false) msgs /\
    (total = 0 ->
       events w'
       = events w ++ [add_savepoint "Before: Replace all"] ++ msgs
           ++ [rewind_savepoint] /\
       heap w' = heap w /\ editors w' = editors w /\
       container w' = container w /\
       (forall n, doc_text w' n = doc_text w n)) /\
    (0 < total ->
       events w'
       = events w ++ [add_savepoint "Before: Replace all"] ++ msgs
           ++ [set_modified] /\
       (forall n, changed n ->
          doc_text w' n = Some (fst (doc_passes regex cs n (text n)))) /\
       (forall n, ~ changed n -> doc_text w' n = doc_text w n)).
Proof.
  intros Hwhere Hsn Hinj Hinit Hcomp Hread text total changed.
  subst text total changed. cbv beta.
  pose proof (compile_searches_frame _ _ _ _ Hcomp) as (Hh1 & He1 & Hc1 & Hev1 & _).
  pose proof (initialize_search_request_wf _ _ _ _ _ _ Hsn Hinit) as Hwf.
  pose proof (initialize_marked _ _ _ _ _ _ Hinit) as Hmarked.
  rewrite bool_decide_eq_false_2 in Hmarked by done.
  set (w2 := emit (add_savepoint "Before: Replace all") w1).
  assert (Hh2 : heap w2 = heap w) by exact Hh1.
  assert (He2 : editors w2 = editors w) by exact He1.
  assert (Hc2 : container w2 = container w) by exact Hc1.
  assert (Hdt : doc_text w2 = doc_text w) by (by apply doc_text_ext).
  destruct (do_all_full_replace rq cen
              (if bool_decide (1 < length (search0 :: rest))
               then "the selected searches" else find search0) cs w2)
    as (st & w3 & Hfull & Hc & Hu & Hr & _ & He3 & _ & _ & Hev3 & Htext & Hzero).
  { unfold registry_injective. simpl. rewrite He1. exact Hinj. }
  { done. }
  { eapply Forall_impl; [exact Hread|]. intros n. unfold readable.
    by rewrite Hdt. }
  rewrite Hdt in Hc, Hu, Hr, Htext.
  exists (emit (if bool_decide (count st = 0) then rewind_savepoint
                else set_modified) w3),
    (if early_return rq then []
     else [count_message "Replaced" (count st)
             (if bool_decide (1 < length (search0 :: rest))
              then "the selected searches" else find search0) true]).
  split_and!.
  - assert (Hscope : run_search_scope (search0 :: rest) act_replace_all ce cen sn
                     = Ok (rq, wrap search0)).
    { unfold run_search_scope. by rewrite Hinit. }
    unfold run_search. rewrite Hscope, Hcomp, Hmarked. fold w2.
    unfold do_all. rewrite Hfull.
    by destruct (bool_decide (count st = 0)).
  - destruct (early_return rq); repeat constructor.
  - intros Htotal. rewrite <- Hc in Htotal.
    destruct (Hzero Htotal) as [Hh3 Hc3].
    rewrite bool_decide_eq_true_2 by done.
    assert (Hev : events (emit rewind_savepoint w3)
                  = events w ++ [add_savepoint "Before: Replace all"]
                      ++ (if early_return rq then []
                          else [count_message "Replaced" (count st)
                                  (if bool_decide (1 < length (search0 :: rest))
                                   then "the selected searches"
                                   else find search0) true])
                      ++ [rewind_savepoint]).
    { simpl. rewrite Hev3. simpl. rewrite Hev1. by rewrite <- !app_assoc. }
    split_and!; [exact Hev| simpl; congruence..|].
    intros n. rewrite doc_text_emit.
    rewrite (doc_text_ext w w3); [done|congruence..].
  - intros Htotal. rewrite <- Hc in Htotal.
    rewrite bool_decide_eq_false_2 by lia.
    assert (Hev : events (emit set_modified w3)
                  = events w ++ [add_savepoint "Before: Replace all"]
                      ++ (if early_return rq then []
                          else [count_message "Replaced" (count st)
                                  (if bool_decide (1 < length (search0 :: rest))
                                   then "the selected searches"
                                   else find search0) true])
                      ++ [set_modified]).
    { simpl. rewrite Hev3. simpl. rewrite Hev1. by rewrite <- !app_assoc. }
    split_and!; [exact Hev| |].
    + intros n Hn. rewrite doc_text_emit.
      rewrite Htext, decide_True by (by apply Hu).
      apply Hr. by destruct Hn.
    + intros n Hn. rewrite doc_text_emit.
      rewrite Htext, decide_False; [done|]. by rewrite Hu.
Qed.

(** C7. In the replace-all loops the patterns are applied in request order,
    pattern by pattern over all the files; the text a file ends with is the
    result of the successive substitutions, each applied to the text the
    previous ones left, and the total reported is the sum of the
    substitution counts over all patterns and all files. *)
Theorem replace_all_composes_patterns rq cen errfind cs w :
  registry_injective w ->
  OrderedDict.wf (rq_files rq) ->
  early_return rq = false ->
  Forall (readable w) (candidates rq cen) ->
  exists st w',
    do_all_full regex rq cen errfind cs true w = (Ok (count st, st), w') /\
    visited st = flat_map (fun pr => pair (fst pr) <$> candidates rq cen) cs /\
    (forall n raw, n ∈ candidates rq cen -> doc_text w n = Some raw ->
       raw_data st !! n = Some (fst (doc_passes regex cs n raw)) /\
       (0 < snd (doc_passes regex cs n raw) ->
        doc_text w' n = Some (fst (doc_passes regex cs n raw)))) /\
    count st
    = sum_list_with
        (fun n => snd (doc_passes regex cs n (default "" (doc_text w n))))
        (candidates rq cen) /\
    events w' = events w ++ [count_message "Replaced" (count st) errfind true].
Proof.
  intros Hinj Hwf Hearly Hread.
  destruct (do_all_full_replace rq cen errfind cs w Hinj Hwf Hread)
    as (st & w' & Hfull & Hc & Hu & Hr & Hv & _ & _ & _ & Hev & Htext & _).
  rewrite Hearly in Hev.
  exists st, w'. split_and!; try done.
  intros n raw Hn Hraw. specialize (Hr n Hn). specialize (Hu n).
  rewrite Hraw in Hr, Hu. simpl in Hr, Hu. split; [done|].
  intros Hpos. rewrite Htext, decide_True; [done|]. by apply Hu.
Qed.

Lemma do_all_count_ok rq cen errfind cs w :
  Forall (readable w) (candidates rq cen) ->
  do_all regex rq cen errfind cs false w
  = (Ok (sum_list_with
           (fun n => doc_matches regex cs (default "" (doc_text w n)))
           (candidates rq cen)),
     if early_return rq then w
     else emit (count_message "Found"
                  (sum_list_with
                     (fun n => doc_matches regex cs (default "" (doc_text w n)))
                     (candidates rq cen)) errfind false) w).
Proof.
  intros Hread.
  destruct (do_all_full_count rq cen errfind cs w Hread) as (st & Heq & Hc & _).
  unfold do_all. by rewrite Heq, Hc.
Qed.

Lemma run_search_scope_cons search0 rest action ce cen sn :
  exists rq,
    initialize_search_request search0 action ce cen sn = Ok rq /\
    run_search_scope (search0 :: rest) action ce cen sn = Ok (rq, wrap search0).
Proof.
  destruct (initialize_search_request_total search0 action ce cen sn)
    as [rq Hrq].
  exists rq. split; [done|]. unfold run_search_scope. by rewrite Hrq.
Qed.

(** C8. Counting outside marked text changes no document and touches no
    checkpoint: whatever the outcome, the editors, their buffers and the
    files of the container are as before, and only messages are shown; a
    count that returned a total returns the same total when run again; and
    the loops visit the same (pattern, file) pairs as replace-all does. *)
Theorem count_changes_nothing search0 rest ce cen sn w r w' :
  where_ search0 <> where_selected_text ->
  run_search regex replace_functions all_in_marked do_find do_replace
    (search0 :: rest) act_count ce cen sn w = (r, w') ->
  heap w' = heap w /\ editors w' = editors w /\ container w' = container w /\
  (forall n, doc_text w' n = doc_text w n) /\
  (exists msgs,
     events w' = events w ++ msgs /\
     Forall (fun e => checkpoint_event e = false) msgs) /\
  (forall total,
     r = Ok (RInt total) ->
     (forall rq cs w1,
        initialize_search_request search0 act_count ce cen sn = Ok rq ->
        compile_searches regex replace_functions (search0 :: rest) w
        = (Ok cs, w1) ->
        total
        = sum_list_with
            (fun n => doc_matches regex cs (default "" (doc_text w n)))
            (candidates rq cen)) /\
     exists w'',
       run_search regex replace_functions all_in_marked do_find do_replace
         (search0 :: rest) act_count ce cen sn w'
       = (Ok (RInt total), w'')) /\
  (forall rq cs errfind n_c st_c w_c n_r st_r w_r,
     do_all_full regex rq cen errfind cs false w = (Ok (n_c, st_c), w_c) ->
     do_all_full regex rq cen errfind cs true w = (Ok (n_r, st_r), w_r) ->
     visited st_c = visited st_r).
Proof.
  intros Hwhere Hrun.
  assert (Hframe :
    heap w' = heap w /\ editors w' = editors w /\ container w' = container w /\
    (exists msgs,
       events w' = events w ++ msgs /\
       Forall (fun e => checkpoint_event e = false) msgs) /\
    (forall total,
       r = Ok (RInt total) ->
       (forall rq cs w1,
          initialize_search_request search0 act_count ce cen sn = Ok rq ->
          compile_searches regex replace_functions (search0 :: rest) w
          = (Ok cs, w1) ->
          total
          = sum_list_with
              (fun n => doc_matches regex cs (default "" (doc_text w n)))
              (candidates rq cen)) /\
       exists w'',
         run_search regex replace_functions all_in_marked do_find do_replace
           (search0 :: rest) act_count ce cen sn w'
         = (Ok (RInt total), w''))).
  { unfold run_search in *.
    destruct (run_search_scope_cons search0 rest act_count ce cen sn)
      as (rq & Hinit & Hscope).
    rewrite Hscope in *.
    pose proof (initialize_marked _ _ _ _ _ _ Hinit) as Hmarked.
    rewrite bool_decide_eq_false_2 in Hmarked by done.
    destruct (compile_searches regex replace_functions (search0 :: rest) w)
      as [[cs|e] w1] eqn:Hcomp.
    - pose proof (compile_searches_frame _ _ _ _ Hcomp)
        as (Hh1 & He1 & Hc1 & Hev1 & Hsub1).
      rewrite Hmarked in Hrun.
      set (errfind := if bool_decide (1 < length (search0 :: rest))
                      then "the selected searches" else find search0) in *.
      destruct (do_all_count_cases rq cen errfind cs w1)
        as [[Hread Hall]|[e Hall]]; rewrite Hall in Hrun;
        injection Hrun as <- <-.
      + set (total := sum_list_with
               (fun n => doc_matches regex cs (default "" (doc_text w1 n)))
               (candidates rq cen)) in *.
        set (w_end := if early_return rq then w1
                      else emit (count_message "Found" total errfind false) w1).
        assert (Hend : heap w_end = heap w1 /\ editors w_end = editors w1 /\
                       container w_end = container w1 /\
                       regex_cache w_end = regex_cache w1 /\
                       exists msgs, events w_end = events w1 ++ msgs /\
                         Forall (fun e => checkpoint_event e = false) msgs).
        { subst w_end. destruct (early_return rq); simpl; split_and!; try done.
          - exists []. rewrite app_nil_r. split; [done|constructor].
          - eexists [_]. split; [done|]. by repeat constructor. }
        destruct Hend as (Hh & He & Hc & Hca & msgs & Hev & Hmsgs).
        split_and!; try congruence.
        * exists msgs. split; [congruence|done].
        * intros total' [= <-]. split.
          { intros rq' cs' w1' Hinit' [= <- <-].
            rewrite Hinit in Hinit'. injection Hinit' as <-.
            subst total. by rewrite (doc_text_ext w w1). }
          rewrite (compile_searches_again _ _ _ _ w_end Hcomp)
            by (by rewrite Hca).
          rewrite Hmarked.
          assert (Hdt : doc_text w_end = doc_text w1) by (by apply doc_text_ext).
          rewrite (do_all_count_ok rq cen errfind cs w_end).
          -- rewrite Hdt. fold total. eauto.
          -- eapply Forall_impl; [exact Hread|]. intros n. unfold readable.
             by rewrite Hdt.
      + split_and!; try done.
        exists []. rewrite app_nil_r. split; [congruence|constructor].
    - pose proof (compile_searches_frame _ _ _ _ Hcomp)
        as (Hh1 & He1 & Hc1 & Hev1 & Hsub1).
      destruct e; injection Hrun as <- <-; simpl;
        (split_and!; [done|done|done| |done]).
      1-4: exists []; rewrite app_nil_r; split; [congruence|constructor].
      all: eexists [_]; rewrite Hev1; split; [done|]; by repeat constructor. }
  destruct Hframe as (Hh & He & Hc & Hmsgs & Hagain).
  split_and!; try done.
  - intros n. by rewrite (doc_text_ext w w').
  - intros rq cs errfind n_c st_c w_c n_r st_r w_r Hc_run Hr_run.
    rewrite (do_all_full_visited _ _ _ _ _ _ _ _ _ Hc_run).
    by rewrite (do_all_full_visited _ _ _ _ _ _ _ _ _ Hr_run).
Qed.

Lemma flat_map_names_snd (cs cs' : list (compiled * replacement))
    (names : list string) :
  length cs = length cs' ->
  snd <$> flat_map (fun pr => pair (fst pr) <$> names) cs
  = snd <$> flat_map (fun pr => pair (fst pr) <$> names) cs'.
Proof.
  revert cs'. induction cs as [|c cs IH]; intros [|c' cs'] Hlen;
    try discriminate; simpl; [done|].
  rewrite !fmap_app, <- !list_fmap_compose. simpl.
  f_equal. apply IH. by injection Hlen.
Qed.

(** C9. A run over several searches takes its scope from the first one
    only: its where, direction and wrap fields fix the starting editor, the
    ordered list of files, the exhaustive and marked flags and the wrap
    setting, whatever the other searches hold, and with them the order in
    which the files are visited. *)
Theorem scope_depends_on_first_search s0 s0' rest rest' action ce cen sn :
  where_ s0 = where_ s0' ->
  direction s0 = direction s0' ->
  wrap s0 = wrap s0' ->
  run_search_scope (s0 :: rest) action ce cen sn
  = run_search_scope (s0' :: rest') action ce cen sn /\
  (forall rq wr errfind errfind' cs cs' replace w w' n st w1 n' st' w1',
     run_search_scope (s0 :: rest) action ce cen sn = Ok (rq, wr) ->
     length cs = length cs' ->
     do_all_full regex rq cen errfind cs replace w = (Ok (n, st), w1) ->
     do_all_full regex rq cen errfind' cs' replace w' = (Ok (n', st'), w1') ->
     snd <$> visited st = snd <$> visited st').
Proof.
  intros Hwhere Hdir Hwrap. split.
  - unfold run_search_scope, initialize_search_request.
    by rewrite Hwhere, Hdir, Hwrap.
  - intros rq wr errfind errfind' cs cs' replace w w' n st w1 n' st' w1'
      _ Hlen H1 H2.
    rewrite (do_all_full_visited _ _ _ _ _ _ _ _ _ H1).
    rewrite (do_all_full_visited _ _ _ _ _ _ _ _ _ H2).
    by apply flat_map_names_snd.
Qed.

(** C10. Replace-all in marked text takes no savepoint, rewinds none and
    does not mark the book as modified: the only calls it makes show a
    message. When the searches compile and an editor is current, it calls
    the editor once per search, in order, and reports the sum of the
    counts. *)
Theorem marked_replace_all_skips_checkpoint search0 rest ce cen sn w r w' :
  where_ search0 = where_selected_text ->
  run_search regex replace_functions all_in_marked do_find do_replace
    (search0 :: rest) act_replace_all ce cen sn w = (r, w') ->
  (exists msgs,
     events w' = events w ++ msgs /\
     Forall (fun e => checkpoint_event e = false) msgs) /\
  container w' = container w /\ editors w' = editors w /\
  (forall cs w1 ed,
     compile_searches regex replace_functions (search0 :: rest) w = (Ok cs, w1) ->
     ce = Some ed ->
     r = Ok RNone /\
     (exists query,
        events w'
        = events w
          ++ [count_message "Replaced"
                (fst (marked_passes all_in_marked true cs (heap w !!! ed)))
                query false]) /\
     heap w' !!! ed
     = snd (marked_passes all_in_marked true cs (heap w !!! ed)) /\
     (forall ed', ed' <> ed -> heap w' !! ed' = heap w !! ed')).
Proof.
  intros Hwhere Hrun.
  assert (Hscope : exists do_all,
             run_search_scope (search0 :: rest) act_replace_all ce cen sn
             = Ok ({| rq_editor := ce; rq_where := where_selected_text;
                      rq_files := []; rq_do_all := do_all;
                      rq_marked := true |}, wrap search0)).
  { unfold run_search_scope, initialize_search_request. rewrite Hwhere. eauto. }
  destruct Hscope as [do_all' Hscope].
  unfold run_search in Hrun. rewrite Hscope in Hrun.
  cbn [rq_marked rq_editor] in Hrun.
  destruct (compile_searches regex replace_functions (search0 :: rest) w)
    as [[cs|e] w1] eqn:Hcomp;
    pose proof (compile_searches_frame _ _ _ _ Hcomp)
      as (Hh1 & He1 & Hc1 & Hev1 & _).
  - destruct ce as [ed|].
    + destruct (sum_all_in_marked_ok true ed cs w1)
        as (w2 & Hsum & He2 & Hc2 & Hev2 & _ & _ & Hobj & Hother).
      rewrite Hsum in Hrun. injection Hrun as <- <-. simpl.
      rewrite Hh1 in *. split_and!; try congruence.
      * eexists [_]. split; [by rewrite Hev2, Hev1|]. by repeat constructor.
      * intros cs' w1' ed' [= <- <-] [= <-]. split_and!; try done.
        eexists. by rewrite Hev2, Hev1.
    + destruct cs as [|[p repl] cs]; simpl in Hrun; injection Hrun as <- <-;
        simpl; (split_and!; [|congruence|congruence|by intros ? ? ? _ [=]]).
      * eexists [_]. split; [by rewrite Hev1|]. by repeat constructor.
      * exists []. rewrite app_nil_r. split; [congruence|constructor].
  - destruct e; injection Hrun as <- <-; simpl;
      (split_and!; [|congruence|congruence|by intros ? ? ? [=]]).
    1-4: exists []; rewrite app_nil_r; split; [congruence|constructor].
    all: eexists [_]; rewrite Hev1; split; [done|]; by repeat constructor.
Qed.

End AllProperties.

(** ** The properties on the small instance *)

Lemma demo_flags_independent : flags_independent Demo.engine.
Proof.
  exists [8; 11; 14; 3; 5; 1; 4; 10]%Z. split_and!.
  - apply (bool_decide_unpack _). vm_compute. exact I.
  - repeat constructor; lia.
  - reflexivity.
Defined.

Lemma demo_cache_wf : cache_wf Demo.w0.
Proof. intros flags raw p H. simpl in H. rewrite lookup_empty in H. discriminate. Defined.

Lemma demo_registry_injective : registry_injective Demo.w0.
Proof.
  intros n1 n2 ed H1 H2. simpl in H1, H2.
  apply lookup_singleton_Some in H1 as [<- _].
  apply lookup_singleton_Some in H2 as [<- _]. reflexivity.
Defined.

Lemma demo_names_wf : forall wh, OrderedDict.wf (Demo.names wh).
Proof. intros wh. apply (bool_decide_unpack _). vm_compute. exact I. Defined.

Lemma demo_readable :
  Forall (readable Demo.w0) ["b.html"; "c.html"; "d.html"; "a.html"].
Proof. repeat constructor; unfold readable; vm_compute; eauto. Defined.

Lemma compiled_flags_and_text_witness :
  exists p w',
    get_search_regex Demo.engine (Demo.state dir_up false) Demo.w0 = (Ok p, w') /\
    has_flag (REVERSE Demo.engine) (pat_flags p) = true /\
    has_flag (IGNORECASE Demo.engine) (pat_flags p) = false /\
    has_flag (DOTALL Demo.engine) (pat_flags p) = false /\
    pat_text p = "foo".
Proof.
  assert (Hget : get_search_regex Demo.engine (Demo.state dir_up false) Demo.w0
                 = (Ok {| pat_id := 0; pat_flags := 19752; pat_text := "foo" |},
                    snd (get_search_regex Demo.engine (Demo.state dir_up false)
                           Demo.w0)))
    by (vm_compute; reflexivity).
  destruct (compiled_flags_and_text Demo.engine _ _ _ _ demo_flags_independent
              demo_cache_wf Hget) as (_ & _ & _ & _ & _ & Hi & Hd & Hr & Ht).
  eexists _, _. split; [exact Hget|]. split_and!; assumption.
Defined.

Lemma same_key_hits_cache_witness :
  let state2 := {| find := "foo"; replace := "other"; mode := mode_normal;
                   case_sensitive := true; dot_all := true;
                   direction := dir_down; wrap := false;
                   where_ := where_current |} in
  let w1 := snd (get_search_regex Demo.engine (Demo.state dir_down true) Demo.w0) in
  let w2 := lookups Demo.engine [Demo.state dir_up true] w1 in
  get_search_regex Demo.engine state2 w2
  = (Ok {| pat_id := 0; pat_flags := 18728; pat_text := "foo" |}, w2).
Proof.
  intros state2 w1 w2.
  apply (same_key_hits_cache Demo.engine (Demo.state dir_down true) state2
           [Demo.state dir_up true] Demo.w0 _ w1).
  - reflexivity.
  - vm_compute. reflexivity.
Defined.

Lemma replace_all_when_readable_example :
  exists w',
    Demo.run [Demo.state dir_down true] act_replace_all Demo.w0 = (Ok RNone, w') /\
    doc_text w' "a.html" = Some "baz bar" /\
    doc_text w' "b.html" = Some "bar baz" /\
    doc_text w' "c.html" = Some "bar".
Proof.
  destruct (replace_all_when_readable Demo.engine Demo.functions
              Demo.all_in_marked Demo.no_find Demo.no_replace
              (Demo.state dir_down true) [] (Some 7) "a.html" Demo.names Demo.w0
              {| rq_editor := Some 7; rq_where := where_text;
                 rq_files := [("b.html", "html"); ("c.html", "html");
                              ("d.html", "html"); ("a.html", "html")];
                 rq_do_all := true; rq_marked := false |}
              [({| pat_id := 0; pat_flags := 18728; pat_text := "foo" |},
                Template "baz")]
              (snd (compile_searches Demo.engine Demo.functions
                      [Demo.state dir_down true] Demo.w0)))
    as (w' & msgs & Hrun & _ & _ & Hpos).
  - discriminate.
  - exact demo_names_wf.
  - exact demo_registry_injective.
  - reflexivity.
  - vm_compute. reflexivity.
  - exact demo_readable.
  - exists w'. split; [exact Hrun|].
    destruct Hpos as (_ & Hchanged & Hsame); [vm_compute; lia|].
    split_and!.
    + rewrite Hchanged; [reflexivity|]. split; [|vm_compute; lia].
      apply (bool_decide_unpack _). vm_compute. exact I.
    + rewrite Hchanged; [reflexivity|]. split; [|vm_compute; lia].
      apply (bool_decide_unpack _). vm_compute. exact I.
    + rewrite Hsame; [reflexivity|]. intros [_ H]. vm_compute in H. lia.
Defined.

Lemma replace_all_composes_patterns_witness :
  exists st w',
    do_all_full Demo.engine
      {| rq_editor := Some 7; rq_where := where_text;
         rq_files := [("b.html", "html"); ("a.html", "html")];
         rq_do_all := true; rq_marked := false |}
      "a.html" "the selected searches"
      [({| pat_id := 0; pat_flags := 18728; pat_text := "foo" |}, Template "bar");
       ({| pat_id := 1; pat_flags := 18728; pat_text := "bar" |}, Template "qux")]
      true Demo.w0
    = (Ok (count st, st), w') /\
    count st = 6 /\
    doc_text w' "a.html" = Some "qux qux".
Proof.
  destruct (replace_all_composes_patterns Demo.engine
      {| rq_editor := Some 7; rq_where := where_text;
         rq_files := [("b.html", "html"); ("a.html", "html")];
         rq_do_all := true; rq_marked := false |}
      "a.html" "the selected searches"
      [({| pat_id := 0; pat_flags := 18728; pat_text := "foo" |}, Template "bar");
       ({| pat_id := 1; pat_flags := 18728; pat_text := "bar" |}, Template "qux")]
      Demo.w0)
    as (st & w' & Hrun & _ & Htext & Hcount & _).
  - exact demo_registry_injective.
  - apply (bool_decide_unpack _). vm_compute. exact I.
  - reflexivity.
  - repeat constructor; unfold readable; vm_compute; eauto.
  - exists st, w'. split_and!; [exact Hrun|rewrite Hcount; reflexivity|].
    destruct (Htext "a.html" "foo bar") as [_ Hdoc].
    + apply (bool_decide_unpack _). vm_compute. exact I.
    + reflexivity.
    + rewrite Hdoc; [reflexivity|vm_compute; lia].
Defined.

Lemma count_changes_nothing_witness :
  let w' := snd (Demo.run [Demo.state dir_down true] act_count Demo.w0) in
  heap w' = heap Demo.w0 /\ container w' = container Demo.w0 /\
  exists w'', Demo.run [Demo.state dir_down true] act_count w' = (Ok (RInt 4), w'').
Proof.
  intros w'.
  destruct (count_changes_nothing Demo.engine Demo.functions Demo.all_in_marked
              Demo.no_find Demo.no_replace (Demo.state dir_down true) []
              (Some 7) "a.html" Demo.names Demo.w0 (Ok (RInt 4)) w')
    as (Hh & _ & Hc & _ & _ & Hagain & _).
  - discriminate.
  - vm_compute. reflexivity.
  - split_and!; [exact Hh|exact Hc|]. by apply Hagain.
Defined.

Lemma scope_depends_on_first_search_witness :
  run_search_scope
    [Demo.state dir_down true; Demo.state dir_up false] act_find
    (Some 7) "b.html" Demo.names
  = run_search_scope
      [Demo.state dir_down true;
       {| find := "bar"; replace := ""; mode := mode_regex;
          case_sensitive := false; dot_all := true; direction := dir_down;
          wrap := true; where_ := where_current |}] act_find
      (Some 7) "b.html" Demo.names.
Proof.
  apply (scope_depends_on_first_search Demo.engine (Demo.state dir_down true)
           (Demo.state dir_down true)); reflexivity.
Defined.

Lemma marked_replace_all_skips_checkpoint_witness :
  let marked := {| find := "foo"; replace := "baz"; mode := mode_normal;
                   case_sensitive := true; dot_all := false;
                   direction := dir_down; wrap := true;
                   where_ := where_selected_text |} in
  let w' := snd (Demo.run [marked] act_replace_all Demo.w0) in
  exists msgs,
    events w' = events Demo.w0 ++ msgs /\
    Forall (fun e => checkpoint_event e = false) msgs.
Proof.
  intros marked w'.
  destruct (marked_replace_all_skips_checkpoint Demo.engine Demo.functions
              Demo.all_in_marked Demo.no_find Demo.no_replace marked []
              (Some 7) "a.html" Demo.names Demo.w0 (Ok RNone) w')
    as (Hmsgs & _).
  - reflexivity.
  - vm_compute. reflexivity.
  - exact Hmsgs.
Defined.

(** ** Runs of the model *)

Example replace_all_run :
  events (snd (Demo.run [Demo.state dir_down true] act_replace_all Demo.w0))
  = [add_savepoint "Before: Replace all";
     count_message "Replaced" 4 "foo" true; set_modified].
Proof. vm_compute. reflexivity. Qed.

Example replace_all_without_match :
  let nothing := {| find := "zzz"; replace := "baz"; mode := mode_normal;
                    case_sensitive := true; dot_all := false;
                    direction := dir_down; wrap := false;
                    where_ := where_text |} in
  let w' := snd (Demo.run [nothing] act_replace_all Demo.w0) in
  events w'
  = [add_savepoint "Before: Replace all";
     count_message "Replaced" 0 "zzz" true; rewind_savepoint] /\
  heap w' = heap Demo.w0 /\ container w' = container Demo.w0.
Proof. vm_compute. repeat split; reflexivity. Qed.

Example replace_all_invalid_regex :
  let broken := {| find := "("; replace := "baz"; mode := mode_regex;
                   case_sensitive := true; dot_all := false;
                   direction := dir_down; wrap := false;
                   where_ := where_text |} in
  Demo.run [Demo.state dir_down true; broken] act_replace_all Demo.w0
  = (Ok RDialog,
     emit (error_dialog "Invalid regex" "(")
       (snd (get_search_regex Demo.engine (Demo.state dir_down true) Demo.w0))).
Proof. vm_compute. reflexivity. Qed.

Example count_run :
  fst (Demo.run [Demo.state dir_down false; Demo.state dir_up true] act_count
         Demo.w0)
  = Ok (RInt 8).
Proof. vm_compute. reflexivity. Qed.

(** * Further properties *)

(** ** Compilation errors *)

Section CompileErrors.

Variable regex : regex_module.
Variable replace_functions : gset string.
Variable all_in_marked :
  compiled -> option replacement -> editor_obj -> editor_obj * nat.
Variable do_find :
  search_request -> bool -> string -> list (compiled * replacement) ->
  world -> result retval * world.
Variable do_replace :
  search_request -> string -> list (compiled * replacement) ->
  world -> result bool * world.

Lemma get_search_regex_raises state w e w' :
  get_search_regex regex state w = (Raise e, w') ->
  w' = w /\
  regex_cache w !! search_key regex state = None /\
  exists msg,
    compile_error regex (snd (search_key regex state))
      (fst (search_key regex state)) = Some msg /\
    e = InvalidRegex (snd (search_key regex state)) msg.
Proof.
  rewrite get_search_regex_key.
  destruct (search_key regex state) as [flags raw]. simpl.
  destruct (regex_cache w !! (flags, raw)); [discriminate|].
  destruct (compile_error regex raw flags) as [msg|]; [|discriminate].
  intros [= <- <-]. eauto.
Qed.

Lemma get_search_function_raises search e :
  get_search_function replace_functions search = Raise e ->
  mode search = mode_function /\ (replace search ∉ replace_functions) /\
  e = NoSuchFunction (replace search).
Proof.
  unfold get_search_function.
  destruct (bool_decide (mode search = mode_function)) eqn:Hm; [|discriminate].
  apply bool_decide_eq_true in Hm.
  destruct (bool_decide (replace search ∈ replace_functions)) eqn:Hin;
    [discriminate|].
  apply bool_decide_eq_false in Hin. by intros [= <-].
Qed.

Lemma compile_searches_raises searches w e w' :
  compile_searches regex replace_functions searches w = (Raise e, w') ->
  (exists raw msg, e = InvalidRegex raw msg) \/ (exists name, e = NoSuchFunction name).
Proof.
  revert w. induction searches as [|s rest IH]; intros w; simpl; [discriminate|].
  destruct (get_search_regex regex s w) as [[p|e1] w1] eqn:E1.
  - destruct (get_search_function replace_functions s) as [repl|e2] eqn:E2.
    + destruct (compile_searches regex replace_functions rest w1)
        as [[ps|e3] w2] eqn:E3; [discriminate|].
      intros [= <- <-]. by eapply IH.
    + intros [= <- <-]. right.
      apply get_search_function_raises in E2 as (_ & _ & ->). eauto.
  - intros [= <- <-]. left.
    apply get_search_regex_raises in E1 as (_ & _ & msg & _ & ->). eauto.
Qed.

Lemma compile_searches_app good rest w cs wa :
  compile_searches regex replace_functions good w = (Ok cs, wa) ->
  compile_searches regex replace_functions (good ++ rest) w
  = match compile_searches regex replace_functions rest wa with
    | (Ok cs', wb) => (Ok (cs ++ cs'), wb)
    | (Raise e, wb) => (Raise e, wb)
    end.
Proof.
  revert w cs. induction good as [|s good IH]; intros w cs; simpl.
  - intros [= <- <-].
    by destruct (compile_searches regex replace_functions rest w) as [[?|?] ?].
  - destruct (get_search_regex regex s w) as [[p|e1] w1]; [|discriminate].
    destruct (get_search_function replace_functions s) as [repl|e2];
      [|discriminate].
    destruct (compile_searches regex replace_functions good w1)
      as [[ps|e3] w2] eqn:E3; [|discriminate].
    intros [= <- <-]. rewrite (IH _ _ E3).
    by destruct (compile_searches regex replace_functions rest w2) as [[?|?] ?].
Qed.

Lemma run_search_compile_error searches action ce cen sn w e w1 :
  searches <> [] ->
  compile_searches regex replace_functions searches w = (Raise e, w1) ->
  run_search regex replace_functions all_in_marked do_find do_replace
    searches action ce cen sn w
  = match e with
    | InvalidRegex raw _ => (Ok RDialog, emit (error_dialog "Invalid regex" raw) w1)
    | NoSuchFunction name =>
        (Ok RDialog, emit (error_dialog "No such function" name) w1)
    | _ => (Raise e, w1)
    end.
Proof.
  intros Hne Hcomp. destruct searches as [|search0 rest]; [done|].
  destruct (run_search_scope_cons search0 rest action ce cen sn)
    as (rq & _ & Hscope).
  unfold run_search. rewrite Hscope, Hcomp. by destruct e.
Qed.

(** X1. When one of the searches of a run does not compile, or names a
    replace function that does not exist, the run does nothing but show the
    error, whatever the action: no checkpoint is taken, no document is
    touched, and neither the find nor the replace code is entered. *)
Theorem compile_error_aborts_run searches action ce cen sn w e w1 :
  searches <> [] ->
  compile_searches regex replace_functions searches w = (Raise e, w1) ->
  exists title detail,
    run_search regex replace_functions all_in_marked do_find do_replace
      searches action ce cen sn w
    = (Ok RDialog, emit (error_dialog title detail) w1) /\
    ((exists msg, e = InvalidRegex detail msg /\ title = "Invalid regex") \/
     (e = NoSuchFunction detail /\ title = "No such function")) /\
    heap w1 = heap w /\ editors w1 = editors w /\ container w1 = container w /\
    events w1 = events w.
Proof.
  intros Hne Hcomp.
  pose proof (compile_searches_frame _ _ _ _ _ _ Hcomp) as (Hh & He & Hc & Hev & _).
  rewrite (run_search_compile_error _ action ce cen sn _ _ _ Hne Hcomp).
  destruct (compile_searches_raises _ _ _ _ Hcomp) as [(raw & msg & ->)|(name & ->)].
  - exists "Invalid regex", raw. split_and!; eauto.
  - exists "No such function", name. split_and!; eauto.
Qed.

(** X2. A search in function mode whose replace function is not registered
    stops the run with the "No such function" message naming it, once the
    searches before it and its own pattern have compiled; its pattern stays
    in the cache. *)
Theorem unknown_function_is_reported good s rest action ce cen sn w cs wa p wb :
  compile_searches regex replace_functions good w = (Ok cs, wa) ->
  get_search_regex regex s wa = (Ok p, wb) ->
  mode s = mode_function ->
  replace s ∉ replace_functions ->
  run_search regex replace_functions all_in_marked do_find do_replace
    (good ++ s :: rest) action ce cen sn w
  = (Ok RDialog, emit (error_dialog "No such function" (replace s)) wb) /\
  regex_cache wb !! search_key regex s = Some p /\
  heap wb = heap w /\ container wb = container w /\ events wb = events w.
Proof.
  intros Hgood Hp Hmode Hnot.
  assert (Hcomp : compile_searches regex replace_functions (good ++ s :: rest) w
                  = (Raise (NoSuchFunction (replace s)), wb)).
  { rewrite (compile_searches_app _ _ _ _ _ Hgood). simpl. rewrite Hp.
    unfold get_search_function.
    rewrite bool_decide_eq_true_2, bool_decide_eq_false_2 by done. done. }
  pose proof (compile_searches_frame _ _ _ _ _ _ Hcomp) as (Hh & _ & Hc & Hev & _).
  assert (Hne : good ++ s :: rest <> []).
  { destruct good; simpl; intros H; discriminate H. }
  rewrite (run_search_compile_error _ action ce cen sn _ _ _ Hne Hcomp).
  split; [done|]. split; [by eapply get_search_regex_cached|]. done.
Qed.

End CompileErrors.

(** ** Identity of compiled patterns *)

Section CacheIdentity.

Variable regex : regex_module.

Lemma get_search_regex_ids state w r w' :
  cache_ids_wf w ->
  get_search_regex regex state w = (r, w') ->
  cache_ids_wf w'.
Proof.
  intros [Hlt Hinj]. rewrite get_search_regex_key.
  destruct (search_key regex state) as [flags raw].
  destruct (regex_cache w !! (flags, raw)) as [ans|] eqn:E.
  { intros [= <- <-]. by split. }
  destruct (compile_error regex raw flags).
  { intros [= <- <-]. by split. }
  intros [= <- <-]. split; simpl.
  - intros k p. destruct (decide ((flags, raw) = k)) as [<-|Hne].
    + rewrite lookup_insert_eq. intros [= <-]. simpl. lia.
    + rewrite lookup_insert_ne by done. intros Hp. specialize (Hlt _ _ Hp). lia.
  - intros k1 k2 p1 p2.
    destruct (decide ((flags, raw) = k1)) as [<-|Hne1];
      destruct (decide ((flags, raw) = k2)) as [<-|Hne2];
      rewrite ?lookup_insert_eq, ?lookup_insert_ne by done.
    + done.
    + intros [= <-] Hp2 Hid. simpl in Hid. specialize (Hlt _ _ Hp2). lia.
    + intros Hp1 [= <-] Hid. simpl in Hid. specialize (Hlt _ _ Hp1). lia.
    + apply Hinj.
Qed.

Lemma lookups_ids states w :
  cache_ids_wf w -> cache_ids_wf (lookups regex states w).
Proof.
  revert w. induction states as [|s states IH]; intros w Hw; simpl; [done|].
  destruct (get_search_regex regex s w) as [r w1] eqn:E. simpl.
  apply IH. by eapply get_search_regex_ids.
Qed.

(** X3. Two requests get the same pattern object exactly when they have the
    same cache key: besides sharing one object per key, the cache never
    hands one object out for two different keys. *)
Theorem same_object_iff_same_key state1 state2 between w p1 w1 p2 w2 :
  cache_ids_wf w ->
  get_search_regex regex state1 w = (Ok p1, w1) ->
  get_search_regex regex state2 (lookups regex between w1) = (Ok p2, w2) ->
  (pat_id p1 = pat_id p2 <-> search_key regex state1 = search_key regex state2) /\
  (p1 = p2 <-> search_key regex state1 = search_key regex state2).
Proof.
  intros Hids H1 H2.
  pose proof (get_search_regex_cached _ _ _ _ _ H1) as Hin1.
  pose proof (get_search_regex_cached _ _ _ _ _ H2) as Hin2.
  assert (Hin1' : regex_cache (lookups regex between w1)
                    !! search_key regex state1 = Some p1).
  { eapply lookup_weaken; [exact Hin1 | apply lookups_grow]. }
  assert (Hin1'' : regex_cache w2 !! search_key regex state1 = Some p1).
  { eapply lookup_weaken; [exact Hin1'|].
    by apply get_search_regex_frame in H2 as (_ & _ & _ & _ & Hsub & _). }
  assert (Hids2 : cache_ids_wf w2).
  { eapply get_search_regex_ids; [|exact H2]. apply lookups_ids.
    by eapply get_search_regex_ids. }
  assert (Hsame : search_key regex state1 = search_key regex state2 -> p1 = p2).
  { intros Hkey. rewrite Hkey in Hin1''. congruence. }
  assert (Hdiff : pat_id p1 = pat_id p2 ->
                  search_key regex state1 = search_key regex state2).
  { destruct Hids2 as [_ Hinj]. by eapply Hinj. }
  split; split; auto.
  - intros Hkey. by rewrite (Hsame Hkey).
  - intros ->. by apply Hdiff.
Qed.

(** X4. The cache key is made of the search text, the case and direction
    settings, whether the mode is normal, and, outside normal mode, the
    dot-all setting; nothing else. Searches that agree on these (a regex and
    a function search, two normal searches that differ in dot-all, searches
    with different replacements or scopes) share one compiled pattern. *)
Theorem key_ignores_other_fields state1 state2 :
  find state1 = find state2 ->
  case_sensitive state1 = case_sensitive state2 ->
  direction state1 = direction state2 ->
  (mode state1 = mode_normal <-> mode state2 = mode_normal) ->
  (mode state1 <> mode_normal -> dot_all state1 = dot_all state2) ->
  search_key regex state1 = search_key regex state2 /\
  (forall w p w1,
     get_search_regex regex state1 w = (Ok p, w1) ->
     get_search_regex regex state2 w1 = (Ok p, w1)).
Proof.
  intros Hfind Hcase Hdir Hmode Hdot.
  assert (Hkey : search_key regex state1 = search_key regex state2).
  { unfold search_key. rewrite Hfind, Hcase, Hdir.
    destruct (decide (mode state1 = mode_normal)) as [Hn|Hn].
    - rewrite (bool_decide_eq_true_2 _ Hn).
      rewrite (bool_decide_eq_true_2 _ (proj1 Hmode Hn)). done.
    - rewrite (bool_decide_eq_false_2 _ Hn).
      rewrite (bool_decide_eq_false_2 (mode state2 = mode_normal))
        by (intros H2; by apply Hn, Hmode).
      by rewrite (Hdot Hn). }
  split; [exact Hkey|]. intros w p w1 Hget.
  apply get_search_regex_hit. rewrite <- Hkey.
  by eapply get_search_regex_cached.
Qed.

End CacheIdentity.

(** ** More on the scope resolver *)

Lemma od_get_elem_of m v d : OrderedDict.get m d = Some v -> (m, v) ∈ d.
Proof.
  induction d as [|[k' v'] d IH]; simpl; [discriminate|].
  destruct (String.eqb_spec m k') as [->|Hne].
  - intros [= ->]. left.
  - intros H. right. by apply IH.
Qed.

Lemma initialize_outsider state action ce cen sn :
  where_ state ∈ [where_text; where_styles; where_selected] ->
  cen ∉ OrderedDict.keys (sn (where_ state)) ->
  initialize_search_request state action ce cen sn
  = Ok {| rq_editor := None; rq_where := where_ state;
          rq_files := sn (where_ state);
          rq_do_all := wrap state
            || bool_decide (action = act_replace_all \/ action = act_count);
          rq_marked := false |}.
Proof.
  intros Hwhere Hnot. apply od_contains_false in Hnot.
  unfold initialize_search_request.
  destruct (where_ state); rewrite ?Hnot; try reflexivity;
    exfalso; repeat (apply elem_of_cons in Hwhere as [Hwhere|Hwhere];
                     [discriminate|]); by apply elem_of_nil in Hwhere.
Qed.

(** X5. Whatever the request, the resolver returns a scope: its files have
    distinct names and are files of the group asked for, with the syntax the
    group gives them; outside the three group scopes there are no files and
    the starting editor is the current one; and replace-all and count are
    exhaustive whatever the wrap setting. *)
Theorem resolver_keeps_to_group state action ce cen sn :
  (forall wh, OrderedDict.wf (sn wh)) ->
  exists rq,
    initialize_search_request state action ce cen sn = Ok rq /\
    rq_where rq = where_ state /\
    rq_marked rq = bool_decide (where_ state = where_selected_text) /\
    rq_do_all rq
    = wrap state || bool_decide (action = act_replace_all \/ action = act_count) /\
    (rq_editor rq = ce \/ rq_editor rq = None) /\
    OrderedDict.wf (rq_files rq) /\
    (forall m v, (m, v) ∈ rq_files rq ->
       where_ state ∈ [where_text; where_styles; where_selected] /\
       (m, v) ∈ sn (where_ state)) /\
    (where_ state = where_current \/ where_ state = where_selected_text ->
     rq_files rq = [] /\ rq_editor rq = ce).
Proof.
  intros Hsn.
  destruct (decide (where_ state ∈ [where_text; where_styles; where_selected]))
    as [Hg|Hg].
  - assert (Hnot : ~ (where_ state = where_current \/
                      where_ state = where_selected_text)).
    { intros [H|H]; rewrite H in Hg;
        repeat (apply elem_of_cons in Hg as [Hg|Hg]; [discriminate|]);
        by apply elem_of_nil in Hg. }
    assert (Hm : bool_decide (where_ state = where_selected_text) = false).
    { apply bool_decide_eq_false_2. tauto. }
    destruct (decide (cen ∈ OrderedDict.keys (sn (where_ state)))) as [Hin|Hnin].
    + destruct (list_elem_of_split _ _ Hin) as (before & after & Hsplit).
      destruct (initialize_member_keys state action ce cen sn before after
                  Hg (Hsn _) Hsplit) as (files & Hres & Hkeys & Hval).
      eexists. split; [exact Hres|]. simpl. rewrite Hm.
      split_and!; try done; try (by left); try tauto.
      * unfold OrderedDict.wf. rewrite Hkeys. apply resolved_order_NoDup.
        rewrite <- Hsplit. apply Hsn.
      * intros m v Hmv. split; [done|]. by apply od_get_elem_of, Hval.
    + rewrite (initialize_outsider state action ce cen sn Hg Hnin).
      eexists. split; [reflexivity|]. simpl. rewrite Hm.
      split_and!; try done; try (by right); try tauto.
  - assert (Hw : where_ state = where_current \/
                 where_ state = where_selected_text).
    { destruct (where_ state); auto; exfalso; apply Hg; repeat constructor. }
    unfold initialize_search_request.
    destruct Hw as [Hw|Hw]; rewrite Hw; eexists; (split; [reflexivity|]);
      simpl; split_and!; try done; try (by left); try apply NoDup_nil_2;
      intros m v H; by apply elem_of_nil in H.
Qed.

(** X6. In a group scope that contains the current file, a search that is
    not exhaustive (wrap off, and neither replace-all nor count) lists only
    the files on the side the search moves to: those after the current file
    when searching down, those before it, nearest first, when searching up.
    The current file is not among them. *)
Theorem one_way_order state action ce name sn before after :
  where_ state ∈ [where_text; where_styles; where_selected] ->
  OrderedDict.wf (sn (where_ state)) ->
  OrderedDict.keys (sn (where_ state)) = before ++ name :: after ->
  wrap state = false ->
  action <> act_replace_all ->
  action <> act_count ->
  exists rq,
    initialize_search_request state action ce name sn = Ok rq /\
    rq_editor rq = ce /\
    rq_do_all rq = false /\
    OrderedDict.keys (rq_files rq)
    = match direction state with
      | dir_down => after
      | dir_up => reverse before
      end /\
    name ∉ OrderedDict.keys (rq_files rq).
Proof.
  intros Hg Hwf Hsplit Hwrap Ha1 Ha2.
  destruct (initialize_member_keys state action ce name sn before after
              Hg Hwf Hsplit) as (files & Hres & Hkeys & _).
  assert (Hdo : wrap state
                || bool_decide (action = act_replace_all \/ action = act_count)
                = false).
  { rewrite Hwrap. simpl. apply bool_decide_eq_false_2. tauto. }
  rewrite Hdo in Hres, Hkeys.
  eexists. split; [exact Hres|]. simpl. split_and!; [done|done| |].
  - rewrite Hkeys. unfold resolved_order. destruct (direction state); reflexivity.
  - unfold OrderedDict.wf in Hwf. rewrite Hsplit in Hwf.
    apply NoDup_app in Hwf as (_ & Hba & Hna).
    apply NoDup_cons in Hna as [Hn _].
    rewrite Hkeys. unfold resolved_order. destruct (direction state); simpl.
    + rewrite elem_of_reverse. intros Hin. apply (Hba _ Hin). left.
    + done.
Qed.

(** ** More on replace-all and count *)

Section AllEdges.

Variable regex : regex_module.
Variable replace_functions : gset string.
Variable all_in_marked :
  compiled -> option replacement -> editor_obj -> editor_obj * nat.
Variable do_find :
  search_request -> bool -> string -> list (compiled * replacement) ->
  world -> result retval * world.
Variable do_replace :
  search_request -> string -> list (compiled * replacement) ->
  world -> result bool * world.

Lemma read_raw_data_fails good n rest acc w :
  Forall (readable w) good ->
  ~ readable w n ->
  read_raw_data (good ++ n :: rest) acc w = Raise (KeyError n).
Proof.
  intros Hgood Hn. revert acc.
  induction good as [|m good IH]; intros acc; simpl.
  - unfold readable, doc_text in Hn. unfold raw_data_of.
    destruct (editors w !! n); [exfalso; apply Hn; eauto|].
    destruct (container w !! n); [exfalso; apply Hn; eauto|]. done.
  - apply Forall_cons in Hgood as [[raw Hm] Hgood].
    unfold doc_text in Hm. unfold raw_data_of.
    destruct (editors w !! m).
    + simpl. by apply IH.
    + rewrite Hm. simpl. by apply IH.
Qed.

Lemma initialize_count_as_replace_all state ce cen sn :
  initialize_search_request state act_count ce cen sn
  = initialize_search_request state act_replace_all ce cen sn.
Proof.
  unfold initialize_search_request.
  rewrite (bool_decide_eq_true_2
             (act_count = act_replace_all \/ act_count = act_count)) by auto.
  rewrite (bool_decide_eq_true_2
             (act_replace_all = act_replace_all \/ act_replace_all = act_count))
    by auto.
  done.
Qed.

Lemma run_search_scope_of search0 rest action ce cen sn rq :
  initialize_search_request search0 action ce cen sn = Ok rq ->
  run_search_scope (search0 :: rest) action ce cen sn = Ok (rq, wrap search0).
Proof. intros H. unfold run_search_scope. by rewrite H. Qed.

(** X7. A candidate file that is neither open in an editor nor present in
    the container stops replace-all and count with a KeyError for the first
    such file, before any substitution: no document is changed. Replace-all
    has by then taken its savepoint, which is neither rewound nor followed
    by the modified mark. *)
Theorem missing_file_aborts_replace_all
    search0 others ce cen sn w rq cs w1 good n rest :
  where_ search0 <> where_selected_text ->
  initialize_search_request search0 act_replace_all ce cen sn = Ok rq ->
  compile_searches regex replace_functions (search0 :: others) w = (Ok cs, w1) ->
  candidates rq cen = good ++ n :: rest ->
  Forall (readable w) good ->
  ~ readable w n ->
  run_search regex replace_functions all_in_marked do_find do_replace
    (search0 :: others) act_replace_all ce cen sn w
  = (Raise (KeyError n), emit (add_savepoint "Before: Replace all") w1) /\
  run_search regex replace_functions all_in_marked do_find do_replace
    (search0 :: others) act_count ce cen sn w
  = (Raise (KeyError n), w1) /\
  heap w1 = heap w /\ editors w1 = editors w /\ container w1 = container w /\
  events w1 = events w.
Proof.
  intros Hwhere Hinit Hcomp Hcand Hgood Hn.
  pose proof (compile_searches_frame _ _ _ _ _ _ Hcomp) as (Hh & He & Hc & Hev & _).
  pose proof (initialize_marked _ _ _ _ _ _ Hinit) as Hmarked.
  rewrite bool_decide_eq_false_2 in Hmarked by done.
  assert (Hearly : early_return rq = false).
  { destruct (early_return rq) eqn:E; [|done].
    rewrite (candidates_early rq cen E) in Hcand. by destruct good. }
  assert (Hfail : forall errfind replace w',
             heap w' = heap w -> editors w' = editors w ->
             container w' = container w ->
             do_all regex rq cen errfind cs replace w' = (Raise (KeyError n), w')).
  { intros errfind replace w' Hh' He' Hc'. unfold do_all, do_all_full.
    rewrite Hearly.
    destruct (do_all_lfiles_keys rq cen w' Hearly) as (lfiles & -> & ->).
    rewrite (read_raw_data_ext _ _ w w' Hh' He' Hc'), Hcand.
    by rewrite (read_raw_data_fails good n rest ∅ w Hgood Hn). }
  split_and!; try done.
  - unfold run_search.
    rewrite (run_search_scope_of _ others _ _ _ _ _ Hinit), Hcomp, Hmarked.
    by rewrite Hfail.
  - unfold run_search. rewrite <- initialize_count_as_replace_all in Hinit.
    rewrite (run_search_scope_of _ others _ _ _ _ _ Hinit), Hcomp, Hmarked.
    by rewrite Hfail.
Qed.

(** X8. With nothing to search (the current-file scope with no editor, or a
    group scope whose group is empty) replace-all and count show no message:
    replace-all takes a savepoint and rewinds it at once, count returns 0. *)
Theorem empty_scope_is_silent search0 others ce cen sn w cs w1 :
  (where_ search0 = where_current /\ ce = None) \/
  (where_ search0 ∈ [where_text; where_styles; where_selected] /\
   sn (where_ search0) = []) ->
  compile_searches regex replace_functions (search0 :: others) w = (Ok cs, w1) ->
  run_search regex replace_functions all_in_marked do_find do_replace
    (search0 :: others) act_replace_all ce cen sn w
  = (Ok RNone,
     emit rewind_savepoint (emit (add_savepoint "Before: Replace all") w1)) /\
  run_search regex replace_functions all_in_marked do_find do_replace
    (search0 :: others) act_count ce cen sn w
  = (Ok (RInt 0), w1).
Proof.
  intros Hscope Hcomp.
  assert (Hinit : exists do_all' wh,
             initialize_search_request search0 act_replace_all ce cen sn
             = Ok {| rq_editor := None; rq_where := wh; rq_files := [];
                     rq_do_all := do_all'; rq_marked := false |}).
  { destruct Hscope as [[Hw ->]|[Hg Hempty]].
    - unfold initialize_search_request. rewrite Hw. eauto.
    - rewrite (initialize_outsider search0 act_replace_all ce cen sn Hg).
      + rewrite Hempty. eauto.
      + rewrite Hempty. apply not_elem_of_nil. }
  destruct Hinit as (do_all' & wh & Hinit).
  split.
  - unfold run_search.
    rewrite (run_search_scope_of _ others _ _ _ _ _ Hinit), Hcomp. done.
  - unfold run_search. rewrite <- initialize_count_as_replace_all in Hinit.
    rewrite (run_search_scope_of _ others _ _ _ _ _ Hinit), Hcomp. done.
Qed.

Lemma write_update_frame rd n w r w' :
  write_update rd n w = (r, w') ->
  editors w' = editors w /\
  (forall m, m <> n \/ is_Some (editors w !! m) ->
     container w' !! m = container w !! m) /\
  (forall ed, editors w !! n <> Some ed -> heap w' !! ed = heap w !! ed) /\
  (forall ed, syntax (heap w' !!! ed) = syntax (heap w !!! ed)).
Proof.
  unfold write_update. destruct (rd !! n) as [raw|].
  - destruct (editors w !! n) as [ed0|] eqn:E; intros [= <- <-]; simpl.
    + split_and!; try done.
      * intros ed Hne. apply lookup_insert_ne. congruence.
      * intros ed. destruct (decide (ed0 = ed)) as [<-|Hne].
        -- by rewrite lookup_total_insert_eq.
        -- by rewrite lookup_total_insert_ne.
    + split_and!; try done.
      intros m [Hne|[ed Hed]].
      * by apply lookup_insert_ne.
      * apply lookup_insert_ne. intros <-. congruence.
  - intros [= <- <-]. done.
Qed.

Lemma write_updates_frame rd names w r w' :
  write_updates rd names w = (r, w') ->
  editors w' = editors w /\
  (forall m, m ∉ names \/ is_Some (editors w !! m) ->
     container w' !! m = container w !! m) /\
  (forall ed, (forall n, n ∈ names -> editors w !! n <> Some ed) ->
     heap w' !! ed = heap w !! ed) /\
  (forall ed, syntax (heap w' !!! ed) = syntax (heap w !!! ed)).
Proof.
  revert w. induction names as [|n names IH]; intros w; simpl.
  - intros [= <- <-]. done.
  - destruct (write_update rd n w) as [[[]|e] w1] eqn:E1.
    + pose proof (write_update_frame _ _ _ _ _ E1) as (He1 & Hc1 & Hh1 & Hs1).
      intros Hrest. apply IH in Hrest as (He & Hc & Hh & Hs).
      split_and!.
      * congruence.
      * intros m Hm. rewrite Hc, Hc1; [done| |].
        -- destruct Hm as [Hm|Hm]; [left|by right].
           intros ->. apply Hm. left.
        -- rewrite He1. destruct Hm as [Hm|Hm]; [left|by right].
           intros Hin. apply Hm. by right.
      * intros ed Hed. rewrite Hh, Hh1; [done| |].
        -- apply Hed. left.
        -- intros m Hm. rewrite He1. apply Hed. by right.
      * intros ed. by rewrite Hs, Hs1.
    + pose proof (write_update_frame _ _ _ _ _ E1) as (He1 & Hc1 & Hh1 & Hs1).
      intros [= <- <-]. split_and!; try done.
      * intros m Hm. apply Hc1. destruct Hm as [Hm|Hm]; [left|by right].
        intros ->. apply Hm. left.
      * intros ed Hed. apply Hh1. apply Hed. left.
Qed.

Lemma do_all_full_writes rq cen errfind cs replace w n st w' :
  do_all_full regex rq cen errfind cs replace w = (Ok (n, st), w') ->
  exists w1,
    write_updates (raw_data st) (elements (updates st)) w = (Ok (), w1) /\
    heap w' = heap w1 /\ editors w' = editors w1 /\ container w' = container w1.
Proof.
  unfold do_all_full. destruct (early_return rq) eqn:Hearly.
  - intros [= <- <- <-]. exists w. simpl. by rewrite elements_empty.
  - destruct (do_all_lfiles_keys rq cen w Hearly) as (lfiles & -> & ->).
    destruct (read_raw_data (candidates rq cen) ∅ w); [|discriminate].
    destruct (do_all_searches regex replace cs (candidates rq cen) _)
      as [st1|]; [|discriminate].
    destruct (write_updates (raw_data st1) (elements (updates st1)) w)
      as [[[]|] w1] eqn:E; [|discriminate].
    intros [= <- <- <-]. exists w1. by rewrite E.
Qed.

(** X9. Replace-all writes each changed file in one place only. A file that
    is open is changed in its editor and its copy in the container is left
    as it was; a file that is not open is written to the container and no
    editor is touched. Files outside the scope, the editors of other files,
    the syntax of every editor and the registry stay as they were. *)
Theorem replace_all_writes_in_one_place search0 others ce cen sn w rq cs w1 :
  where_ search0 <> where_selected_text ->
  (forall wh, OrderedDict.wf (sn wh)) ->
  registry_injective w ->
  initialize_search_request search0 act_replace_all ce cen sn = Ok rq ->
  compile_searches regex replace_functions (search0 :: others) w = (Ok cs, w1) ->
  Forall (readable w) (candidates rq cen) ->
  exists w',
    run_search regex replace_functions all_in_marked do_find do_replace
      (search0 :: others) act_replace_all ce cen sn w
    = (Ok RNone, w') /\
    editors w' = editors w /\
    (forall n, is_Some (editors w !! n) -> container w' !! n = container w !! n) /\
    (forall n, n ∉ candidates rq cen -> container w' !! n = container w !! n) /\
    (forall ed, (forall n, n ∈ candidates rq cen -> editors w !! n <> Some ed) ->
       heap w' !! ed = heap w !! ed) /\
    (forall ed, syntax (heap w' !!! ed) = syntax (heap w !!! ed)).
Proof.
  intros Hwhere Hsn Hinj Hinit Hcomp Hread.
  pose proof (compile_searches_frame _ _ _ _ _ _ Hcomp) as (Hh1 & He1 & Hc1 & Hev1 & _).
  pose proof (initialize_search_request_wf _ _ _ _ _ _ Hsn Hinit) as Hwf.
  pose proof (initialize_marked _ _ _ _ _ _ Hinit) as Hmarked.
  rewrite bool_decide_eq_false_2 in Hmarked by done.
  set (w2 := emit (add_savepoint "Before: Replace all") w1).
  assert (Hh2 : heap w2 = heap w) by exact Hh1.
  assert (He2 : editors w2 = editors w) by exact He1.
  assert (Hc2 : container w2 = container w) by exact Hc1.
  assert (Hdt : doc_text w2 = doc_text w) by (by apply doc_text_ext).
  destruct (do_all_full_replace regex rq cen
              (if bool_decide (1 < length (search0 :: others))
               then "the selected searches" else find search0) cs w2)
    as (st & w3 & Hfull & _ & Hu & _).
  { unfold registry_injective. rewrite He2. exact Hinj. }
  { done. }
  { eapply Forall_impl; [exact Hread|]. intros n. unfold readable.
    by rewrite Hdt. }
  destruct (do_all_full_writes _ _ _ _ _ _ _ _ _ Hfull)
    as (w4 & Hwrite & Hh3 & He3 & Hc3).
  pose proof (write_updates_frame _ _ _ _ _ Hwrite) as (He4 & Hc4 & Hh4 & Hs4).
  assert (Hsub : forall n, n ∈ elements (updates st) -> n ∈ candidates rq cen).
  { intros n Hn%elem_of_elements. by apply Hu in Hn as [Hn _]. }
  exists (emit (if bool_decide (count st = 0) then rewind_savepoint
                else set_modified) w3).
  split_and!.
  - unfold run_search.
    rewrite (run_search_scope_of _ others _ _ _ _ _ Hinit), Hcomp, Hmarked.
    fold w2. unfold do_all. rewrite Hfull.
    by destruct (bool_decide (count st = 0)).
  - simpl. congruence.
  - intros n Hn. simpl. rewrite Hc3, Hc4, Hc2; [done|]. right. by rewrite He2.
  - intros n Hn. simpl. rewrite Hc3, Hc4, Hc2; [done|]. left.
    intros Hin. by apply Hn, Hsub.
  - intros ed Hed. simpl. rewrite Hh3, Hh4, Hh2; [done|].
    intros n Hn. rewrite He2. by apply Hed, Hsub.
  - intros ed. simpl. by rewrite Hh3, Hs4, Hh2.
Qed.

End AllEdges.

(** ** The further properties on the small instance *)

Lemma compile_error_aborts_run_witness :
  exists title detail,
    Demo.run [{| find := "("; replace := ""; mode := mode_regex;
                 case_sensitive := true; dot_all := false;
                 direction := dir_down; wrap := true;
                 where_ := where_text |}] act_find Demo.w0
    = (Ok RDialog, emit (error_dialog title detail) Demo.w0).
Proof.
  destruct (compile_error_aborts_run Demo.engine Demo.functions
              Demo.all_in_marked Demo.no_find Demo.no_replace
              [{| find := "("; replace := ""; mode := mode_regex;
                  case_sensitive := true; dot_all := false;
                  direction := dir_down; wrap := true;
                  where_ := where_text |}] act_find (Some 7) "a.html"
              Demo.names Demo.w0 (InvalidRegex "(" "missing )") Demo.w0)
    as (title & detail & Hrun & _).
  - discriminate.
  - vm_compute. reflexivity.
  - exists title, detail. exact Hrun.
Defined.

Lemma unknown_function_is_reported_witness :
  let s := {| find := "foo"; replace := "nope"; mode := mode_function;
              case_sensitive := true; dot_all := false;
              direction := dir_down; wrap := true; where_ := where_text |} in
  Demo.run [s] act_replace_all Demo.w0
  = (Ok RDialog,
     emit (error_dialog "No such function" "nope")
       (snd (get_search_regex Demo.engine s Demo.w0))).
Proof.
  intros s.
  destruct (unknown_function_is_reported Demo.engine Demo.functions
              Demo.all_in_marked Demo.no_find Demo.no_replace
              [] s [] act_replace_all (Some 7) "a.html" Demo.names Demo.w0
              [] Demo.w0
              {| pat_id := 0; pat_flags := 18728; pat_text := "foo" |}
              (snd (get_search_regex Demo.engine s Demo.w0)))
    as (Hrun & _).
  - reflexivity.
  - vm_compute. reflexivity.
  - reflexivity.
  - apply (bool_decide_unpack _). vm_compute. exact I.
  - exact Hrun.
Defined.

Lemma demo_cache_ids_wf : cache_ids_wf Demo.w0.
Proof.
  split.
  - intros k p H. simpl in H. rewrite lookup_empty in H. discriminate.
  - intros k1 k2 p1 p2 H. simpl in H. rewrite lookup_empty in H. discriminate.
Defined.

Lemma same_object_iff_same_key_witness :
  {| pat_id := 0; pat_flags := 18728; pat_text := "foo" |}
  = {| pat_id := 1; pat_flags := 19752; pat_text := "foo" |}
  <-> search_key Demo.engine (Demo.state dir_down true)
      = search_key Demo.engine (Demo.state dir_up true).
Proof.
  destruct (same_object_iff_same_key Demo.engine (Demo.state dir_down true)
              (Demo.state dir_up true) [] Demo.w0
              {| pat_id := 0; pat_flags := 18728; pat_text := "foo" |}
              (snd (get_search_regex Demo.engine (Demo.state dir_down true)
                      Demo.w0))
              {| pat_id := 1; pat_flags := 19752; pat_text := "foo" |}
              (snd (get_search_regex Demo.engine (Demo.state dir_up true)
                      (snd (get_search_regex Demo.engine
                              (Demo.state dir_down true) Demo.w0)))))
    as (_ & Hobj).
  - exact demo_cache_ids_wf.
  - vm_compute. reflexivity.
  - vm_compute. reflexivity.
  - exact Hobj.
Defined.

Lemma key_ignores_other_fields_witness :
  search_key Demo.engine (Demo.state dir_down true)
  = search_key Demo.engine
      {| find := "foo"; replace := "qux"; mode := mode_normal;
         case_sensitive := true; dot_all := true; direction := dir_down;
         wrap := false; where_ := where_current |}.
Proof.
  apply (key_ignores_other_fields Demo.engine (Demo.state dir_down true)
           {| find := "foo"; replace := "qux"; mode := mode_normal;
              case_sensitive := true; dot_all := true; direction := dir_down;
              wrap := false; where_ := where_current |}).
  - reflexivity.
  - reflexivity.
  - reflexivity.
  - split; reflexivity.
  - intros H. exfalso. apply H. reflexivity.
Defined.

Lemma resolver_keeps_to_group_witness :
  exists rq,
    initialize_search_request (Demo.state dir_up false) act_find (Some 7)
      "c.html" Demo.names = Ok rq /\
    OrderedDict.wf (rq_files rq).
Proof.
  destruct (resolver_keeps_to_group (Demo.state dir_up false) act_find (Some 7)
              "c.html" Demo.names demo_names_wf)
    as (rq & Hres & _ & _ & _ & _ & Hwf & _).
  exists rq. split; assumption.
Defined.

Lemma one_way_order_witness :
  exists rq,
    initialize_search_request (Demo.state dir_up false) act_find (Some 7)
      "c.html" Demo.names = Ok rq /\
    OrderedDict.keys (rq_files rq) = ["b.html"; "a.html"].
Proof.
  destruct (one_way_order (Demo.state dir_up false) act_find (Some 7) "c.html"
              Demo.names ["a.html"; "b.html"] ["d.html"])
    as (rq & Hres & _ & _ & Hkeys & _).
  - simpl. repeat constructor.
  - apply demo_names_wf.
  - reflexivity.
  - reflexivity.
  - discriminate.
  - discriminate.
  - exists rq. split; [exact Hres|exact Hkeys].
Defined.

Lemma missing_file_aborts_replace_all_witness :
  let sn := fun _ : where_t => [("b.html", "html"); ("x.html", "html")] in
  run_search Demo.engine Demo.functions Demo.all_in_marked Demo.no_find
    Demo.no_replace [Demo.state dir_down true] act_replace_all (Some 7)
    "a.html" sn Demo.w0
  = (Raise (KeyError "x.html"),
     emit (add_savepoint "Before: Replace all")
       (snd (compile_searches Demo.engine Demo.functions
               [Demo.state dir_down true] Demo.w0))).
Proof.
  intros sn.
  destruct (missing_file_aborts_replace_all Demo.engine Demo.functions
              Demo.all_in_marked Demo.no_find Demo.no_replace
              (Demo.state dir_down true) [] (Some 7) "a.html" sn Demo.w0
              {| rq_editor := None; rq_where := where_text;
                 rq_files := [("b.html", "html"); ("x.html", "html")];
                 rq_do_all := true; rq_marked := false |}
              [({| pat_id := 0; pat_flags := 18728; pat_text := "foo" |},
                Template "baz")]
              (snd (compile_searches Demo.engine Demo.functions
                      [Demo.state dir_down true] Demo.w0))
              ["b.html"] "x.html" [])
    as (Hrun & _).
  - discriminate.
  - reflexivity.
  - vm_compute. reflexivity.
  - reflexivity.
  - repeat constructor. unfold readable. vm_compute. eauto.
  - unfold readable. vm_compute. intros [x Hx]. discriminate.
  - exact Hrun.
Defined.

Lemma empty_scope_is_silent_witness :
  let here := {| find := "foo"; replace := "baz"; mode := mode_normal;
                 case_sensitive := true; dot_all := false;
                 direction := dir_down; wrap := true;
                 where_ := where_current |} in
  run_search Demo.engine Demo.functions Demo.all_in_marked Demo.no_find
    Demo.no_replace [here] act_count None "a.html" Demo.names Demo.w0
  = (Ok (RInt 0),
     snd (compile_searches Demo.engine Demo.functions [here] Demo.w0)).
Proof.
  intros here.
  destruct (empty_scope_is_silent Demo.engine Demo.functions
              Demo.all_in_marked Demo.no_find Demo.no_replace here []
              None "a.html" Demo.names Demo.w0
              [({| pat_id := 0; pat_flags := 18728; pat_text := "foo" |},
                Template "baz")]
              (snd (compile_searches Demo.engine Demo.functions [here] Demo.w0)))
    as (_ & Hcount).
  - left. split; reflexivity.
  - vm_compute. reflexivity.
  - exact Hcount.
Defined.

Lemma replace_all_writes_in_one_place_witness :
  exists w',
    Demo.run [Demo.state dir_down true] act_replace_all Demo.w0 = (Ok RNone, w') /\
    container w' !! "a.html" = Some "stale".
Proof.
  destruct (replace_all_writes_in_one_place Demo.engine Demo.functions
              Demo.all_in_marked Demo.no_find Demo.no_replace
              (Demo.state dir_down true) [] (Some 7) "a.html" Demo.names Demo.w0
              {| rq_editor := Some 7; rq_where := where_text;
                 rq_files := [("b.html", "html"); ("c.html", "html");
                              ("d.html", "html"); ("a.html", "html")];
                 rq_do_all := true; rq_marked := false |}
              [({| pat_id := 0; pat_flags := 18728; pat_text := "foo" |},
                Template "baz")]
              (snd (compile_searches Demo.engine Demo.functions
                      [Demo.state dir_down true] Demo.w0)))
    as (w' & Hrun & _ & Hopen & _).
  - discriminate.
  - exact demo_names_wf.
  - exact demo_registry_injective.
  - reflexivity.
  - vm_compute. reflexivity.
  - exact demo_readable.
  - exists w'. split; [exact Hrun|]. rewrite Hopen; [reflexivity|].
    vm_compute. eauto.
Defined.

(** ** Validation of a request *)

#[local] Set Warnings "-clear-no-such-hyp".

(** X10. [validate_search_request] accepts a request exactly when a file is
    being edited if the scope is the current file or marked text, some file
    is selected if the scope is the selected files, text is marked if the
    scope is marked text, and the search text is not empty. It shows one
    dialog when it refuses and none when it accepts; a problem with the scope
    is reported before an empty search text, and a missing file before
    missing marked text. *)
Theorem validate_search_request_spec name sn has_marked_text state w :
  let scope_ok :=
    (name <> None \/
     (where_ state <> where_current /\ where_ state <> where_selected_text)) /\
    (where_ state = where_selected -> sn where_selected <> []) /\
    (where_ state = where_selected_text -> has_marked_text = true) in
  let r := validate_search_request name sn has_marked_text state w in
  (fst r = true <-> scope_ok /\ find state <> "") /\
  (fst r = true -> snd r = w) /\
  (fst r = false ->
   exists err,
     snd r = emit (error_dialog "Cannot search" err) w /\
     (err = "No search query specified" <-> scope_ok) /\
     (name = None ->
      where_ state = where_current \/ where_ state = where_selected_text ->
      err = "No file is being edited.")).
Proof.
  intros scope_ok r. subst scope_ok r.
  unfold validate_search_request, validation_error, OrderedDict.nonempty.
  destruct (sn where_selected) as [|[k v] l] eqn:Hsel;
    destruct has_marked_text; simpl;
    repeat case_bool_decide; simpl;
    (split_and!; [ naive_solver | done | ]);
    try (intros; discriminate);
    intros _; eexists; (split; [reflexivity|]); naive_solver.
Qed.

Section MarkedWithoutEditor.

Variable regex : regex_module.
Variable replace_functions : gset string.
Variable all_in_marked :
  compiled -> option replacement -> editor_obj -> editor_obj * nat.
Variable do_find :
  search_request -> bool -> string -> list (compiled * replacement) ->
  world -> result retval * world.
Variable do_replace :
  search_request -> string -> list (compiled * replacement) ->
  world -> result bool * world.

(** X11. [run_search] itself does not check that there is an editor: a
    replace-all or a count over marked text with no current editor raises
    AttributeError once the searches have compiled, and shows nothing. The
    check is left to [validate_search_request], which refuses the same search
    when no file is being edited, with its first message. *)
Theorem marked_scope_needs_editor
    search0 others action cen sn sn' has_marked_text w cs w1 :
  where_ search0 = where_selected_text ->
  action = act_replace_all \/ action = act_count ->
  compile_searches regex replace_functions (search0 :: others) w = (Ok cs, w1) ->
  run_search regex replace_functions all_in_marked do_find do_replace
    (search0 :: others) action None cen sn w
  = (Raise (AttributeError "all_in_marked"), w1) /\
  events w1 = events w /\
  validate_search_request None sn' has_marked_text search0 w
  = (false,
     emit (error_dialog "Cannot search" "No file is being edited.") w).
Proof.
  intros Hw Hact Hcomp.
  assert (Hcs : exists c cs', cs = c :: cs').
  { apply compile_searches_length in Hcomp.
    destruct cs as [|c cs']; [discriminate Hcomp|]. by exists c, cs'. }
  destruct Hcs as (c & cs' & ->).
  assert (Hinit : forall a,
             initialize_search_request search0 a None cen sn
             = Ok {| rq_editor := None; rq_where := where_selected_text;
                     rq_files := [];
                     rq_do_all := wrap search0
                       || bool_decide (a = act_replace_all \/ a = act_count);
                     rq_marked := true |}).
  { intros a. unfold initialize_search_request. by rewrite Hw. }
  split_and!.
  - unfold run_search.
    rewrite (run_search_scope_of _ others _ _ _ _ _ (Hinit action)), Hcomp.
    destruct c as [p repl].
    by destruct Hact as [-> | ->].
  - by destruct (compile_searches_frame regex replace_functions _ _ _ _ Hcomp)
      as (_ & _ & _ & ? & _).
  - unfold validate_search_request, validation_error. rewrite Hw. done.
Qed.

End MarkedWithoutEditor.

Lemma marked_scope_needs_editor_witness :
  let marked := {| find := "foo"; replace := "baz"; mode := mode_normal;
                   case_sensitive := true; dot_all := false;
                   direction := dir_down; wrap := true;
                   where_ := where_selected_text |} in
  run_search Demo.engine Demo.functions Demo.all_in_marked Demo.no_find
    Demo.no_replace [marked] act_count None "a.html" Demo.names Demo.w0
  = (Raise (AttributeError "all_in_marked"),
     snd (compile_searches Demo.engine Demo.functions [marked] Demo.w0)).
Proof.
  intros marked.
  destruct (marked_scope_needs_editor Demo.engine Demo.functions
              Demo.all_in_marked Demo.no_find Demo.no_replace marked []
              act_count "a.html" Demo.names Demo.names true Demo.w0
              [({| pat_id := 0; pat_flags := 18728; pat_text := "foo" |},
                Template "baz")]
              (snd (compile_searches Demo.engine Demo.functions [marked] Demo.w0)))
    as (Hrun & _).
  - reflexivity.
  - by right.
  - vm_compute. reflexivity.
  - exact Hrun.
Defined.

(** ** Find and replace in the editors *)

Section GuiTraces.

Context {widgets : Type}.
Variable h : Gui.host widgets.

Lemma find_in_spec ed p w m c g found g' :
  Gui.find_in h ed p w m c g = (found, g') ->
  Gui.g_world g' = Gui.g_world g /\
  Gui.g_calls g' = Gui.g_calls g ++ [call_find ed p w m c found].
Proof.
  unfold Gui.find_in.
  destruct (Gui.editor_find h p w m c ed _ _) as [ws f].
  by intros [= <- <-].
Qed.

Lemma replace_searches_trace ed cen searches g b g' :
  Gui.replace_searches h ed cen searches g = (b, g') ->
  (exists failed rest,
     searches = failed ++ rest /\
     Gui.g_calls g'
     = Gui.g_calls g ++ flat_map (replace_attempt ed cen false) failed
       ++ match rest with
          | s :: _ => replace_attempt ed cen true s
          | [] => []
          end /\
     (b = true <-> rest <> [])) /\
  editors (Gui.g_world g') = editors (Gui.g_world g) /\
  container (Gui.g_world g') = container (Gui.g_world g) /\
  events (Gui.g_world g') = events (Gui.g_world g) /\
  regex_cache (Gui.g_world g') = regex_cache (Gui.g_world g) /\
  (forall ed', ed' <> ed ->
     heap (Gui.g_world g') !! ed' = heap (Gui.g_world g) !! ed').
Proof.
  revert g. induction searches as [|[p repl] rest IH]; intros g; simpl.
  - intros [= <- <-]. split_and!; try done.
    exists [], []. simpl. rewrite app_nil_r. split_and!; done.
  - set (g1 := match repl with
               | Template _ => g
               | Callable _ =>
                   Gui.called (call_init_env repl cen) (Gui.g_widgets g) g
               end).
    assert (Hw1 : Gui.g_world g1 = Gui.g_world g) by (by destruct repl).
    assert (Hc1 : Gui.g_calls g1 ++ [call_replace ed p repl false]
                  = Gui.g_calls g ++ replace_attempt ed cen false (p, repl)
                  /\ Gui.g_calls g1 ++ [call_replace ed p repl true]
                  = Gui.g_calls g ++ replace_attempt ed cen true (p, repl)).
    { unfold replace_attempt. destruct repl; simpl; [done|].
      by rewrite <- !app_assoc. }
    clearbody g1. destruct Hc1 as [Hc1 Hc1'].
    destruct (Gui.editor_replace h p repl cen ed _ _) as [[obj ws] replaced].
    destruct replaced.
    + intros [= <- <-]. simpl. rewrite Hw1. split_and!; try done.
      * exists [], ((p, repl) :: rest). simpl. split_and!; done.
      * intros ed' Hne. by rewrite lookup_insert_ne.
    + intros Hrun. apply IH in Hrun.
      destruct Hrun as ((failed & rest' & -> & Hcalls & Hb) & He & Hc & Hev
                        & Hrc & Hheap).
      simpl in *. rewrite Hw1 in *. split_and!; try done.
      * exists ((p, repl) :: failed), rest'. split_and!; [done| |done].
        rewrite Hcalls, Hc1. simpl. by rewrite <- !app_assoc.
      * intros ed' Hne. rewrite (Hheap ed' Hne). by rewrite lookup_insert_ne.
Qed.

(** X12. [do_replace] tries the searches in order on the editor of the
    request and stops at the first replacement that is made; [init_env] is
    called with the current file's name, for replace functions only, just
    before the replacement is tried. It returns [True] iff a replacement was
    made and shows the "Cannot replace" dialog otherwise; with no editor it
    makes no call at all. Only the buffer of that editor can change. *)
Theorem replace_stops_at_first_success rq cen searches g :
  let r := Gui.do_replace h rq cen searches g in
  let w := Gui.g_world g in
  let w' := Gui.g_world r.2 in
  editors w' = editors w /\ container w' = container w /\
  (forall ed', rq_editor rq <> Some ed' -> heap w' !! ed' = heap w !! ed') /\
  match rq_editor rq with
  | None =>
      r.1 = false /\ Gui.g_calls r.2 = Gui.g_calls g /\ heap w' = heap w /\
      events w'
      = events w
        ++ [error_dialog "Cannot replace"
              "You must first click Find, before trying to replace"]
  | Some ed =>
      exists failed rest,
        searches = failed ++ rest /\
        Gui.g_calls r.2
        = Gui.g_calls g ++ flat_map (replace_attempt ed cen false) failed
          ++ match rest with
             | s :: _ => replace_attempt ed cen true s
             | [] => []
             end /\
        (r.1 = true <-> rest <> []) /\
        events w'
        = events w
          ++ if r.1 then []
             else [error_dialog "Cannot replace"
                     "Currently selected text does not match the search query. You must first click Find, before trying to replace"]
  end.
Proof.
  intros r w w'. subst r w w'. unfold Gui.do_replace.
  destruct (rq_editor rq) as [ed|] eqn:Hed.
  - destruct (Gui.replace_searches h ed cen searches g) as [b g'] eqn:Hrun.
    apply replace_searches_trace in Hrun.
    destruct Hrun as ((failed & rest & Hs & Hcalls & Hb) & He & Hc & Hev
                      & _ & Hheap).
    destruct b; simpl.
    + split_and!; try done.
      * intros ed' Hne. apply Hheap. congruence.
      * exists failed, rest. split_and!; try done. by rewrite Hev, app_nil_r.
    + split_and!; try done.
      * intros ed' Hne. apply Hheap. congruence.
      * exists failed, rest. split_and!; try done. by rewrite Hev.
  - simpl. split_and!; done.
Qed.

Lemma find_trace_quiet tried :
  Forall (fun c => quiet c = true) tried -> find_trace false tried.
Proof. intros H. exists tried, []. by rewrite app_nil_r. Qed.

Lemma find_trace_app b l1 l2 :
  Forall (fun c => quiet c = true) l1 -> find_trace b l2 ->
  find_trace b (l1 ++ l2).
Proof.
  intros H1 (failed & last & -> & Hf & Hl).
  exists (l1 ++ failed), last. rewrite app_assoc. split_and!; try done.
  by apply Forall_app.
Qed.

Lemma find_in_files_calls rq wrap patterns p files g r g' :
  p ∈ patterns ->
  (forall x, x ∈ files -> x ∈ rq_files rq) ->
  Gui.find_in_files h (rq_editor rq) wrap p files g = (r, g') ->
  exists tried,
    Gui.g_calls g' = Gui.g_calls g ++ tried /\
    find_trace match r with Ok b => b | Raise _ => false end tried /\
    Forall (find_call_ok rq wrap patterns) tried /\
    (forall e, r = Raise e ->
       exists n, e = KeyError n /\ n ∈ OrderedDict.keys (rq_files rq)).
Proof.
  intros Hp. revert g.
  induction files as [|[fname syn] rest IH]; intros g Hsub; simpl.
  - intros [= <- <-]. exists []. rewrite app_nil_r.
    split_and!; try done. by apply find_trace_quiet.
  - assert (Hin : (fname, syn) ∈ rq_files rq) by (apply Hsub; left).
    assert (Hkey : fname ∈ OrderedDict.keys (rq_files rq)).
    { unfold OrderedDict.keys. apply list_elem_of_fmap.
      by exists (fname, syn). }
    assert (Hne : rq_files rq <> []).
    { intros E. rewrite E in Hin. by apply elem_of_nil in Hin. }
    assert (Hrest : forall x, x ∈ rest -> x ∈ rq_files rq).
    { intros x Hx. apply Hsub. by right. }
    destruct (editors (Gui.g_world g) !! fname) as [ed|] eqn:Hopen.
    + destruct (negb wrap && bool_decide (Some ed = rq_editor rq)).
      { by apply IH. }
      destruct (Gui.find_in h ed p false false true g) as [found g1] eqn:Hf.
      apply find_in_spec in Hf as [Hw1 Hc1].
      destruct found.
      * intros [= <- <-]. simpl.
        exists [call_find ed p false false true true; call_show_editor fname].
        rewrite Hc1, <- app_assoc. split_and!; try done.
        -- exists [], [call_find ed p false false true true;
                       call_show_editor fname].
           split_and!; try done. right. by exists ed, p, fname.
        -- repeat constructor; done.
      * intros Hrun. apply IH in Hrun as (tried & Hc & Ht & Hok & He); [|done].
        exists (call_find ed p false false true false :: tried).
        rewrite Hc, Hc1, <- app_assoc. split_and!; try done.
        -- apply (find_trace_app _ [_]); [by repeat constructor|done].
        -- constructor; [done|done].
    + unfold raw_data_of.
      destruct (container (Gui.g_world g) !! fname) as [raw|] eqn:Hraw.
      2:{ intros [= <- <-]. exists []. rewrite app_nil_r.
          split_and!; try done; [by apply find_trace_quiet|].
          intros e [= <-]. by exists fname. }
      destruct (Gui.pattern_search h p raw).
      2:{ by apply IH. }
      destruct (Gui.edit_file h fname syn _ _) as [w1 ws1].
      simpl. destruct (editors w1 !! fname) as [ed|] eqn:Hreg.
      2:{ intros [= <- <-]. simpl. exists [call_edit_file fname syn].
          split_and!; try done.
          - apply find_trace_quiet. by repeat constructor.
          - by repeat constructor.
          - intros e [= <-]. by exists fname. }
      destruct (Gui.find_in h ed p false false true _) as [found g2] eqn:Hf.
      apply find_in_spec in Hf as [Hw2 Hc2]. simpl in Hc2.
      destruct found.
      * intros [= <- <-].
        exists [call_edit_file fname syn; call_find ed p false false true true].
        rewrite Hc2, <- app_assoc. split_and!; try done.
        -- exists [call_edit_file fname syn],
             [call_find ed p false false true true].
           split_and!; try done; [by repeat constructor|].
           left. by exists ed, p, false, false, true.
        -- repeat constructor; done.
      * intros Hrun. apply IH in Hrun as (tried & Hc & Ht & Hok & He); [|done].
        exists (call_edit_file fname syn
                :: call_find ed p false false true false :: tried).
        rewrite Hc, Hc2, <- !app_assoc. split_and!; try done.
        -- apply (find_trace_app _ [_; _]); [by repeat constructor|done].
        -- repeat (constructor; [done|]). done.
Qed.

Lemma find_searches_calls rq wrap patterns searches g r g' :
  (forall s, s ∈ searches -> s.1 ∈ patterns) ->
  Gui.find_searches h rq wrap searches g = (r, g') ->
  exists tried,
    Gui.g_calls g' = Gui.g_calls g ++ tried /\
    find_trace match r with Ok b => b | Raise _ => false end tried /\
    Forall (find_call_ok rq wrap patterns) tried /\
    (forall e, r = Raise e ->
       exists n, e = KeyError n /\ n ∈ OrderedDict.keys (rq_files rq)).
Proof.
  revert g. induction searches as [|[p repl] rest IH]; intros g Hsub; simpl.
  - intros [= <- <-]. exists []. rewrite app_nil_r.
    split_and!; try done. by apply find_trace_quiet.
  - assert (Hp : p ∈ patterns) by (apply (Hsub (p, repl)); left).
    assert (Hrest : forall s, s ∈ rest -> s.1 ∈ patterns).
    { intros s Hs. apply Hsub. by right. }
    (* the editor of the request *)
    assert (Hed : exists found g1 tried1,
               match rq_editor rq with
               | None => (false, g)
               | Some ed =>
                   let '(found, g1) :=
                     Gui.find_in h ed p false (rq_marked rq) false g in
                   if found then (true, g1)
                   else if wrap && negb (OrderedDict.nonempty (rq_files rq))
                   then Gui.find_in h ed p true (rq_marked rq) false g1
                   else (false, g1)
               end = (found, g1) /\
               Gui.g_calls g1 = Gui.g_calls g ++ tried1 /\
               find_trace found tried1 /\
               Forall (find_call_ok rq wrap patterns) tried1).
    { destruct (rq_editor rq) as [ed|] eqn:Hed.
      2:{ exists false, g, []. rewrite app_nil_r. split_and!; try done.
          by apply find_trace_quiet. }
      destruct (Gui.find_in h ed p false (rq_marked rq) false g)
        as [found g1] eqn:Hf1.
      apply find_in_spec in Hf1 as [Hw1 Hc1].
      assert (Hok1 : forall b,
                 find_call_ok rq wrap patterns
                   (call_find ed p false (rq_marked rq) false b)).
      { intros b. simpl. split_and!; try done. }
      destruct found.
      { exists true, g1, [call_find ed p false (rq_marked rq) false true].
        split_and!; try done; [|by repeat constructor].
        exists [], [call_find ed p false (rq_marked rq) false true].
        split_and!; try done. left.
        by exists ed, p, false, (rq_marked rq), false. }
      destruct (wrap && negb (OrderedDict.nonempty (rq_files rq))) eqn:Hwrap.
      2:{ exists false, g1, [call_find ed p false (rq_marked rq) false false].
          split_and!; try done; [|by repeat constructor].
          apply find_trace_quiet. by repeat constructor. }
      destruct (Gui.find_in h ed p true (rq_marked rq) false g1)
        as [found g2] eqn:Hf2.
      apply find_in_spec in Hf2 as [Hw2 Hc2].
      apply andb_true_iff in Hwrap as [-> Hnof].
      assert (Hfiles : rq_files rq = []).
      { unfold OrderedDict.nonempty in Hnof. by destruct (rq_files rq). }
      exists found, g2,
        [call_find ed p false (rq_marked rq) false false;
         call_find ed p true (rq_marked rq) false found].
      rewrite Hc2, Hc1, <- app_assoc. split_and!; try done.
      - destruct found.
        + exists [call_find ed p false (rq_marked rq) false false],
            [call_find ed p true (rq_marked rq) false true].
          split_and!; try done; [by repeat constructor|].
          left. by exists ed, p, true, (rq_marked rq), false.
        + apply find_trace_quiet. by repeat constructor.
      - repeat constructor; try done. }
    destruct Hed as (found & g1 & tried1 & -> & Hc1 & Ht1 & Hok1).
    destruct found.
    { intros [= <- <-]. exists tried1. split_and!; done. }
    destruct Ht1 as (failed1 & last1 & -> & Hq1 & ->).
    rewrite app_nil_r in *.
    destruct (Gui.find_in_files h (rq_editor rq) wrap p (rq_files rq) g1)
      as [rf g2] eqn:Hfiles.
    apply (find_in_files_calls rq wrap patterns) in Hfiles
      as (tried2 & Hc2 & Ht2 & Hok2 & He2); [|done|done].
    destruct rf as [[|]|e].
    + intros [= <- <-]. exists (failed1 ++ tried2).
      rewrite Hc2, Hc1, <- app_assoc. split_and!; try done.
      * by apply find_trace_app.
      * by apply Forall_app.
    + intros Hrun. apply IH in Hrun as (tried3 & Hc3 & Ht3 & Hok3 & He3);
        [|done].
      exists (failed1 ++ tried2 ++ tried3).
      rewrite Hc3, Hc2, Hc1, <- !app_assoc. split_and!; try done.
      * apply find_trace_app; [done|].
        destruct Ht2 as (failed2 & last2 & -> & Hq2 & ->).
        rewrite app_nil_r. by apply find_trace_app.
      * by repeat (apply Forall_app; split).
    + intros [= <- <-]. exists (failed1 ++ tried2).
      rewrite Hc2, Hc1, <- app_assoc. split_and!; try done.
      * by apply find_trace_app.
      * by apply Forall_app.
Qed.

Lemma find_searches_nothing rq wrap searches g :
  rq_editor rq = None -> rq_files rq = [] ->
  Gui.find_searches h rq wrap searches g = (Ok false, g).
Proof.
  intros Hed Hfiles. induction searches as [|[p repl] rest IH]; simpl; [done|].
  by rewrite Hed, Hfiles.
Qed.

(** X13. [do_find] stops at the first find that matches: every call before
    it found nothing, and nothing is called after it except [show_editor]
    when the match is in another editor that was already open. It returns
    [True] in that case; when nothing matched it shows the "Not found"
    dialog last; the only error it raises is KeyError, for a file of the
    request. With no search, or with neither editor nor files, it shows the
    dialog without any call. *)
Theorem find_stops_at_first_match rq wrap errfind searches g :
  let r := Gui.do_find h rq wrap errfind searches g in
  (exists tried,
     Gui.g_calls r.2 = Gui.g_calls g ++ tried /\
     match r.1 with
     | Ok (RBool true) => find_trace true tried
     | Ok RDialog =>
         find_trace false tried /\
         exists msg evs,
           events (Gui.g_world r.2) = evs ++ [error_dialog "Not found" msg]
     | Raise (KeyError n) =>
         find_trace false tried /\ n ∈ OrderedDict.keys (rq_files rq)
     | _ => False
     end) /\
  (searches = [] \/ (rq_editor rq = None /\ rq_files rq = []) ->
   r.1 = Ok RDialog /\ Gui.g_calls r.2 = Gui.g_calls g).
Proof.
  intros r. subst r. unfold Gui.do_find. split.
  - destruct (Gui.find_searches h rq wrap searches g) as [rs g'] eqn:Hrun.
    apply (find_searches_calls rq wrap (searches.*1)) in Hrun
      as (tried & Hc & Ht & _ & He).
    2:{ intros s Hs. apply list_elem_of_fmap. by exists s. }
    exists tried. destruct rs as [[|]|e]; simpl.
    + done.
    + split_and!; try done. by eexists _, _.
    + destruct (He e eq_refl) as (n & -> & Hn). done.
  - intros [-> | [Hed Hfiles]].
    + done.
    + by rewrite find_searches_nothing.
Qed.

(** X14. What [do_find] calls: the editor of the request is searched
    without [complete], with the request's [marked], and with [wrap] only
    when wrapping is on and the request has no files; the editors of the
    files are searched with [complete] and nothing else; [edit_file] is
    called for files of the request with their syntax, [show_editor] for
    files of the request; the patterns are those of the searches; nothing is
    ever replaced. *)
Theorem find_call_discipline rq wrap errfind searches g :
  let r := Gui.do_find h rq wrap errfind searches g in
  exists tried,
    Gui.g_calls r.2 = Gui.g_calls g ++ tried /\
    Forall (find_call_ok rq wrap (searches.*1)) tried.
Proof.
  intros r. subst r. unfold Gui.do_find.
  destruct (Gui.find_searches h rq wrap searches g) as [rs g'] eqn:Hrun.
  apply (find_searches_calls rq wrap (searches.*1)) in Hrun
    as (tried & Hc & _ & Hok & _).
  2:{ intros s Hs. apply list_elem_of_fmap. by exists s. }
  exists tried. by destruct rs as [[|]|e].
Qed.

(** X17. Replace & Find searches on only after a replacement was made: when
    [do_replace] fails the result is [None], the "Cannot replace" dialog is
    the last thing shown and no find, [show_editor] or [edit_file] call is
    made; otherwise the calls of the replacement are followed by those of a
    find, whose result is returned. *)
Theorem replace_find_needs_replacement rq wrap errfind cen searches g :
  let r1 := Gui.do_replace h rq cen searches g in
  let r := Gui.replace_find h rq wrap errfind cen searches g in
  (r1.1 = false <-> r.1 = Ok RNone) /\
  (r1.1 = false ->
   r.2 = r1.2 /\
   exists msg evs,
     events (Gui.g_world r.2) = evs ++ [error_dialog "Cannot replace" msg]) /\
  (r1.1 = true ->
   exists ed failed s rest finds,
     rq_editor rq = Some ed /\ searches = failed ++ s :: rest /\
     Gui.g_calls r.2
     = Gui.g_calls g ++ flat_map (replace_attempt ed cen false) failed
       ++ replace_attempt ed cen true s ++ finds /\
     Forall (find_call_ok rq wrap (searches.*1)) finds).
Proof.
  intros r1 r. subst r1 r. unfold Gui.replace_find.
  destruct (Gui.do_replace h rq cen searches g) as [b g1] eqn:Hrep.
  simpl. destruct b.
  - split_and!; [|done|].
    + split; [done|].
      destruct (Gui.find_searches h rq wrap searches g1) as [rs g'] eqn:Hrun.
      unfold Gui.do_find. rewrite Hrun. by destruct rs as [[|]|e].
    + intros _. unfold Gui.do_replace in Hrep.
      destruct (rq_editor rq) as [ed|] eqn:Hed; [|discriminate Hrep].
      destruct (Gui.replace_searches h ed cen searches g) as [b g2] eqn:Hrs.
      destruct b; [|discriminate Hrep].
      injection Hrep as <-.
      apply replace_searches_trace in Hrs
        as ((failed & rest & Hs & Hcalls & Hb) & _).
      destruct rest as [|s rest]; [by destruct (proj1 Hb eq_refl)|].
      destruct (Gui.find_searches h rq wrap searches g2) as [rs g'] eqn:Hrun.
      unfold Gui.do_find. rewrite Hrun.
      apply (find_searches_calls rq wrap (searches.*1)) in Hrun
        as (finds & Hc & _ & Hok & _).
      2:{ intros x Hx. apply list_elem_of_fmap. by exists x. }
      exists ed, failed, s, rest, finds.
      split_and!; try done.
      destruct rs as [[|]|e]; simpl; rewrite Hc, Hcalls;
        by rewrite <- !app_assoc.
  - split_and!; [done| |done].
    intros _. split; [done|]. simpl.
    unfold Gui.do_replace in Hrep.
    destruct (rq_editor rq) as [ed|].
    + destruct (Gui.replace_searches h ed cen searches g) as [b g2].
      destruct b; [discriminate Hrep|]. injection Hrep as <-.
      by eexists _, _.
    + injection Hrep as <-. by eexists _, _.
Qed.

End GuiTraces.

Section GuiOpening.

Context {widgets : Type}.
Variable h : Gui.host widgets.

(** [edit_file] leaves the files of the container alone and closes no
    editor. *)
Hypothesis edit_file_container :
  forall n s w ws, container (Gui.edit_file h n s w ws).1 = container w.
Hypothesis edit_file_registry :
  forall n s w ws, editors w ⊆ editors (Gui.edit_file h n s w ws).1.

Lemma opened_files_app l1 l2 :
  opened_files (l1 ++ l2) = opened_files l1 ++ opened_files l2.
Proof. unfold opened_files. by rewrite flat_map_app. Qed.

Lemma find_in_files_opened editor wrap p files g r g' :
  Gui.find_in_files h editor wrap p files g = (r, g') ->
  container (Gui.g_world g') = container (Gui.g_world g) /\
  editors (Gui.g_world g) ⊆ editors (Gui.g_world g') /\
  exists tried,
    Gui.g_calls g' = Gui.g_calls g ++ tried /\
    NoDup (opened_files tried) /\
    (forall n, n ∈ opened_files tried ->
       editors (Gui.g_world g) !! n = None /\
       exists raw,
         container (Gui.g_world g) !! n = Some raw /\
         Gui.pattern_search h p raw = true) /\
    ((forall e, r <> Raise e) ->
     forall n, n ∈ opened_files tried ->
       is_Some (editors (Gui.g_world g') !! n)).
Proof.
  revert g. induction files as [|[fname syn] rest IH]; intros g; simpl.
  - intros [= <- <-]. split_and!; try done. exists []. rewrite app_nil_r.
    split_and!; try done.
    + constructor.
    + intros n Hn. by apply elem_of_nil in Hn.
    + intros _ n Hn. by apply elem_of_nil in Hn.
  - destruct (editors (Gui.g_world g) !! fname) as [ed|] eqn:Hopen.
    + destruct (negb wrap && bool_decide (Some ed = editor)).
      { by apply IH. }
      destruct (Gui.find_in h ed p false false true g) as [found g1] eqn:Hf.
      apply find_in_spec in Hf as [Hw1 Hc1].
      destruct found.
      * intros [= <- <-]. simpl. rewrite Hw1. split_and!; try done.
        exists [call_find ed p false false true true; call_show_editor fname].
        rewrite Hc1, <- app_assoc. split_and!; try done.
        -- constructor.
        -- intros n Hn. by apply elem_of_nil in Hn.
        -- intros _ n Hn. by apply elem_of_nil in Hn.
      * intros Hrun. apply IH in Hrun
          as (Hcont & Hreg & tried & Hc & Hnd & Hop & Hregd).
        rewrite Hw1 in *. split_and!; try done.
        exists (call_find ed p false false true false :: tried).
        rewrite Hc, Hc1, <- app_assoc. split_and!; done.
    + unfold raw_data_of.
      destruct (container (Gui.g_world g) !! fname) as [raw|] eqn:Hraw.
      2:{ intros [= <- <-]. split_and!; try done. exists [].
          rewrite app_nil_r. split_and!; try done.
          - constructor.
          - intros n Hn. by apply elem_of_nil in Hn.
          - intros Hr. by destruct (Hr (KeyError fname)). }
      destruct (Gui.pattern_search h p raw) eqn:Hsearch.
      2:{ by apply IH. }
      pose proof (edit_file_container fname syn (Gui.g_world g)
                    (Gui.g_widgets g)) as Hcont1.
      pose proof (edit_file_registry fname syn (Gui.g_world g)
                    (Gui.g_widgets g)) as Hreg1.
      destruct (Gui.edit_file h fname syn _ _) as [w1 ws1].
      simpl in Hcont1, Hreg1. simpl.
      assert (Hone : forall n,
                 n ∈ [fname] ->
                 editors (Gui.g_world g) !! n = None /\
                 exists raw0,
                   container (Gui.g_world g) !! n = Some raw0 /\
                   Gui.pattern_search h p raw0 = true).
      { intros n Hn. apply list_elem_of_singleton in Hn as ->.
        split; [done|]. by exists raw. }
      destruct (editors w1 !! fname) as [ed|] eqn:Hregd1.
      2:{ intros [= <- <-]. simpl. split_and!; try done.
          exists [call_edit_file fname syn]. split_and!; try done.
          - apply NoDup_singleton.
          - intros Hr. by destruct (Hr (KeyError fname)). }
      destruct (Gui.find_in h ed p false false true _) as [found g2] eqn:Hf.
      apply find_in_spec in Hf as [Hw2 Hc2]. simpl in Hw2, Hc2.
      destruct found.
      * intros [= <- <-]. rewrite Hw2. split_and!; try done.
        exists [call_edit_file fname syn; call_find ed p false false true true].
        rewrite Hc2, <- app_assoc. split_and!; try done.
        -- apply NoDup_singleton.
        -- intros _ n Hn. apply list_elem_of_singleton in Hn as ->.
           by exists ed.
      * intros Hrun. apply IH in Hrun
          as (Hcont & Hreg & tried & Hc & Hnd & Hop & Hregd).
        rewrite Hw2 in *. split_and!.
        -- by rewrite Hcont.
        -- by etrans.
        -- exists (call_edit_file fname syn
                   :: call_find ed p false false true false :: tried).
           rewrite Hc, Hc2, <- !app_assoc. split_and!; try done.
           ++ simpl. apply NoDup_cons. split; [|done].
              intros Hn. destruct (Hop _ Hn) as [Hnone _]. congruence.
           ++ simpl. intros n Hn. apply elem_of_cons in Hn as [-> | Hn].
              { split; [done|]. by exists raw. }
              destruct (Hop _ Hn) as (Hnone & raw0 & Hraw0 & Hs0). split.
              ** by apply (lookup_weaken_None _ _ _ Hnone).
              ** exists raw0. by rewrite <- Hcont1.
           ++ simpl. intros Hr n Hn. apply elem_of_cons in Hn as [-> | Hn].
              { exists ed. by apply (lookup_weaken _ _ _ _ Hregd1). }
              by apply Hregd.
Qed.

Lemma find_searches_opened rq wrap (patterns : list compiled) searches g r g' :
  (forall s, s ∈ searches -> s.1 ∈ patterns) ->
  Gui.find_searches h rq wrap searches g = (r, g') ->
  container (Gui.g_world g') = container (Gui.g_world g) /\
  editors (Gui.g_world g) ⊆ editors (Gui.g_world g') /\
  exists tried,
    Gui.g_calls g' = Gui.g_calls g ++ tried /\
    NoDup (opened_files tried) /\
    (forall n, n ∈ opened_files tried ->
       editors (Gui.g_world g) !! n = None /\
       exists p raw,
         p ∈ patterns /\ container (Gui.g_world g) !! n = Some raw /\
         Gui.pattern_search h p raw = true) /\
    ((forall e, r <> Raise e) ->
     forall n, n ∈ opened_files tried ->
       is_Some (editors (Gui.g_world g') !! n)).
Proof.
  revert g. induction searches as [|[p repl] rest IH]; intros g Hsub; simpl.
  - intros [= <- <-]. split_and!; try done. exists []. rewrite app_nil_r.
    split_and!; try done.
    + constructor.
    + intros n Hn. by apply elem_of_nil in Hn.
    + intros _ n Hn. by apply elem_of_nil in Hn.
  - assert (Hp : p ∈ patterns) by (apply (Hsub (p, repl)); left).
    assert (Hrest : forall s, s ∈ rest -> s.1 ∈ patterns).
    { intros s Hs. apply Hsub. by right. }
    assert (Hed : exists found g1 tried1,
               match rq_editor rq with
               | None => (false, g)
               | Some ed =>
                   let '(found, g1) :=
                     Gui.find_in h ed p false (rq_marked rq) false g in
                   if found then (true, g1)
                   else if wrap && negb (OrderedDict.nonempty (rq_files rq))
                   then Gui.find_in h ed p true (rq_marked rq) false g1
                   else (false, g1)
               end = (found, g1) /\
               Gui.g_world g1 = Gui.g_world g /\
               Gui.g_calls g1 = Gui.g_calls g ++ tried1 /\
               opened_files tried1 = []).
    { destruct (rq_editor rq) as [ed|].
      2:{ exists false, g, []. by rewrite app_nil_r. }
      destruct (Gui.find_in h ed p false (rq_marked rq) false g)
        as [found g1] eqn:Hf1.
      apply find_in_spec in Hf1 as [Hw1 Hc1].
      destruct found; [by eexists true, g1, [_]|].
      destruct (wrap && negb (OrderedDict.nonempty (rq_files rq)));
        [|by eexists false, g1, [_]].
      destruct (Gui.find_in h ed p true (rq_marked rq) false g1)
        as [found g2] eqn:Hf2.
      apply find_in_spec in Hf2 as [Hw2 Hc2].
      exists found, g2, [call_find ed p false (rq_marked rq) false false;
                         call_find ed p true (rq_marked rq) false found].
      rewrite Hc2, Hc1, Hw2, Hw1, <- app_assoc. done. }
    destruct Hed as (found & g1 & tried1 & -> & Hw1 & Hc1 & Ho1).
    destruct found.
    { intros [= <- <-]. rewrite Hw1. split_and!; try done.
      exists tried1. rewrite Ho1. split_and!; try done.
      - constructor.
      - intros n Hn. by apply elem_of_nil in Hn.
      - intros _ n Hn. by apply elem_of_nil in Hn. }
    destruct (Gui.find_in_files h (rq_editor rq) wrap p (rq_files rq) g1)
      as [rf g2] eqn:Hfiles.
    apply find_in_files_opened in Hfiles
      as (Hcont2 & Hreg2 & tried2 & Hc2 & Hnd2 & Hop2 & Hregd2).
    rewrite Hw1 in *.
    assert (Hop2' : forall n, n ∈ opened_files tried2 ->
               editors (Gui.g_world g) !! n = None /\
               exists p0 raw,
                 p0 ∈ patterns /\ container (Gui.g_world g) !! n = Some raw /\
                 Gui.pattern_search h p0 raw = true).
    { intros n Hn. destruct (Hop2 _ Hn) as (Hnone & raw & Hraw & Hs).
      split; [done|]. by exists p, raw. }
    destruct rf as [[|]|e].
    + intros [= <- <-]. split_and!; try done.
      exists (tried1 ++ tried2).
      rewrite Hc2, Hc1, <- app_assoc, opened_files_app, Ho1. simpl.
      split_and!; try done.
    + intros Hrun. apply IH in Hrun
        as (Hcont3 & Hreg3 & tried3 & Hc3 & Hnd3 & Hop3 & Hregd3); [|done].
      split_and!.
      * by rewrite Hcont3.
      * by etrans.
      * exists (tried1 ++ tried2 ++ tried3).
        rewrite Hc3, Hc2, Hc1, <- !app_assoc, !opened_files_app, Ho1. simpl.
        assert (Hopen2 : forall n, n ∈ opened_files tried2 ->
                   is_Some (editors (Gui.g_world g2) !! n)).
        { apply Hregd2. intros e. discriminate. }
        split_and!; try done.
        -- apply NoDup_app. split_and!; try done.
           intros n Hn2 Hn3. destruct (Hopen2 _ Hn2) as [ed Hed].
           destruct (Hop3 _ Hn3) as [Hnone _]. congruence.
        -- intros n Hn. apply elem_of_app in Hn as [Hn | Hn].
           { by apply Hop2'. }
           destruct (Hop3 _ Hn) as (Hnone & p0 & raw & Hp0 & Hraw & Hs).
           split.
           ++ by apply (lookup_weaken_None _ _ _ Hnone).
           ++ exists p0, raw. by rewrite <- Hcont2.
        -- intros Hr n Hn. apply elem_of_app in Hn as [Hn | Hn].
           ++ destruct (Hopen2 _ Hn) as [ed Hed]. exists ed.
              by apply (lookup_weaken _ _ _ _ Hed).
           ++ by apply Hregd3.
    + intros [= <- <-]. split_and!; try done.
      exists (tried1 ++ tried2).
      rewrite Hc2, Hc1, <- app_assoc, opened_files_app, Ho1. simpl.
      split_and!; done.
Qed.

(** X15. When [edit_file] leaves the container's files alone and closes no
    editor, [do_find] opens a file at most once, and only a file that was
    not open and whose text in the container matches one of the patterns;
    the container is unchanged and every editor that was registered still
    is. *)
Theorem find_opens_matching_files_once rq wrap errfind searches g :
  let r := Gui.do_find h rq wrap errfind searches g in
  container (Gui.g_world r.2) = container (Gui.g_world g) /\
  editors (Gui.g_world g) ⊆ editors (Gui.g_world r.2) /\
  exists tried,
    Gui.g_calls r.2 = Gui.g_calls g ++ tried /\
    NoDup (opened_files tried) /\
    forall n, n ∈ opened_files tried ->
      editors (Gui.g_world g) !! n = None /\
      exists p raw,
        p ∈ searches.*1 /\ container (Gui.g_world g) !! n = Some raw /\
        Gui.pattern_search h p raw = true.
Proof.
  intros r. subst r. unfold Gui.do_find.
  destruct (Gui.find_searches h rq wrap searches g) as [rs g'] eqn:Hrun.
  apply (find_searches_opened rq wrap (searches.*1)) in Hrun
    as (Hcont & Hreg & tried & Hc & Hnd & Hop & _).
  2:{ intros s Hs. apply list_elem_of_fmap. by exists s. }
  destruct rs as [[|]|e]; simpl; split_and!; try done; by exists tried.
Qed.

End GuiOpening.

(** The host of the examples meets the assumptions made on [edit_file]. *)
Lemma demo_edit_file_container n s w ws :
  container (Gui.edit_file GuiDemo.host n s w ws).1 = container w.
Proof.
  simpl. unfold GuiDemo.edit_file.
  by destruct (editors w !! n), (container w !! n).
Qed.

Lemma demo_edit_file_registry n s w ws :
  editors w ⊆ editors (Gui.edit_file GuiDemo.host n s w ws).1.
Proof.
  simpl. unfold GuiDemo.edit_file.
  destruct (editors w !! n) eqn:Hn, (container w !! n); simpl; try done.
  by apply insert_subseteq.
Qed.

Lemma find_opens_matching_files_once_witness :
  opened_files
    (Gui.g_calls
       (Gui.do_find GuiDemo.host GuiDemo.rq false "foofoo"
          [(GuiDemo.pat "foofoo", Template "x")] GuiDemo.g0).2)
  = ["d.html"] /\
  exists tried,
    Gui.g_calls
      (Gui.do_find GuiDemo.host GuiDemo.rq false "foofoo"
         [(GuiDemo.pat "foofoo", Template "x")] GuiDemo.g0).2
    = Gui.g_calls GuiDemo.g0 ++ tried /\
    NoDup (opened_files tried).
Proof.
  split; [vm_compute; reflexivity|].
  destruct (find_opens_matching_files_once GuiDemo.host
              demo_edit_file_container demo_edit_file_registry
              GuiDemo.rq false "foofoo"
              [(GuiDemo.pat "foofoo", Template "x")] GuiDemo.g0)
    as (_ & _ & tried & Hc & Hnd & _).
  exists tried. split; [exact Hc | exact Hnd].
Defined.

(** ** The model of the saved searches *)

Section ModelProperties.

Import SearchesModel.

Context {search : Type}.
Variable name : search -> string.
Variable primary_contains : string -> string -> bool.

Lemma position_nat {A} (l : list A) (k : nat) :
  k < length l -> position l (Z.of_nat k) = Ok k.
Proof.
  intros Hk. unfold position.
  rewrite bool_decide_eq_true_2 by lia. by rewrite Nat2Z.id.
Qed.

Lemma getitem_nat {A} (l : list A) (k : nat) x :
  l !! k = Some x -> getitem l (Z.of_nat k) = Ok x.
Proof.
  intros Hx. unfold getitem.
  rewrite position_nat by (by eapply lookup_lt_Some). simpl. by rewrite Hx.
Qed.

Lemma do_filter_from_acc text i l acc :
  do_filter_from name primary_contains text i l acc
  = acc ++ do_filter_from name primary_contains text i l [].
Proof.
  revert i acc. induction l as [|s rest IH]; intros i acc; simpl.
  - by rewrite app_nil_r.
  - destruct (primary_contains text (name s)); [|by apply IH].
    rewrite (IH (S i) (acc ++ _)), (IH (S i) [Z.of_nat i]).
    by rewrite <- app_assoc.
Qed.

Lemma do_filter_from_spec text i l :
  let out := do_filter_from name primary_contains text i l [] in
  StronglySorted Z.lt out /\
  (forall z, z ∈ out ->
     exists k s, z = Z.of_nat (i + k) /\ l !! k = Some s /\
       primary_contains text (name s) = true) /\
  (forall k s, l !! k = Some s -> primary_contains text (name s) = true ->
     Z.of_nat (i + k) ∈ out).
Proof.
  revert i. induction l as [|s rest IH]; intros i; simpl.
  - split_and!; [constructor| |done].
    intros z Hz. by apply elem_of_nil in Hz.
  - rewrite do_filter_from_acc.
    destruct (IH (S i)) as (Hsorted & Hin & Hall).
    assert (Hgt : forall z,
               z ∈ do_filter_from name primary_contains text (S i) rest [] ->
               (Z.of_nat i < z)%Z).
    { intros z Hz. destruct (Hin z Hz) as (k & _ & -> & _). lia. }
    split_and!.
    + destruct (primary_contains text (name s)); simpl; [|done].
      constructor; [done|]. by apply Forall_forall.
    + intros z Hz. apply elem_of_app in Hz as [Hz | Hz].
      * destruct (primary_contains text (name s)) eqn:Hs;
          [|by apply elem_of_nil in Hz].
        apply list_elem_of_singleton in Hz as ->.
        exists 0, s. rewrite Nat.add_0_r. done.
      * destruct (Hin z Hz) as (k & s' & -> & Hk & Hs').
        exists (S k), s'. split_and!; [f_equal; lia|done|done].
    + intros k s' Hk Hs'. apply elem_of_app. destruct k as [|k]; simpl in Hk.
      * injection Hk as <-. rewrite Hs', Nat.add_0_r. left.
        by apply list_elem_of_singleton.
      * right. replace (i + S k) with (S i + k) by lia. by eapply Hall.
Qed.

(** X18. [do_filter] shows exactly the saved searches whose name contains
    the text, each once and in the order of the saved list: the indices are
    strictly increasing, an index is listed iff its search matches, the
    saved searches themselves are not touched, and every row has data: a
    matching search. *)
Theorem do_filter_shows_matches text m :
  let m' := do_filter name primary_contains text m in
  searches m' = searches m /\
  StronglySorted Z.lt (filtered_searches m') /\
  (forall z, z ∈ filtered_searches m' <->
     exists (k : nat) s, z = Z.of_nat k /\ searches m !! k = Some s /\
       primary_contains text (name s) = true) /\
  (forall row : nat, row < rowCount m' ->
     exists i s, data (Z.of_nat row) m' = Some (i, s) /\
       primary_contains text (name s) = true).
Proof.
  intros m'. subst m'. unfold do_filter, rowCount, data. simpl.
  destruct (do_filter_from_spec text 0 (searches m)) as (Hsorted & Hin & Hall).
  split_and!; try done.
  - intros z. split.
    + intros Hz. destruct (Hin z Hz) as (k & s & -> & Hk & Hs). by exists k, s.
    + intros (k & s & -> & Hk & Hs). by apply (Hall k s).
  - intros row Hrow. apply lookup_lt_is_Some_2 in Hrow as [z Hz].
    rewrite (getitem_nat _ _ _ Hz). simpl.
    destruct (Hin z) as (k & s & -> & Hk & Hs).
    { by eapply list_elem_of_lookup_2. }
    simpl. rewrite (getitem_nat _ _ _ Hk). simpl. by exists (Z.of_nat k), s.
Qed.

Lemma position_Z {A} (l : list A) (i : Z) :
  (0 <= i < Z.of_nat (length l))%Z -> position l i = Ok (Z.to_nat i).
Proof. intros Hi. unfold position. by rewrite bool_decide_eq_true_2. Qed.

Lemma getitem_Z {A} (l : list A) (i : Z) x :
  (0 <= i)%Z -> l !! Z.to_nat i = Some x -> getitem l i = Ok x.
Proof.
  intros Hi Hx. rewrite <- (Z2Nat.id i) by done. by apply getitem_nat.
Qed.

Lemma lookup_Z {A} (l : list A) (i : Z) :
  (0 <= i < Z.of_nat (length l))%Z -> exists x, l !! Z.to_nat i = Some x.
Proof. intros Hi. apply lookup_lt_is_Some_2. lia. Qed.

Lemma data_Z (m : t search) (row i : Z) s :
  (0 <= row)%Z -> (0 <= i)%Z ->
  filtered_searches m !! Z.to_nat row = Some i ->
  searches m !! Z.to_nat i = Some s ->
  data row m = Some (i, s).
Proof.
  intros Hrow Hi Hf Hs. unfold data.
  rewrite (getitem_Z _ _ _ Hrow Hf). simpl.
  by rewrite (getitem_Z _ _ _ Hi Hs).
Qed.

(** X19. [move_entry] does nothing when the target row [row + delta] is not
    a row. Otherwise, on a model whose rows refer to distinct saved searches,
    it exchanges the searches shown at the two rows and nothing else: the
    rows keep their indices, every other row shows what it showed, the saved
    list is a permutation of what it was, and the opposite move undoes it. *)
Theorem move_entry_swaps row delta (m : t search) :
  (~ (0 <= row + delta < Z.of_nat (rowCount m))%Z ->
   move_entry row delta m = Ok m) /\
  (wf m -> (0 <= row < Z.of_nat (rowCount m))%Z ->
   (0 <= row + delta < Z.of_nat (rowCount m))%Z ->
   exists m' i j s s',
     move_entry row delta m = Ok m' /\
     data row m = Some (i, s) /\ data (row + delta) m = Some (j, s') /\
     data row m' = Some (i, s') /\ data (row + delta) m' = Some (j, s) /\
     (forall r, (0 <= r)%Z -> r <> row -> r <> (row + delta)%Z ->
        data r m' = data r m) /\
     filtered_searches m' = filtered_searches m /\
     searches m' ≡ₚ searches m /\
     move_entry (row + delta) (- delta) m' = Ok m).
Proof.
  unfold rowCount. split.
  - intros Hb. unfold move_entry. by rewrite bool_decide_eq_false_2.
  - intros [Hrange Hnd] Ha Hb.
    destruct (lookup_Z (filtered_searches m) row Ha) as [ai Hai].
    destruct (lookup_Z (filtered_searches m) (row + delta) Hb) as [bi Hbi].
    assert (Hai' : (0 <= ai < Z.of_nat (length (searches m)))%Z).
    { eapply (proj1 (Forall_forall _ _) Hrange).
      by eapply list_elem_of_lookup_2. }
    assert (Hbi' : (0 <= bi < Z.of_nat (length (searches m)))%Z).
    { eapply (proj1 (Forall_forall _ _) Hrange).
      by eapply list_elem_of_lookup_2. }
    destruct (lookup_Z (searches m) ai Hai') as [sa Hsa].
    destruct (lookup_Z (searches m) bi Hbi') as [sb Hsb].
    set (l' := <[Z.to_nat bi := sa]> (<[Z.to_nat ai := sb]> (searches m))).
    assert (Hlen : length l' = length (searches m)).
    { unfold l'. by rewrite !length_insert. }
    assert (Hmove : move_entry row delta m
                    = Ok {| searches := l';
                            filtered_searches := filtered_searches m |}).
    { unfold move_entry. rewrite bool_decide_eq_true_2 by done.
      rewrite (getitem_Z _ _ _ (proj1 Ha) Hai). simpl.
      rewrite (getitem_Z _ _ _ (proj1 Hb) Hbi). simpl.
      rewrite (getitem_Z _ _ _ (proj1 Hbi') Hsb). simpl.
      rewrite (getitem_Z _ _ _ (proj1 Hai') Hsa). simpl.
      unfold setitem. rewrite (position_Z _ _ Hai'). simpl.
      rewrite position_Z by (by rewrite length_insert). done. }
    assert (Hlb : l' !! Z.to_nat bi = Some sa).
    { unfold l'. apply list_lookup_insert_eq. rewrite length_insert. lia. }
    assert (Hla : l' !! Z.to_nat ai = Some sb).
    { unfold l'. destruct (decide (Z.to_nat bi = Z.to_nat ai)) as [E|E].
      - rewrite E. rewrite list_lookup_insert_eq by (rewrite length_insert; lia).
        rewrite E in Hsb. congruence.
      - rewrite list_lookup_insert_ne by done.
        apply list_lookup_insert_eq. lia. }
    assert (Hother : forall k,
               k <> Z.to_nat ai -> k <> Z.to_nat bi -> l' !! k = searches m !! k).
    { intros k Hka Hkb. unfold l'.
      by rewrite !list_lookup_insert_ne by done. }
    eexists _, ai, bi, sa, sb. split; [exact Hmove|]. split_and!.
    + apply data_Z; [lia|lia|done|done].
    + apply data_Z; [lia|lia|done|done].
    + apply data_Z; [lia|lia|done|done].
    + apply data_Z; [lia|lia|done|done].
    + intros r Hr Hra Hrb. unfold data. simpl.
      destruct (decide (r < Z.of_nat (length (filtered_searches m)))%Z)
        as [Hlt|Hge].
      * destruct (lookup_Z (filtered_searches m) r (conj Hr Hlt)) as [ri Hri].
        rewrite (getitem_Z _ _ _ Hr Hri). simpl.
        assert (Hri' : (0 <= ri < Z.of_nat (length (searches m)))%Z).
        { eapply (proj1 (Forall_forall _ _) Hrange).
          by eapply list_elem_of_lookup_2. }
        assert (Hna : Z.to_nat ri <> Z.to_nat ai).
        { intros E. assert (ri = ai) as -> by lia.
          pose proof (NoDup_lookup _ _ _ _ Hnd Hri Hai). lia. }
        assert (Hnb : Z.to_nat ri <> Z.to_nat bi).
        { intros E. assert (ri = bi) as -> by lia.
          pose proof (NoDup_lookup _ _ _ _ Hnd Hri Hbi). lia. }
        destruct (lookup_Z (searches m) ri Hri') as [sr Hsr].
        rewrite (getitem_Z (searches m) _ _ (proj1 Hri') Hsr).
        rewrite (getitem_Z l' _ sr (proj1 Hri')); [done|].
        by rewrite Hother.
      * assert (Hout : getitem (filtered_searches m) r = Raise IndexError).
        { unfold getitem, position.
          by rewrite !bool_decide_eq_false_2 by lia. }
        by rewrite Hout.
    + done.
    + by apply Permutation_insert_swap.
    + unfold move_entry. simpl.
      replace (row + delta + - delta)%Z with row by lia.
      rewrite bool_decide_eq_true_2 by done.
      rewrite (getitem_Z _ _ _ (proj1 Hb) Hbi). simpl.
      rewrite (getitem_Z _ _ _ (proj1 Ha) Hai). simpl.
      rewrite (getitem_Z _ _ _ (proj1 Hai') Hla). simpl.
      rewrite (getitem_Z _ _ _ (proj1 Hbi') Hlb). simpl.
      unfold setitem. rewrite position_Z by lia. simpl.
      rewrite position_Z by (rewrite length_insert; lia). simpl.
      destruct m as [l f]. simpl in *. do 2 f_equal.
      apply list_eq. intros k.
      destruct (decide (k = Z.to_nat ai)) as [-> | Hka].
      { rewrite list_lookup_insert_eq by (rewrite length_insert; lia).
        done. }
      rewrite list_lookup_insert_ne by done.
      destruct (decide (k = Z.to_nat bi)) as [-> | Hkb].
      { rewrite list_lookup_insert_eq by lia. done. }
      rewrite list_lookup_insert_ne by done. by apply Hother.
Qed.

(** X20. [add_searches] appends rows for the last [count] saved searches,
    the newest first, and leaves the rows there were; after it a model that
    was showing every search shows every search of the longer list once. *)
Theorem add_searches_newest_first saved count (m : t search) :
  (0 <= count <= Z.of_nat (length saved))%Z ->
  let m' := add_searches saved count m in
  searches m' = saved /\
  rowCount m' = rowCount m + Z.to_nat count /\
  take (rowCount m) (filtered_searches m') = filtered_searches m /\
  (forall k : nat, k < Z.to_nat count ->
     exists s,
       saved !! (length saved - 1 - k) = Some s /\
       data (Z.of_nat (rowCount m + k)) m'
       = Some (Z.of_nat (length saved - 1 - k), s)) /\
  (forall old,
     m = init old -> length saved = length old + Z.to_nat count ->
     wf m' /\ filtered_searches m' ≡ₚ Z.of_nat <$> seq 0 (length saved)).
Proof.
  intros Hcount m'. subst m'. unfold add_searches, rowCount. simpl.
  set (n := length saved) in *.
  replace (Z.of_nat n - 1 - (Z.of_nat n - 1 - count))%Z with count by lia.
  assert (Hnew : forall k, k < Z.to_nat count ->
             xrange_down (Z.of_nat n - 1) (Z.of_nat n - 1 - count) !! k
             = Some (Z.of_nat (n - 1 - k))).
  { intros k Hk. unfold xrange_down.
    replace (Z.of_nat n - 1 - (Z.of_nat n - 1 - count))%Z with count by lia.
    rewrite list_lookup_fmap, lookup_seq_lt by done. simpl. f_equal. lia. }
  split_and!.
  - done.
  - rewrite length_app. unfold xrange_down.
    rewrite length_fmap, length_seq. f_equal. f_equal. lia.
  - by rewrite take_app_length.
  - intros k Hk.
    destruct (lookup_lt_is_Some_2 saved (n - 1 - k)) as [s Hs]; [lia|].
    exists s. split; [done|]. unfold data. simpl.
    erewrite getitem_nat.
    2:{ rewrite lookup_app_r by lia.
        replace (length (filtered_searches m) + k
                 - length (filtered_searches m)) with k by lia.
        by apply Hnew. }
    simpl. by rewrite (getitem_nat _ _ _ Hs).
  - intros old -> Hlen. simpl.
    assert (Hin : forall z,
               z ∈ (Z.of_nat <$> seq 0 (length old))
                   ++ xrange_down (Z.of_nat n - 1) (Z.of_nat n - 1 - count)
               <-> (0 <= z < Z.of_nat n)%Z).
    { intros z. rewrite elem_of_app. unfold xrange_down.
      rewrite !list_elem_of_fmap.
      replace (Z.of_nat n - 1 - (Z.of_nat n - 1 - count))%Z with count by lia.
      split.
      - intros [(k & -> & Hk) | (k & -> & Hk)];
          apply elem_of_seq in Hk; lia.
      - intros Hz. destruct (decide (z < Z.of_nat (length old))%Z).
        + left. exists (Z.to_nat z). rewrite elem_of_seq. lia.
        + right. exists (Z.to_nat (Z.of_nat n - 1 - z)).
          rewrite elem_of_seq. lia. }
    assert (Hnd : NoDup ((Z.of_nat <$> seq 0 (length old))
                         ++ xrange_down (Z.of_nat n - 1)
                              (Z.of_nat n - 1 - count))).
    { apply NoDup_app. split_and!.
      - apply (NoDup_fmap_2 _). apply NoDup_seq.
      - intros z Hz1 Hz2. unfold xrange_down in Hz2.
        apply list_elem_of_fmap in Hz1 as (k1 & -> & Hk1).
        apply list_elem_of_fmap in Hz2 as (k2 & E & Hk2).
        apply elem_of_seq in Hk1, Hk2. lia.
      - unfold xrange_down. apply NoDup_fmap_2; [|apply NoDup_seq].
        intros k1 k2 E. lia. }
    split.
    + split; [|done]. simpl. apply Forall_forall. intros z Hz.
      by apply Hin.
    + apply NoDup_Permutation; [done| |].
      * apply (NoDup_fmap_2 _). apply NoDup_seq.
      * intros z. rewrite Hin, list_elem_of_fmap. split.
        -- intros Hz. exists (Z.to_nat z). rewrite elem_of_seq. lia.
        -- intros (k & -> & Hk). apply elem_of_seq in Hk. lia.
Qed.

Lemma sorted_reverse_spec (l : list Z) :
  NoDup l ->
  StronglySorted (flip Z.lt) (sorted_reverse l) /\
  sorted_reverse l ≡ₚ l.
Proof.
  intros Hnd. unfold sorted_reverse.
  assert (Hperm : reverse (sorting.merge_sort Z.le l) ≡ₚ l).
  { by rewrite reverse_Permutation, sorting.merge_sort_Permutation. }
  split; [|done].
  assert (Hle : StronglySorted (flip Z.le) (reverse (sorting.merge_sort Z.le l))).
  { apply sorting.Sorted_StronglySorted.
    - intros x y z. unfold flip. lia.
    - apply sorting.Sorted_reverse, sorting.Sorted_merge_sort. intros x y. lia. }
  assert (Hnd' : NoDup (reverse (sorting.merge_sort Z.le l))) by (by rewrite Hperm).
  clear Hperm. induction Hle as [|x k Hk IH Hall]; [constructor|].
  apply NoDup_cons in Hnd' as [Hx Hnd'].
  constructor; [by apply IH|].
  apply Forall_forall. intros y Hy.
  pose proof (proj1 (Forall_forall _ _) Hall y Hy) as Hle'.
  unfold flip in *. assert (y <> x) by (intros ->; done). lia.
Qed.

Lemma getitems_elem_of {A} (l : list A) rows xs x :
  getitems l rows = Ok xs ->
  x ∈ xs <-> exists r, r ∈ rows /\ getitem l r = Ok x.
Proof.
  revert xs. induction rows as [|r rest IH]; intros xs; simpl.
  - intros [= <-]. split.
    + intros Hx. by apply elem_of_nil in Hx.
    + intros (r & Hr & _). by apply elem_of_nil in Hr.
  - destruct (getitem l r) as [y|e] eqn:Hy; [|discriminate]. simpl.
    destruct (getitems l rest) as [ys|e]; [|discriminate]. simpl.
    intros [= <-]. rewrite elem_of_cons, (IH ys eq_refl). split.
    + intros [-> | (r' & Hr' & Hx)].
      * exists r. split; [left|done].
      * exists r'. split; [by right|done].
    + intros (r' & Hr' & Hx). apply elem_of_cons in Hr' as [-> | Hr'].
      * left. congruence.
      * right. by exists r'.
Qed.

Lemma getitems_length {A} (l : list A) rows xs :
  getitems l rows = Ok xs -> length xs = length rows.
Proof.
  revert xs. induction rows as [|r rest IH]; intros xs; simpl.
  - by intros [= <-].
  - destruct (getitem l r) as [y|e]; [|discriminate]. simpl.
    destruct (getitems l rest) as [ys|e]; [|discriminate]. simpl.
    intros [= <-]. simpl. by rewrite (IH ys).
Qed.

Lemma getitems_ext {A} (l1 l2 : list A) rows :
  (forall r, r ∈ rows -> getitem l1 r = getitem l2 r) ->
  getitems l1 rows = getitems l2 rows.
Proof.
  induction rows as [|r rest IH]; intros Hext; simpl; [done|].
  rewrite (Hext r) by left. rewrite IH; [done|].
  intros r' Hr'. apply Hext. by right.
Qed.

(** Deleting at strictly decreasing positions of a list: the elements at
    these positions go, the others stay in their order. *)
Lemma delitems_descending {A} (rows : list Z) (l : list A) :
  StronglySorted (flip Z.lt) rows ->
  Forall (fun r => (0 <= r < Z.of_nat (length l))%Z) rows ->
  exists l' xs,
    delitems rows l = Ok l' /\ getitems l rows = Ok xs /\
    l' `sublist_of` l /\ l ≡ₚ l' ++ xs.
Proof.
  intros Hsorted. revert l.
  induction Hsorted as [|r rest Hrest IH Hall]; intros l Hrange; simpl.
  - exists l, []. rewrite app_nil_r. done.
  - apply Forall_cons in Hrange as [Hr Hrange].
    destruct (lookup_Z l r Hr) as [x Hx].
    unfold delitem. rewrite (position_Z _ _ Hr). simpl.
    rewrite (getitem_Z _ _ _ (proj1 Hr) Hx). simpl.
    assert (Hlt : forall r', r' ∈ rest -> (0 <= r' < r)%Z).
    { intros r' Hr'.
      pose proof (proj1 (Forall_forall _ _) Hall r' Hr') as H1.
      pose proof (proj1 (Forall_forall _ _) Hrange r' Hr') as H2.
      unfold flip in H1. simpl in H1, H2. lia. }
    destruct (IH (delete (Z.to_nat r) l)) as (l' & xs & Hdel & Hget & Hsub & Hp).
    { apply Forall_forall. intros r' Hr'. specialize (Hlt r' Hr').
      rewrite length_delete by (by exists x). lia. }
    exists l', (x :: xs). rewrite Hdel.
    rewrite (getitems_ext l (delete (Z.to_nat r) l) rest), Hget.
    2:{ intros r' Hr'. specialize (Hlt r' Hr').
        unfold getitem.
        rewrite !position_Z
          by (rewrite ?length_delete by (by exists x); lia).
        simpl. rewrite list_lookup_delete_lt by lia. done. }
    simpl. split_and!; try done.
    + etrans; [exact Hsub|]. apply sublist_delete.
    + rewrite (delete_Permutation l (Z.to_nat r) x Hx), Hp.
      by rewrite Permutation_middle.
Qed.

(** X21. On a model whose rows refer to distinct saved searches,
    [remove_searches] removes the rows asked for, each once, and the
    searches they show: the searches that stay keep their order, and so do
    the rows, which also keep the indices they had. *)
Theorem remove_searches_removes_rows rows (m : t search) :
  wf m ->
  Forall (fun r => (0 <= r < Z.of_nat (rowCount m))%Z) rows ->
  exists m' removed,
    remove_searches rows m = Ok m' /\
    searches m' `sublist_of` searches m /\
    searches m ≡ₚ searches m' ++ removed /\
    (forall s, s ∈ removed <->
       exists r i, r ∈ rows /\ data r m = Some (i, s)) /\
    length removed = length (remove_dups rows) /\
    filtered_searches m' `sublist_of` filtered_searches m /\
    rowCount m' = rowCount m - length (remove_dups rows).
Proof.
  unfold rowCount. intros [Hrange Hnd] Hrows. unfold remove_searches.
  destruct (sorted_reverse_spec (remove_dups rows)) as [Hsorted Hperm];
    [apply NoDup_remove_dups|].
  fold (sorted_set_reverse rows) in Hsorted, Hperm.
  assert (Hrows_in : forall r, r ∈ sorted_set_reverse rows <-> r ∈ rows).
  { intros r. by rewrite Hperm, elem_of_remove_dups. }
  destruct (delitems_descending (sorted_set_reverse rows)
              (filtered_searches m) Hsorted)
    as (f' & idxs & Hdel & Hget & Hsub & Hpf).
  { apply Forall_forall. intros r Hr. apply Hrows_in in Hr.
    by apply (proj1 (Forall_forall _ _) Hrows). }
  rewrite Hget, Hdel. simpl.
  assert (Hnd_idxs : NoDup idxs).
  { rewrite Hpf in Hnd. by apply NoDup_app in Hnd as (_ & _ & ?). }
  destruct (sorted_reverse_spec idxs Hnd_idxs) as [Hsorted' Hperm'].
  destruct (delitems_descending (sorted_reverse idxs) (searches m) Hsorted')
    as (l' & removed & Hdel' & Hget' & Hsub' & Hpl).
  { apply Forall_forall. intros i Hi. rewrite Hperm' in Hi.
    apply (proj1 (Forall_forall _ _) Hrange).
    rewrite Hpf. apply elem_of_app. by right. }
  rewrite Hdel'. simpl. eexists _, removed. split; [reflexivity|]. simpl.
  assert (Hlen_idxs : length idxs = length (remove_dups rows)).
  { rewrite (getitems_length _ _ _ Hget). unfold sorted_set_reverse.
    by rewrite Hperm. }
  split_and!; try done.
  - intros s. rewrite (getitems_elem_of _ _ _ s Hget'). split.
    + intros (i & Hi & Hs). rewrite Hperm' in Hi.
      apply (getitems_elem_of _ _ _ i Hget) in Hi as (r & Hr & Hri).
      exists r, i. split; [by apply Hrows_in|].
      unfold data. rewrite Hri. simpl. by rewrite Hs.
    + intros (r & i & Hr & Hdata). unfold data in Hdata.
      destruct (getitem (filtered_searches m) r) as [i'|e] eqn:Hri;
        [|discriminate]. simpl in Hdata.
      destruct (getitem (searches m) i') as [s'|e] eqn:Hs; [|discriminate].
      simpl in Hdata. injection Hdata as -> ->.
      exists i. split; [|done]. rewrite Hperm'.
      apply (getitems_elem_of _ _ _ i Hget). exists r.
      split; [by apply Hrows_in|done].
  - rewrite (getitems_length _ _ _ Hget'). unfold sorted_reverse.
    by rewrite length_reverse, sorting.merge_sort_Permutation.
  - pose proof (Permutation_length Hpf) as Hl.
    rewrite length_app in Hl. lia.
Qed.

Lemma sorted_reverse_singleton (z : Z) : sorted_reverse [z] = [z].
Proof.
  apply Permutation_singleton_r.
  unfold sorted_reverse. by rewrite reverse_Permutation, sorting.merge_sort_Permutation.
Qed.

Lemma sorted_set_reverse_singleton (z : Z) : sorted_set_reverse [z] = [z].
Proof.
  unfold sorted_set_reverse.
  assert (Hd : remove_dups [z] = [z]) by reflexivity.
  rewrite Hd. apply sorted_reverse_singleton.
Qed.

(** X22. [remove_searches] does not renumber the rows that stay. In a model
    that shows all the saved searches, after the removal of a row that is not
    the last one the rows above it show what they showed, each row from it
    on shows the search that was two rows further down, and the last row has
    no data. *)
Theorem remove_searches_keeps_indices (saved : list search) (r : nat) :
  S r < length saved ->
  exists m',
    remove_searches [Z.of_nat r] (init saved) = Ok m' /\
    searches m' = delete r saved /\
    rowCount m' = length saved - 1 /\
    (forall k, k < r ->
       exists s, saved !! k = Some s /\
         data (Z.of_nat k) m' = Some (Z.of_nat k, s)) /\
    (forall k, r <= k -> k + 2 < length saved ->
       exists s, saved !! (k + 2) = Some s /\
         data (Z.of_nat k) m' = Some (Z.of_nat (k + 1), s)) /\
    data (Z.of_nat (length saved - 2)) m' = None.
Proof.
  intros Hr. set (n := length saved) in *.
  set (f := Z.of_nat <$> seq 0 n).
  assert (Hf : forall k, k < n -> f !! k = Some (Z.of_nat k)).
  { intros k Hk. unfold f. by rewrite list_lookup_fmap, lookup_seq_lt. }
  assert (Hflen : length f = n).
  { unfold f. by rewrite length_fmap, length_seq. }
  destruct (lookup_lt_is_Some_2 saved r) as [sr Hsr]; [lia|].
  assert (Hrun : remove_searches [Z.of_nat r] (init saved)
                 = Ok {| searches := delete r saved;
                         filtered_searches := delete r f |}).
  { unfold remove_searches, init.
    rewrite sorted_set_reverse_singleton.
    cbn [searches filtered_searches getitems delitems]. fold n. fold f.
    rewrite (getitem_nat f r (Z.of_nat r)) by (apply Hf; lia).
    cbn [mbind result_bind].
    unfold delitem. rewrite position_nat by lia.
    cbn [mbind result_bind].
    rewrite sorted_reverse_singleton.
    cbn [delitems mbind result_bind].
    unfold delitem. rewrite position_nat by lia. done. }
  assert (Hf' : forall k,
             delete r f !! k
             = if decide (k < r) then f !! k else f !! S k).
  { intros k. rewrite list_lookup_delete. by destruct (decide (k < r)). }
  assert (Hs' : forall k,
             delete r saved !! k
             = if decide (k < r) then saved !! k else saved !! S k).
  { intros k. rewrite list_lookup_delete. by destruct (decide (k < r)). }
  eexists. split; [exact Hrun|]. unfold rowCount, data. simpl.
  split_and!.
  - done.
  - rewrite length_delete by (exists (Z.of_nat r); apply Hf; lia). lia.
  - intros k Hk. destruct (lookup_lt_is_Some_2 saved k) as [s Hs]; [lia|].
    exists s. split; [done|].
    rewrite (getitem_nat _ k (Z.of_nat k)).
    2:{ rewrite Hf', decide_True by done. apply Hf. lia. }
    simpl. rewrite (getitem_nat _ k s); [done|].
    by rewrite Hs', decide_True.
  - intros k Hk Hk2.
    destruct (lookup_lt_is_Some_2 saved (k + 2)) as [s Hs]; [lia|].
    exists s. split; [done|].
    rewrite (getitem_nat _ k (Z.of_nat (S k))).
    2:{ rewrite Hf', decide_False by lia. apply Hf. lia. }
    replace (k + 1) with (S k) by lia.
    simpl. rewrite (getitem_nat _ (S k) s); [done|].
    rewrite Hs', decide_False by lia. by replace (S (S k)) with (k + 2) by lia.
  - rewrite (getitem_nat _ (n - 2) (Z.of_nat (n - 1))).
    2:{ rewrite Hf', decide_False by lia.
        replace (S (n - 2)) with (n - 1) by lia. apply Hf. lia. }
    simpl. unfold getitem, position.
    rewrite length_delete by (by exists sr). fold n.
    rewrite !bool_decide_eq_false_2 by lia. done.
Qed.

End ModelProperties.

Lemma demo_model_wf :
  SearchesModel.wf (SearchesModel.init ["A"; "B"; "C"; "D"]).
Proof.
  split; simpl.
  - apply (bool_decide_unpack _). vm_compute. exact I.
  - apply (bool_decide_unpack _). vm_compute. exact I.
Qed.

Lemma move_entry_swaps_witness :
  exists m',
    SearchesModel.move_entry 1 1 (SearchesModel.init ["A"; "B"; "C"; "D"])
    = Ok m' /\
    SearchesModel.searches m' ≡ₚ ["A"; "B"; "C"; "D"].
Proof.
  destruct (move_entry_swaps 1 1 (SearchesModel.init ["A"; "B"; "C"; "D"]))
    as [_ H].
  destruct H as (m' & i & j & s & s' & Hm & _ & _ & _ & _ & _ & _ & Hp & _).
  - exact demo_model_wf.
  - unfold SearchesModel.rowCount. simpl. lia.
  - unfold SearchesModel.rowCount. simpl. lia.
  - exists m'. split; [exact Hm | exact Hp].
Defined.

Lemma add_searches_newest_first_witness :
  SearchesModel.rowCount
    (SearchesModel.add_searches ["A"; "B"; "C"; "D"; "E"; "F"] 2
       (SearchesModel.init ["A"; "B"; "C"; "D"]))
  = 6.
Proof.
  destruct (add_searches_newest_first ["A"; "B"; "C"; "D"; "E"; "F"] 2
              (SearchesModel.init ["A"; "B"; "C"; "D"]))
    as (_ & Hrows & _).
  - simpl. lia.
  - exact Hrows.
Defined.

Lemma remove_searches_removes_rows_witness :
  exists m' (removed : list string),
    SearchesModel.remove_searches [1%Z; 3%Z; 1%Z]
      (SearchesModel.init ["A"; "B"; "C"; "D"]) = Ok m' /\
    length removed = 2.
Proof.
  destruct (remove_searches_removes_rows [1%Z; 3%Z; 1%Z]
              (SearchesModel.init ["A"; "B"; "C"; "D"]))
    as (m' & removed & Hrun & _ & _ & _ & Hlen & _).
  - exact demo_model_wf.
  - apply (bool_decide_unpack _). vm_compute. exact I.
  - exists m', removed. split; [exact Hrun | exact Hlen].
Defined.

Lemma remove_searches_keeps_indices_witness :
  exists m',
    SearchesModel.remove_searches [1%Z]
      (SearchesModel.init ["A"; "B"; "C"; "D"]) = Ok m' /\
    SearchesModel.data 2 m' = None.
Proof.
  destruct (remove_searches_keeps_indices ["A"; "B"; "C"; "D"] 1)
    as (m' & Hrun & _ & _ & _ & _ & Hlast).
  - simpl. lia.
  - exists m'. split; [exact Hrun | exact Hlast].
Defined.

(** ** The search panel *)

Ltac lookup_dict :=
  repeat first
    [ rewrite lookup_insert_eq
    | rewrite lookup_insert_ne by done
    | rewrite lookup_singleton_eq
    | rewrite lookup_singleton_ne by done ].

Lemma set_where_spec val w :
  match where_of val with
  | Some _ =>
      exists s w',
        val = PStr s /\ SearchWidget.set_where val w = Ok w' /\
        SearchWidget.get_where w' = Ok s /\
        SearchWidget.where_box w' < 5 /\
        SearchWidget.mode_box w' = SearchWidget.mode_box w /\
        SearchWidget.direction_box w' = SearchWidget.direction_box w /\
        SearchWidget.cs w' = SearchWidget.cs w /\
        SearchWidget.wr w' = SearchWidget.wr w /\
        SearchWidget.da w' = SearchWidget.da w /\
        SearchWidget.find_text w' = SearchWidget.find_text w /\
        SearchWidget.replace_text w' = SearchWidget.replace_text w /\
        SearchWidget.functions w' = SearchWidget.functions w
  | None => SearchWidget.set_where val w = Raise (KeyError (key_repr val))
  end.
Proof.
  destruct val as [s|b]; [|done].
  destruct (decide (s = "current")) as [-> | H1].
  { simpl. eexists _, _. split_and!; try reflexivity. simpl. lia. }
  destruct (decide (s = "text")) as [-> | H2].
  { simpl. eexists _, _. split_and!; try reflexivity. simpl. lia. }
  destruct (decide (s = "styles")) as [-> | H3].
  { simpl. eexists _, _. split_and!; try reflexivity. simpl. lia. }
  destruct (decide (s = "selected")) as [-> | H4].
  { simpl. eexists _, _. split_and!; try reflexivity. simpl. lia. }
  destruct (decide (s = "selected-text")) as [-> | H5].
  { simpl. eexists _, _. split_and!; try reflexivity. simpl. lia. }
  assert (Hnone : where_of (PStr s) = None).
  { unfold where_of.
    repeat match goal with
           | |- context [match ?x with _ => _ end] =>
               destruct x; try done
           end. }
  rewrite Hnone. unfold SearchWidget.set_where, SearchWidget.wm. simpl.
  rewrite !decide_False by done. done.
Qed.

Lemma get_state_spec w :
  SearchWidget.wf w ->
  exists m wh,
    ["normal"; "regex"; "function"] !! SearchWidget.mode_box w = Some m /\
    SearchWidget.wm !! SearchWidget.where_box w = Some wh /\
    SearchWidget.get_mode w = Ok m /\ SearchWidget.get_where w = Ok wh /\
    SearchWidget.get_state w
    = Ok ({[ "mode" := PStr m; "where" := PStr wh;
             "case_sensitive" := PBool (SearchWidget.cs w);
             "direction" := PStr (SearchWidget.get_direction w);
             "wrap" := PBool (SearchWidget.wr w);
             "dot_all" := PBool (SearchWidget.da w) ]}
          : gmap string pyval).
Proof.
  intros (Hm & Hw & _).
  destruct (lookup_lt_is_Some_2 ["normal"; "regex"; "function"]
              (SearchWidget.mode_box w)) as [m Hm']; [done|].
  destruct (lookup_lt_is_Some_2 SearchWidget.wm (SearchWidget.where_box w))
    as [wh Hw']; [done|].
  exists m, wh. unfold SearchWidget.get_state, SearchWidget.get_mode,
    SearchWidget.get_where, ModeBox_mode. rewrite Hm', Hw'. done.
Qed.

(** The widget after the five setters of [set_state] that cannot raise. *)
Lemma set_state_fields val w :
  exists w5,
    SearchWidget.set_state val w
    = match val !! "where" with
      | Some v => SearchWidget.set_where v w5
      | None => Ok w5
      end /\
    SearchWidget.mode_box w5
    = match val !! "mode" with
      | Some v =>
          if bool_decide (v = PStr "regex") then 1
          else if bool_decide (v = PStr "function") then 2 else 0
      | None => SearchWidget.mode_box w
      end /\
    SearchWidget.where_box w5 = SearchWidget.where_box w /\
    SearchWidget.direction_box w5
    = match val !! "direction" with
      | Some v => if bool_decide (v = PStr "up") then 1 else 0
      | None => SearchWidget.direction_box w
      end /\
    SearchWidget.cs w5
    = from_option truth (SearchWidget.cs w) (val !! "case_sensitive") /\
    SearchWidget.wr w5 = from_option truth (SearchWidget.wr w) (val !! "wrap") /\
    SearchWidget.da w5
    = from_option truth (SearchWidget.da w) (val !! "dot_all") /\
    SearchWidget.find_text w5 = SearchWidget.find_text w /\
    SearchWidget.replace_text w5 = SearchWidget.replace_text w /\
    SearchWidget.functions w5 = SearchWidget.functions w.
Proof.
  unfold SearchWidget.set_state. eexists. split; [reflexivity|].
  unfold SearchWidget.set_mode, ModeBox_set_mode.
  destruct (val !! "mode"), (val !! "case_sensitive"), (val !! "direction"),
    (val !! "wrap"), (val !! "dot_all"); simpl; split_and!; reflexivity.
Qed.

Lemma set_state_ok val w :
  SearchWidget.wf w ->
  (forall v, val !! "where" = Some v -> is_Some (where_of v)) ->
  exists w' wh,
    SearchWidget.set_state val w = Ok w' /\ SearchWidget.wf w' /\
    SearchWidget.get_where w = Ok wh /\
    SearchWidget.get_where w'
    = Ok (from_option key_repr wh (val !! "where")) /\
    SearchWidget.mode_box w'
    = match val !! "mode" with
      | Some v =>
          if bool_decide (v = PStr "regex") then 1
          else if bool_decide (v = PStr "function") then 2 else 0
      | None => SearchWidget.mode_box w
      end /\
    SearchWidget.direction_box w'
    = match val !! "direction" with
      | Some v => if bool_decide (v = PStr "up") then 1 else 0
      | None => SearchWidget.direction_box w
      end /\
    SearchWidget.cs w'
    = from_option truth (SearchWidget.cs w) (val !! "case_sensitive") /\
    SearchWidget.wr w' = from_option truth (SearchWidget.wr w) (val !! "wrap") /\
    SearchWidget.da w'
    = from_option truth (SearchWidget.da w) (val !! "dot_all") /\
    SearchWidget.find_text w' = SearchWidget.find_text w /\
    SearchWidget.replace_text w' = SearchWidget.replace_text w /\
    SearchWidget.functions w' = SearchWidget.functions w.
Proof.
  intros Hwf Hvalid.
  destruct (set_state_fields val w)
    as (w5 & Hset & Hm5 & Hw5 & Hd5 & Hcs5 & Hwr5 & Hda5 & Hf5 & Hr5 & Hfn5).
  assert (Hwf5 : SearchWidget.wf w5).
  { destruct Hwf as (Hm & Hw & Hd). unfold SearchWidget.wf.
    rewrite Hm5, Hw5, Hd5. split_and!; [|done|].
    - destruct (val !! "mode"); [|done]. repeat case_bool_decide; lia.
    - destruct (val !! "direction"); [|done]. case_bool_decide; lia. }
  destruct (get_state_spec w Hwf) as (m & wh & _ & Hwh & _ & Hgw & _).
  rewrite Hset. destruct (val !! "where") as [v|] eqn:Hv.
  - destruct (Hvalid v eq_refl) as [x Hx].
    pose proof (set_where_spec v w5) as Hsw. rewrite Hx in Hsw.
    destruct Hsw as (s & w' & -> & Hsw & Hgw' & Hlt & Hm' & Hd' & Hcs' & Hwr'
                     & Hda' & Hf' & Hr' & Hfn').
    exists w', wh. simpl. split; [done|]. split.
    { destruct Hwf5 as (? & _ & ?). unfold SearchWidget.wf.
      rewrite Hm', Hd'. done. }
    split_and!; congruence.
  - exists w5, wh. simpl. split_and!; try done.
    unfold SearchWidget.get_where in *. by rewrite Hw5.
Qed.

(** X23. Setting the state of the search widget and reading it back: a key
    the dict has reads back as the value set, normalised (an unknown mode is
    ['normal'], a direction other than ['up'] is ['down'], a check box holds
    the truth value); a key it lacks reads as before; the three text boxes
    are not touched. Setting fails, with KeyError, exactly when the dict has
    a ['where'] that is not the name of a scope. *)
Theorem set_state_then_state val w :
  SearchWidget.wf w ->
  ((forall v, val !! "where" = Some v -> where_of v = None ->
      SearchWidget.set_state val w = Raise (KeyError (key_repr v))) /\
   ((forall v, val !! "where" = Some v -> is_Some (where_of v)) ->
    exists w' d d',
      SearchWidget.set_state val w = Ok w' /\ SearchWidget.wf w' /\
      SearchWidget.get_state w = Ok d /\
      SearchWidget.get_state w' = Ok d' /\
      d' !! "mode"
      = match val !! "mode" with
        | Some v =>
            Some (PStr (if bool_decide (v = PStr "regex") then "regex"
                        else if bool_decide (v = PStr "function")
                        then "function" else "normal"))
        | None => d !! "mode"
        end /\
      d' !! "where" = from_option Some (d !! "where") (val !! "where") /\
      d' !! "direction"
      = match val !! "direction" with
        | Some v =>
            Some (PStr (if bool_decide (v = PStr "up") then "up" else "down"))
        | None => d !! "direction"
        end /\
      d' !! "case_sensitive"
      = from_option (fun v => Some (PBool (truth v))) (d !! "case_sensitive")
          (val !! "case_sensitive") /\
      d' !! "wrap"
      = from_option (fun v => Some (PBool (truth v))) (d !! "wrap")
          (val !! "wrap") /\
      d' !! "dot_all"
      = from_option (fun v => Some (PBool (truth v))) (d !! "dot_all")
          (val !! "dot_all") /\
      SearchWidget.find_text w' = SearchWidget.find_text w /\
      SearchWidget.replace_text w' = SearchWidget.replace_text w /\
      SearchWidget.functions w' = SearchWidget.functions w)).
Proof.
  intros Hwf. split.
  - intros v Hv Hnone.
    destruct (set_state_fields val w) as (w5 & Hset & _).
    rewrite Hset, Hv.
    pose proof (set_where_spec v w5) as Hsw. by rewrite Hnone in Hsw.
  - intros Hvalid.
    destruct (set_state_ok val w Hwf Hvalid)
      as (w' & wh & Hset & Hwf' & Hgw & Hgw' & Hm' & Hd' & Hcs' & Hwr' & Hda'
          & Hf' & Hr' & Hfn').
    destruct (get_state_spec w Hwf) as (m & wh0 & Hm & _ & _ & Hgw0 & Hget).
    destruct (get_state_spec w' Hwf')
      as (m' & wh' & Hmm & _ & _ & Hgw0' & Hget').
    eexists w', _, _. split; [exact Hset|]. split; [exact Hwf'|].
    split; [exact Hget|]. split; [exact Hget'|].
    lookup_dict. split_and!; try done.
    + rewrite Hm' in Hmm. destruct (val !! "mode") as [v|].
      * repeat case_bool_decide; simpl in Hmm; congruence.
      * congruence.
    + assert (wh0 = wh) as -> by congruence.
      assert (wh' = from_option key_repr wh (val !! "where")) as ->
        by congruence.
      destruct (val !! "where") as [v|] eqn:Hv; simpl; [|done].
      destruct (Hvalid v eq_refl) as [x Hx]. by destruct v.
    + unfold SearchWidget.get_direction. rewrite Hd'.
      destruct (val !! "direction") as [v|]; [|done].
      by case_bool_decide.
    + rewrite Hcs'. by destruct (val !! "case_sensitive").
    + rewrite Hwr'. by destruct (val !! "wrap").
    + rewrite Hda'. by destruct (val !! "dot_all").
Qed.

(** X24. [restore_state] never leaves the panel in the marked-text scope: a
    stored ['selected-text'] becomes ['current'], any other stored scope is
    kept; with nothing stored the panel gets [DEFAULT_STATE]. The text boxes
    are not touched. *)
Theorem restore_state_never_marked stored w :
  SearchWidget.wf w ->
  (forall d v, stored = Some d -> d !! "where" = Some v ->
     is_Some (where_of v)) ->
  exists w' wh,
    SearchWidget.restore_state stored w = Ok w' /\ SearchWidget.wf w' /\
    SearchWidget.get_where w' = Ok wh /\ wh <> "selected-text" /\
    (stored = None ->
     SearchWidget.get_state w' = Ok SearchWidget.DEFAULT_STATE) /\
    (forall d s, stored = Some d -> d !! "where" = Some (PStr s) ->
       wh = if bool_decide (s = "selected-text") then "current" else s) /\
    SearchWidget.find_text w' = SearchWidget.find_text w /\
    SearchWidget.replace_text w' = SearchWidget.replace_text w /\
    SearchWidget.functions w' = SearchWidget.functions w.
Proof.
  intros Hwf Hvalid. unfold SearchWidget.restore_state.
  destruct (set_state_ok (default SearchWidget.DEFAULT_STATE stored) w Hwf)
    as (w1 & wh0 & Hset & Hwf1 & Hgw & Hgw1 & Hm1 & Hd1 & Hcs1 & Hwr1 & Hda1
        & Hf1 & Hr1 & Hfn1).
  { intros v Hv. destruct stored as [d|]; simpl in Hv.
    - by eapply Hvalid.
    - unfold SearchWidget.DEFAULT_STATE in Hv. revert Hv. lookup_dict.
      intros [= <-]. by eexists. }
  rewrite Hset. simpl. rewrite Hgw1. simpl.
  set (wh1 := from_option key_repr wh0
                (default SearchWidget.DEFAULT_STATE stored !! "where")) in *.
  destruct (decide (wh1 = "selected-text")) as [Hsel | Hsel].
  - rewrite bool_decide_eq_true_2 by done.
    pose proof (set_where_spec (PStr "current") w1) as Hsw. simpl in Hsw.
    destruct Hsw as (s & w' & [= <-] & Hsw & Hgw' & Hlt & Hm' & Hd' & Hcs'
                     & Hwr' & Hda' & Hf' & Hr' & Hfn').
    exists w', "current". split; [exact Hsw|]. split_and!; try congruence.
    + destruct Hwf1 as (? & _ & ?). unfold SearchWidget.wf.
      rewrite Hm', Hd'. done.
    + intros ->. simpl in wh1. unfold SearchWidget.DEFAULT_STATE in wh1.
      revert Hsel. unfold wh1. lookup_dict. simpl. discriminate.
    + intros d s -> Hs. simpl in wh1. unfold wh1 in Hsel.
      rewrite Hs in Hsel. simpl in Hsel. subst s.
      by rewrite bool_decide_eq_true_2.
  - rewrite bool_decide_eq_false_2 by done.
    exists w1, wh1. split; [done|]. split_and!; try done.
    + intros ->. simpl in *.
      destruct (get_state_spec w1 Hwf1) as (m & wh & Hm & _ & _ & Hgw' & Hget).
      rewrite Hget. unfold SearchWidget.DEFAULT_STATE.
      assert (m = "normal") as ->.
      { rewrite Hm1 in Hm. unfold SearchWidget.DEFAULT_STATE in Hm.
        revert Hm. lookup_dict. simpl. congruence. }
      assert (wh = "current") as ->.
      { assert (wh = wh1) as -> by congruence. unfold wh1.
        unfold SearchWidget.DEFAULT_STATE. by lookup_dict. }
      unfold SearchWidget.get_direction. rewrite Hd1, Hcs1, Hwr1, Hda1.
      unfold SearchWidget.DEFAULT_STATE. lookup_dict. done.
    + intros d s -> Hs. simpl in wh1. unfold wh1 in *. rewrite Hs in *.
      simpl in *. by rewrite bool_decide_eq_false_2.
Qed.

(** The state dict of the panel always reads as a search state. *)
Lemma panel_state_spec w :
  SearchWidget.wf w ->
  exists d st,
    SearchWidget.panel_state w = Ok d /\ state_of_dict d = Some st /\
    find st = SearchWidget.find_text w /\
    replace st
    = (if bool_decide (SearchWidget.mode_box w = 2)
       then SearchWidget.functions w else SearchWidget.replace_text w) /\
    mode st
    = (if bool_decide (SearchWidget.mode_box w = 0) then mode_normal
       else if bool_decide (SearchWidget.mode_box w = 1) then mode_regex
       else mode_function) /\
    case_sensitive st = SearchWidget.cs w /\
    dot_all st = SearchWidget.da w /\
    wrap st = SearchWidget.wr w /\
    direction st
    = (if bool_decide (SearchWidget.direction_box w = 0) then dir_down
       else dir_up) /\
    (where_ st = where_selected_text <-> SearchWidget.where_box w = 4).
Proof.
  intros (Hm & Hw & Hd). destruct w as [mb wb db c wr a ft rt fn].
  simpl in *. unfold SearchWidget.panel_state, SearchWidget.get_state,
    SearchWidget.get_replace, SearchWidget.get_mode, SearchWidget.get_where,
    SearchWidget.get_direction, SearchWidget.get_find, SearchWidget.wm,
    ModeBox_mode.
  simpl.
  assert (Hmb : mb = 0 \/ mb = 1 \/ mb = 2) by lia.
  assert (Hwb : wb = 0 \/ wb = 1 \/ wb = 2 \/ wb = 3 \/ wb = 4) by lia.
  assert (Hdb : db = 0 \/ db = 1) by lia.
  destruct Hmb as [-> | [-> | ->]];
    destruct Hwb as [-> | [-> | [-> | [-> | ->]]]];
    destruct Hdb as [-> | ->]; simpl;
    (eexists _, _; split; [reflexivity|];
     unfold state_of_dict; lookup_dict; simpl;
     split; [reflexivity|]; simpl; split_and!; try reflexivity;
     split; intros; (discriminate || lia || reflexivity)).
Qed.

Section PanelAndRegex.

Variable regex : regex_module.
Variable replace_functions : gset string.

(** X25. A text that [pre_fill] puts in the find box is searched for
    literally in every mode: what reaches [regex.compile] is the text
    escaped exactly once, by [get_search_regex] in normal mode and by
    [pre_fill] in regex and function mode. Nothing but the find box
    changes. *)
Theorem pre_fill_escapes_once text w :
  SearchWidget.wf w ->
  exists w' d st,
    SearchWidget.pre_fill regex text w = Ok w' /\
    SearchWidget.wf w' /\
    SearchWidget.find_text w'
    = (if bool_decide (SearchWidget.mode_box w = 0) then text
       else escape regex text) /\
    SearchWidget.panel_state w' = Ok d /\ state_of_dict d = Some st /\
    (search_key regex st).2 = escape regex text /\
    SearchWidget.mode_box w' = SearchWidget.mode_box w /\
    SearchWidget.where_box w' = SearchWidget.where_box w /\
    SearchWidget.direction_box w' = SearchWidget.direction_box w /\
    SearchWidget.cs w' = SearchWidget.cs w /\
    SearchWidget.wr w' = SearchWidget.wr w /\
    SearchWidget.da w' = SearchWidget.da w /\
    SearchWidget.replace_text w' = SearchWidget.replace_text w /\
    SearchWidget.functions w' = SearchWidget.functions w.
Proof.
  intros Hwf.
  destruct (get_state_spec w Hwf) as (m & wh & Hm & _ & Hgm & _ & _).
  set (text' := if bool_decide (SearchWidget.mode_box w = 0) then text
                else escape regex text).
  assert (Hpre : SearchWidget.pre_fill regex text w
                 = Ok (SearchWidget.set_find text' w)).
  { unfold SearchWidget.pre_fill. rewrite Hgm. simpl. unfold text'.
    destruct Hwf as (Hlt & _).
    destruct (SearchWidget.mode_box w) as [|[|[|k]]]; simpl in Hm;
      try lia; injection Hm as <-; done. }
  assert (Hwf' : SearchWidget.wf (SearchWidget.set_find text' w)) by done.
  destruct (panel_state_spec _ Hwf')
    as (d & st & Hd & Hst & Hfind & _ & Hmode & _).
  exists (SearchWidget.set_find text' w), d, st.
  split_and!; try done.
  unfold search_key. simpl. rewrite Hfind, Hmode. simpl. unfold text'.
  destruct Hwf as (Hlt & _).
  destruct (SearchWidget.mode_box w) as [|[|[|k]]]; try lia; done.
Qed.

(** X26. In function mode the panel reports the text of the function box
    as ['replace'], whatever the replace box holds: setting [replace] does
    not change what is read back, and [get_search_function] looks that name
    up. In the other modes the replace box is the template. *)
Theorem function_mode_reads_function_box val w :
  SearchWidget.wf w ->
  SearchWidget.get_replace (SearchWidget.set_replace val w)
  = Ok (if bool_decide (SearchWidget.mode_box w = 2)
        then SearchWidget.functions w else val) /\
  exists d st,
    SearchWidget.panel_state w = Ok d /\ state_of_dict d = Some st /\
    get_search_function replace_functions st
    = if bool_decide (SearchWidget.mode_box w = 2) then
        if bool_decide (SearchWidget.functions w ∈ replace_functions)
        then Ok (Callable (SearchWidget.functions w))
        else Raise (NoSuchFunction (SearchWidget.functions w))
      else Ok (Template (SearchWidget.replace_text w)).
Proof.
  intros Hwf. split.
  - destruct Hwf as (Hlt & _). unfold SearchWidget.get_replace,
      SearchWidget.get_mode, ModeBox_mode. simpl.
    destruct (SearchWidget.mode_box w) as [|[|[|k]]]; try lia; done.
  - destruct (panel_state_spec _ Hwf)
      as (d & st & Hd & Hst & _ & Hrepl & Hmode & _).
    exists d, st. split; [done|]. split; [done|].
    unfold get_search_function. rewrite Hrepl, Hmode.
    destruct Hwf as (Hlt & _).
    destruct (SearchWidget.mode_box w) as [|[|[|k]]]; try lia; done.
Qed.

End PanelAndRegex.

Lemma demo_widget_wf : SearchWidget.wf demo_widget.
Proof. unfold SearchWidget.wf. simpl. lia. Qed.

Lemma set_state_then_state_witness :
  exists w',
    SearchWidget.set_state
      {[ "mode" := PStr "bogus"; "wrap" := PBool false ]} demo_widget
    = Ok w' /\
    SearchWidget.wf w'.
Proof.
  destruct (set_state_then_state
              {[ "mode" := PStr "bogus"; "wrap" := PBool false ]}
              demo_widget demo_widget_wf) as [_ H].
  destruct H as (w' & d & d' & Hset & Hwf & _).
  - intros v Hv. vm_compute in Hv. discriminate Hv.
  - exists w'. split; [exact Hset | exact Hwf].
Defined.

Lemma restore_state_never_marked_witness :
  exists w',
    SearchWidget.restore_state
      (Some {[ "where" := PStr "selected-text" ]}) demo_widget = Ok w' /\
    SearchWidget.get_where w' = Ok "current".
Proof.
  destruct (restore_state_never_marked
              (Some {[ "where" := PStr "selected-text" ]}) demo_widget
              demo_widget_wf)
    as (w' & wh & Hrun & _ & Hwh & _ & _ & Hsel & _).
  - intros d v [= <-] Hv. vm_compute in Hv. injection Hv as <-.
    by eexists.
  - exists w'. split; [exact Hrun|].
    rewrite Hwh. f_equal. apply (Hsel _ "selected-text" eq_refl).
    vm_compute. reflexivity.
Defined.

Lemma pre_fill_escapes_once_witness :
  exists w' d st,
    SearchWidget.pre_fill Demo.engine "a.b" demo_widget = Ok w' /\
    SearchWidget.panel_state w' = Ok d /\ state_of_dict d = Some st /\
    (search_key Demo.engine st).2 = "a.b".
Proof.
  destruct (pre_fill_escapes_once Demo.engine "a.b" demo_widget
              demo_widget_wf)
    as (w' & d & st & Hpre & _ & _ & Hd & Hst & Hkey & _).
  exists w', d, st. split_and!; [exact Hpre | exact Hd | exact Hst | exact Hkey].
Defined.

Lemma function_mode_reads_function_box_witness :
  SearchWidget.get_replace (SearchWidget.set_replace "other" demo_widget)
  = Ok "other".
Proof.
  destruct (function_mode_reads_function_box Demo.functions "other"
              demo_widget demo_widget_wf) as [Hget _].
  exact Hget.
Defined.

(** ** Editing a saved search *)

Lemma names_of_spec searches names :
  names_of searches = Ok names <-> s_name <$> searches = Some <$> names.
Proof.
  revert names. induction searches as [|x rest IH]; intros names; simpl.
  - split.
    + by intros [= <-].
    + intros H. symmetry in H. apply fmap_nil_inv in H. by subst.
  - unfold name_of. destruct (s_name x) as [n|] eqn:Hn; simpl.
    + destruct (names_of rest) as [ns|e] eqn:Hrest; simpl.
      * split.
        -- intros [= <-]. simpl. f_equal. by apply IH.
        -- destruct names as [|n' ns']; [done|]. simpl.
           intros [= -> Hns]. apply IH in Hns. congruence.
      * split; [done|]. destruct names as [|n' ns']; [done|]. simpl.
        intros [= -> Hns]. apply IH in Hns. congruence.
    + split; [done|]. by destruct names.
Qed.

Lemma NoDup_insert_name (names : list string) i n :
  NoDup names ->
  (forall j, names !! j = Some n -> j = i) ->
  NoDup (<[i := n]> names).
Proof.
  intros Hnd Honly. apply NoDup_alt. intros j k x Hj Hk.
  destruct (decide (j = i)) as [-> | Hji];
    destruct (decide (k = i)) as [-> | Hki]; try done.
  - rewrite list_lookup_insert_ne in Hk by done.
    apply list_lookup_insert_Some in Hj as [(_ & <- & _) | (? & _)]; [|done].
    by apply Honly in Hk.
  - rewrite list_lookup_insert_ne in Hj by done.
    apply list_lookup_insert_Some in Hk as [(_ & <- & _) | (? & _)]; [|done].
    by apply Honly in Hj.
  - rewrite list_lookup_insert_ne in Hj, Hk by done.
    by eapply (proj1 (NoDup_alt names) Hnd).
Qed.

(** X27. [save_changes] keeps the names of the saved searches distinct. For
    a new search, or for the search at [search_index] opened under its own
    name, it returns [True] exactly when the stripped name is not empty, is
    not the name of another saved search, and the find text is not empty;
    it then hands to [tprefs.set] the list with the search appended or put
    in its place, all other entries untouched, and shows nothing. Otherwise
    it shows one dialog, for the first of these conditions that fails, and
    saves nothing. *)
Theorem save_changes_keeps_names_distinct strip searches names e :
  names_of searches = Ok names ->
  NoDup names ->
  EditSearch.mode_box e < 3 ->
  (EditSearch.search_index e = (-1)%Z /\ EditSearch.original_name e = None) \/
  ((0 <= EditSearch.search_index e < Z.of_nat (length searches))%Z /\
   names !! Z.to_nat (EditSearch.search_index e)
   = EditSearch.original_name e) ->
  let n := strip (EditSearch.search_name e) in
  let free :=
    forall j, names !! j = Some n -> Z.of_nat j = EditSearch.search_index e in
  exists o,
    EditSearch.save_changes strip searches e = Ok o /\
    (EditSearch.returned o = true <->
     n <> "" /\ free /\ EditSearch.find_edit e <> "") /\
    (EditSearch.returned o = false ->
     EditSearch.saved o = None /\
     exists title detail,
       EditSearch.dialogs o = [error_dialog title detail] /\
       (n = "" -> title = "Must specify name") /\
       (n <> "" -> ~ free -> title = "Name exists") /\
       (n <> "" -> free -> title = "Must specify find")) /\
    (EditSearch.returned o = true ->
     EditSearch.dialogs o = [] /\
     exists s m l names',
       EditSearch.saved o = Some l /\
       ModeBox_mode (EditSearch.mode_box e) = Ok m /\
       s = {| s_name := Some n; s_find := Some (EditSearch.find_edit e);
              s_replace := Some (EditSearch.replace_edit e);
              s_case_sensitive := Some (EditSearch.case_sensitive_box e);
              s_dot_all := Some (EditSearch.dot_all_box e);
              s_mode := Some m |} /\
       l = (if bool_decide (EditSearch.search_index e = (-1)%Z)
            then searches ++ [s]
            else <[Z.to_nat (EditSearch.search_index e) := s]> searches) /\
       names_of l = Ok names' /\ NoDup names').
Proof.
  intros Hnames Hnd Hmode Hplace n free.
  assert (Hin_taken :
            n ∈ filter (fun n0 => Some n0 <> EditSearch.original_name e) names ->
            ~ free).
  { rewrite list_elem_of_filter. unfold free.
    intros [Hne Hin] Hfree. apply list_elem_of_lookup in Hin as [j Hj].
    specialize (Hfree j Hj).
    destruct Hplace as [[Hidx _] | [Hidx Horig]]; [lia|].
    rewrite <- Hfree, Nat2Z.id in Horig. congruence. }
  assert (Hnin_free :
            n ∉ filter (fun n0 => Some n0 <> EditSearch.original_name e) names ->
            free).
  { intros Hnin j Hj.
    destruct (decide (Z.of_nat j = EditSearch.search_index e)) as [?|Hne];
      [done|].
    exfalso. apply Hnin. apply list_elem_of_filter.
    split; [|by eapply list_elem_of_lookup_2].
    intros Hsame.
    destruct Hplace as [[_ Horig] | [Hidx Horig]]; [congruence|].
    rewrite <- Hsame in Horig.
    pose proof (NoDup_lookup _ _ _ _ Hnd Hj Horig). lia. }
  destruct (lookup_lt_is_Some_2 ["normal"; "regex"; "function"]
              (EditSearch.mode_box e)) as [m Hm]; [done|].
  assert (Hmb : ModeBox_mode (EditSearch.mode_box e) = Ok m).
  { unfold ModeBox_mode. by rewrite Hm. }
  unfold EditSearch.save_changes. rewrite Hnames. simpl. fold n.
  destruct (decide (n = "")) as [Hempty | Hempty].
  { rewrite bool_decide_eq_true_2 by done.
    eexists. split; [reflexivity|]. simpl. split_and!.
    - split; [done|]. by intros (? & _).
    - intros _. split; [done|]. eexists _, _. split; [reflexivity|].
      split_and!; done.
    - done. }
  rewrite bool_decide_eq_false_2 by done.
  destruct (decide (n ∈ filter (fun n0 => Some n0 <> EditSearch.original_name e)
                      names)) as [Hin | Hnin].
  { rewrite bool_decide_eq_true_2 by done.
    apply Hin_taken in Hin.
    eexists. split; [reflexivity|]. simpl. split_and!.
    - split; [done|]. by intros (_ & ? & _).
    - intros _. split; [done|]. eexists _, _. split; [reflexivity|].
      split_and!; done.
    - done. }
  rewrite bool_decide_eq_false_2 by done.
  assert (Hfree' : free) by (by apply Hnin_free).
  destruct (decide (EditSearch.find_edit e = "")) as [Hf | Hf].
  { rewrite bool_decide_eq_true_2 by done.
    eexists. split; [reflexivity|]. simpl. split_and!.
    - split; [done|]. by intros (_ & _ & ?).
    - intros _. split; [done|]. eexists _, _. split; [reflexivity|].
      split_and!; done.
    - done. }
  rewrite bool_decide_eq_false_2 by done. rewrite Hmb. simpl.
  set (s := {| s_name := Some n; s_find := Some (EditSearch.find_edit e);
               s_replace := Some (EditSearch.replace_edit e);
               s_case_sensitive := Some (EditSearch.case_sensitive_box e);
               s_dot_all := Some (EditSearch.dot_all_box e);
               s_mode := Some m |}).
  apply names_of_spec in Hnames.
  destruct Hplace as [[Hidx Horig] | [Hidx Horig]].
  - rewrite bool_decide_eq_true_2 by done. simpl.
    eexists. split; [reflexivity|]. simpl. split_and!; try done.
    intros _. split; [done|].
    exists s, m, (searches ++ [s]), (names ++ [n]).
    split_and!; try done.
    + apply names_of_spec. rewrite !fmap_app, Hnames. done.
    + apply NoDup_app. split_and!; [done| |apply NoDup_singleton].
      intros x Hx Hx'. apply list_elem_of_singleton in Hx' as ->.
      apply list_elem_of_lookup in Hx as [j Hj].
      specialize (Hfree' j Hj). lia.
  - rewrite bool_decide_eq_false_2 by lia.
    unfold SearchesModel.setitem.
    rewrite (position_Z _ _ Hidx). simpl.
    eexists. split; [reflexivity|]. simpl. split_and!; try done.
    intros _. split; [done|].
    exists s, m, (<[Z.to_nat (EditSearch.search_index e) := s]> searches),
      (<[Z.to_nat (EditSearch.search_index e) := n]> names).
    split_and!; try done.
    + apply names_of_spec. rewrite !list_fmap_insert, Hnames. done.
    + apply NoDup_insert_name; [done|].
      intros j Hj. specialize (Hfree' j Hj). lia.
Qed.

(** X28. Opening a saved search in the editor and reading or saving it
    without a change gives the search back, as far as the widgets keep the
    texts: the find and replace texts read back are what the text boxes make
    of them, and for a search that has all its keys, a mode the mode box
    knows, texts the boxes leave as they are, a find text and a name that
    stripping leaves alone, [current_search] is the search and
    [save_changes] hands the list it was given to [tprefs.set], with no
    dialog. A search without a mode reads back as a regex search. *)
Theorem edit_without_changes_saves_same
    line_text plain_text strip searches names i s n f r c d m :
  names_of searches = Ok names ->
  searches !! i = Some s ->
  s = {| s_name := Some n; s_find := Some f; s_replace := Some r;
         s_case_sensitive := Some c; s_dot_all := Some d;
         s_mode := Some m |} ->
  m ∈ ["normal"; "regex"; "function"] ->
  let e := EditSearch.show_search line_text plain_text (Some s) (Z.of_nat i)
             None in
  (exists s',
     EditSearch.current_search e = Ok s' /\
     s_find s' = Some (plain_text f) /\ s_replace s' = Some (plain_text r) /\
     s_name s' = Some n /\ s_case_sensitive s' = Some c /\
     s_dot_all s' = Some d /\ s_mode s' = Some m) /\
  (line_text n = n -> plain_text f = f -> plain_text r = r ->
   strip n = n -> n <> "" -> f <> "" ->
   EditSearch.current_search e = Ok s /\
   EditSearch.save_changes strip searches e
   = Ok {| EditSearch.returned := true; EditSearch.saved := Some searches;
           EditSearch.editor := e; EditSearch.dialogs := [] |}) /\
  (forall s0 idx,
     s_mode s0 = None ->
     exists s',
       EditSearch.current_search
         (EditSearch.show_search line_text plain_text (Some s0) idx None)
       = Ok s' /\
       s_mode s' = Some "regex").
Proof.
  intros Hnames Hs -> Hm e.
  assert (Hmode : ModeBox_mode (ModeBox_set_mode (PStr m)) = Ok m).
  { apply elem_of_cons in Hm as [-> | Hm]; [done|].
    apply elem_of_cons in Hm as [-> | Hm]; [done|].
    apply list_elem_of_singleton in Hm as ->. done. }
  split_and!.
  - unfold EditSearch.current_search, e. simpl. rewrite Hmode. simpl.
    eexists. split; [reflexivity|]. done.
  - intros Hline Hpf Hpr Hstrip Hn Hf.
    assert (He : e = {| EditSearch.search :=
                          {| s_name := Some n; s_find := Some f;
                             s_replace := Some r; s_case_sensitive := Some c;
                             s_dot_all := Some d; s_mode := Some m |};
                        EditSearch.original_name := Some n;
                        EditSearch.search_index := Z.of_nat i;
                        EditSearch.search_name := n;
                        EditSearch.find_edit := f;
                        EditSearch.replace_edit := r;
                        EditSearch.case_sensitive_box := c;
                        EditSearch.dot_all_box := d;
                        EditSearch.mode_box := ModeBox_set_mode (PStr m) |}).
    { unfold e, EditSearch.show_search. simpl. by rewrite Hline, Hpf, Hpr. }
    rewrite He. split.
    + unfold EditSearch.current_search. simpl. rewrite Hmode. done.
    + unfold EditSearch.save_changes. rewrite Hnames. simpl.
      rewrite Hstrip.
      rewrite (bool_decide_eq_false_2 (n = "")) by done.
      rewrite bool_decide_eq_false_2.
      2:{ rewrite list_elem_of_filter. by intros [? _]. }
      rewrite (bool_decide_eq_false_2 (f = "")) by done.
      rewrite Hmode. simpl.
      rewrite bool_decide_eq_false_2 by lia.
      unfold SearchesModel.setitem.
      rewrite position_nat by (by eapply lookup_lt_Some). simpl.
      rewrite list_insert_id by done. done.
  - intros s0 idx Hnone. unfold EditSearch.current_search. simpl.
    rewrite Hnone. simpl. by eexists.
Qed.

Lemma save_changes_keeps_names_distinct_witness :
  let a := {| s_name := Some "a"; s_find := Some "x"; s_replace := Some "y";
              s_case_sensitive := Some true; s_dot_all := Some false;
              s_mode := Some "regex" |} in
  exists o,
    EditSearch.save_changes (fun n => n) [a]
      (EditSearch.show_search (fun n => n) (fun n => n) (Some a) 0 None)
    = Ok o /\
    EditSearch.returned o = true.
Proof.
  intros a.
  destruct (save_changes_keeps_names_distinct (fun n => n) [a] ["a"]
              (EditSearch.show_search (fun n => n) (fun n => n) (Some a) 0
                 None))
    as (o & Hrun & Hret & _).
  - reflexivity.
  - apply NoDup_singleton.
  - vm_compute. lia.
  - right. split; [simpl; lia | reflexivity].
  - exists o. split; [exact Hrun|]. apply Hret. split_and!.
    + discriminate.
    + intros [|j] Hj; [reflexivity | discriminate Hj].
    + discriminate.
Defined.

Lemma edit_without_changes_saves_same_witness :
  let a := {| s_name := Some "a"; s_find := Some "x"; s_replace := Some "y";
              s_case_sensitive := Some true; s_dot_all := Some false;
              s_mode := Some "regex" |} in
  EditSearch.current_search
    (EditSearch.show_search (fun n => n) (fun n => n) (Some a) 0 None)
  = Ok a.
Proof.
  intros a.
  destruct (edit_without_changes_saves_same (fun n => n) (fun n => n)
              (fun n => n) [a] ["a"] 0 a "a" "x" "y" true false "regex")
    as (_ & Hsame & _).
  - reflexivity.
  - reflexivity.
  - reflexivity.
  - apply (bool_decide_unpack _). vm_compute. exact I.
  - refine (proj1 (Hsame eq_refl eq_refl eq_refl eq_refl _ _)); discriminate.
Defined.

(** ** Replace-all when a substitution raises *)

Section SubstitutionErrorProperties.

Variable regex : regex_module.
Variable replace_functions : gset string.
Variable all_in_marked :
  compiled -> option replacement -> editor_obj -> editor_obj * nat.
Variable do_find :
  search_request -> bool -> string -> list (compiled * replacement) ->
  world -> result retval * world.
Variable do_replace :
  search_request -> string -> list (compiled * replacement) ->
  world -> result bool * world.
Variable subn_error :
  compiled -> replacement -> string -> string -> option exn.






(** Where no substitution can raise, [run_search_x] is [run_search]. *)
Lemma run_search_x_no_error searches action ce cen sn w :
  (forall p repl n raw, subn_error p repl n raw = None) ->
  run_search_x regex replace_functions all_in_marked do_find do_replace
    subn_error searches action ce cen sn w
  = run_search regex replace_functions all_in_marked do_find do_replace
      searches action ce cen sn w.
Proof.
  intros Hnone.
  assert (Hfile : forall replace p repl n st,
             do_all_file_x regex subn_error replace p repl n st
             = do_all_file regex replace p repl n st).
  { intros rp p repl n st. unfold do_all_file_x, do_all_file.
    destruct (raw_data st !! n) as [raw|]; [|reflexivity].
    destruct rp; [|reflexivity].
    by rewrite Hnone. }
  assert (Hfiles : forall replace p repl names st,
             do_all_files_x regex subn_error replace p repl names st
             = do_all_files regex replace p repl names st).
  { intros rp p repl names. induction names as [|n names IH];
      intros st; simpl; [done|].
    rewrite Hfile. destruct (do_all_file regex rp p repl n st); [|done].
    simpl. apply IH. }
  assert (Hsearches : forall replace cs names st,
             do_all_searches_x regex subn_error replace cs names st
             = do_all_searches regex replace cs names st).
  { intros rp cs names. induction cs as [|[p repl] cs IH];
      intros st; simpl; [done|].
    rewrite Hfiles.
    destruct (do_all_files regex rp p repl names st); [|done].
    simpl. apply IH. }
  assert (Hall : forall rq errfind cs replace w0,
             do_all_x regex subn_error rq cen errfind cs replace w0
             = do_all regex rq cen errfind cs replace w0).
  { intros rq errfind cs rp w0.
    unfold do_all_x, do_all, do_all_full_x, do_all_full.
    destruct (early_return rq); [done|].
    destruct (do_all_lfiles rq cen w0); [|done]. simpl.
    destruct (read_raw_data _ _ _); [|done]. by rewrite Hsearches. }
  unfold run_search_x, run_search.
  destruct (run_search_scope searches action ce cen sn) as [[rq wr]|e];
    [|done].
  destruct (compile_searches regex replace_functions searches w)
    as [[cs|e] w1]; [|done].
  destruct action; try done; by rewrite !Hall.
Qed.

End SubstitutionErrorProperties.

